(** * Pandar40 raw-data accessor: a shallow embedding of
      [pandar_pointcloud/src/lib/rawdata.cc]

    The development follows the translation unit function by function:
    [setParameters], [setup] / [setupOffline] (the angle lookup tables),
    [parseRawData], [computeXYZIR], [toPointClouds] and [unpack].

    Integers are [Z] with the C conversions written out, [double] is Rocq's
    primitive binary64 [float], and a C [float] is a binary64 value that has
    been rounded to binary32 ([to_float]). *)

From Stdlib Require Import Reals Lra Machin QArith Qreals.
From Stdlib.Strings Require Import String Byte.
From Stdlib Require Import ZArith List Bool Lia Floats.
Import ListNotations.

Local Open Scope Z_scope.

(** ** Machine integers *)

Module CInt.

Definition INT_MAX : Z := 2 ^ 31 - 1.
Definition INT_MIN : Z := - 2 ^ 31.

(** Conversion to [int] (two's complement wrap-around). *)
Definition to_int (z : Z) : Z := (z + 2 ^ 31) mod 2 ^ 32 - 2 ^ 31.

(** Conversions to the unsigned types of the packet structs. *)
Definition to_uint8 (z : Z) : Z := z mod 2 ^ 8.
Definition to_uint16 (z : Z) : Z := z mod 2 ^ 16.
Definition to_uint32 (z : Z) : Z := z mod 2 ^ 32.

(** [a + b] and [a << n] on [int]. *)
Definition add (a b : Z) : Z := to_int (a + b).
Definition shl (a n : Z) : Z := to_int (Z.shiftl a n).

End CInt.

(** ** Fixed-size arrays

    A C array member is a total map from indices to elements; a write
    replaces one cell. *)

Definition upd {A : Type} (a : nat -> A) (i : nat) (v : A) : nat -> A :=
  fun k => if Nat.eqb k i then v else a k.

(** [for (int i = 0; i < n; i++) body], threading the loop state. *)
Definition for_loop {S : Type} (n : nat) (body : nat -> S -> S) (s : S) : S :=
  fold_left (fun acc i => body i acc) (seq 0 n) s.

(** ** The raw packet structures *)

(** Modelled from the spec: [raw_measure_t], [raw_block_t] and
    [raw_packet_t] are declared in the header [rawdata.h], which is not part
    of the sources; section 3 of the specification gives their fields
    (unsigned 16-bit marker, azimuth, reflectivity and revolution counter,
    unsigned 32-bit timestamp, two factory bytes; the 24-bit range lives in
    an unsigned 32-bit field). *)
Record raw_measure_t := mk_measure {
  range : Z;
  reflectivity : Z
}.

Record raw_block_t := mk_block {
  sob : Z;
  azimuth : Z;
  measures : nat -> raw_measure_t
}.

Record raw_packet_t := mk_packet {
  blocks : nat -> raw_block_t;
  revolution : Z;
  timestamp : Z;
  factory : nat -> Z
}.

Definition set_range (m : raw_measure_t) (v : Z) : raw_measure_t :=
  {| range := v; reflectivity := reflectivity m |}.
Definition set_reflectivity (m : raw_measure_t) (v : Z) : raw_measure_t :=
  {| range := range m; reflectivity := v |}.

Definition set_sob (b : raw_block_t) (v : Z) : raw_block_t :=
  {| sob := v; azimuth := azimuth b; measures := measures b |}.
Definition set_azimuth (b : raw_block_t) (v : Z) : raw_block_t :=
  {| sob := sob b; azimuth := v; measures := measures b |}.
Definition set_measure (b : raw_block_t) (j : nat) (m : raw_measure_t) : raw_block_t :=
  {| sob := sob b; azimuth := azimuth b; measures := upd (measures b) j m |}.

Definition set_block (p : raw_packet_t) (i : nat) (b : raw_block_t) : raw_packet_t :=
  {| blocks := upd (blocks p) i b; revolution := revolution p;
     timestamp := timestamp p; factory := factory p |}.
Definition set_revolution (p : raw_packet_t) (v : Z) : raw_packet_t :=
  {| blocks := blocks p; revolution := v;
     timestamp := timestamp p; factory := factory p |}.
Definition set_timestamp (p : raw_packet_t) (v : Z) : raw_packet_t :=
  {| blocks := blocks p; revolution := revolution p;
     timestamp := v; factory := factory p |}.
Definition set_factory (p : raw_packet_t) (k : nat) (v : Z) : raw_packet_t :=
  {| blocks := blocks p; revolution := revolution p;
     timestamp := timestamp p; factory := upd (factory p) k v |}.

(** ** Input buffers *)

Definition buffer := list byte.

(** [buf[index]], promoted to [int].  A read past the end of the list (which
    no correctly sized call performs) yields 0. *)
Definition byte_at (buf : buffer) (index : Z) : Z :=
  if index <? 0 then 0
  else Z.of_N (Byte.to_N (nth (Z.to_nat index) buf x00)).

(** Modelled from the spec: a [pandar_msgs::PandarPacket] carries the
    arrival time stamp and the bytes of one packet (section 6); the message
    definition is not part of the sources. *)
Record PandarPacket := mk_pandar_packet {
  stamp : Z;
  data : buffer
}.

(** ** Floating point

    [double] is the primitive binary64 type.  The operations [+], [-], [*],
    [/] and the comparisons are the IEEE-754 ones of the kernel; every
    expression is evaluated in the precision of its C type, without
    contraction. *)

Module CFloat.

(** Rounding to nearest-even into binary32 (24-bit significand, exponent
    bound 128): the conversion [double -> float]. Zeros, infinities and NaN
    convert to themselves. *)
Definition to_float (x : float) : float :=
  match Prim2SF x with
  | S754_finite s m e => SF2Prim (binary_round 24 128 s m e)
  | _ => x
  end.

(** Conversion of an integer to [double] and to [float]. *)
Definition of_Z (z : Z) : float :=
  SF2Prim (binary_normalize 53 1024 z 0 false).
Definition float_of_Z (z : Z) : float :=
  SF2Prim (binary_normalize 24 128 z 0 false).

(** Conversion [double -> int]: truncation toward zero.  The conversion is
    undefined when the truncated value does not fit (or for NaN); the model
    returns [INT_MIN] there, as the x86 conversion instruction does. *)
Definition trunc (x : float) : option Z :=
  match Prim2SF x with
  | S754_zero _ => Some 0
  | S754_finite s m e => Some (cond_Zopp s (Z.shiftl (Zpos m) e))
  | _ => None
  end.
Definition to_int (x : float) : Z :=
  match trunc x with
  | Some z =>
      if (CInt.INT_MIN <=? z) && (z <=? CInt.INT_MAX) then z
      else CInt.INT_MIN
  | None => CInt.INT_MIN
  end.

(** [fmod] is exact: the result is [x - n*y] for the integer [n] that
    truncates [x/y], with the sign of [x]. *)
Definition SFfmod (x y : spec_float) : spec_float :=
  match x, y with
  | S754_nan, _ | _, S754_nan => S754_nan
  | S754_infinity _, _ => S754_nan
  | _, S754_zero _ => S754_nan
  | S754_zero _, _ => x
  | S754_finite _ _ _, S754_infinity _ => x
  | S754_finite sx mx ex, S754_finite _ my ey =>
      let e := Z.min ex ey in
      let X := Z.shiftl (Zpos mx) (ex - e) in
      let Y := Z.shiftl (Zpos my) (ey - e) in
      binary_normalize 53 1024 (cond_Zopp sx (X mod Y)) e sx
  end.
Definition fmod (x y : float) : float :=
  SF2Prim (SFfmod (Prim2SF x) (Prim2SF y)).

(** [M_PI] of <math.h>. *)
Definition M_PI : float := 0x1.921fb54442d18p+1%float.

(** [angles::from_degrees] of the ROS [angles] package. *)
Definition from_degrees (degrees : float) : float :=
  (degrees * M_PI / 180)%float.

(** [std::isnan]. *)
Definition isnan (x : float) : bool := is_nan x.

(** The value of a finite number, as a rational and as a real. *)
Definition SF2Q (f : spec_float) : Q :=
  match f with
  | S754_finite s m e =>
      let sm := cond_Zopp s (Zpos m) in
      match e with
      | Z0 => inject_Z sm
      | Zpos p => inject_Z (sm * 2 ^ Zpos p)
      | Zneg p => Qmake sm (2 ^ p)%positive
      end
  | _ => 0%Q
  end.
Definition to_Q (x : float) : Q := SF2Q (Prim2SF x).
Definition to_R (x : float) : R := Q2R (to_Q x).

Definition finite (x : float) : bool :=
  match Prim2SF x with
  | S754_zero _ | S754_finite _ _ _ => true
  | _ => false
  end.

End CFloat.

(** The trigonometric functions of the C math library.  Their values are not
    fixed by the language, so the model takes them as an interface. *)
Class Libm := {
  cos : float -> float;
  sin : float -> float;
  cosf : float -> float;
  sinf : float -> float
}.

(** ** Object state *)

(** Modelled from the spec: [PandarLaserCorrection] and [Calibration] are
    declared in [calibration.h], which is not part of the sources; section 3
    lists the per-laser fields, one entry per laser channel. *)
Record PandarLaserCorrection := mk_correction {
  azimuthCorrection : float;
  distanceCorrection : float;
  verticalOffsetCorrection : float;
  horizontalOffsetCorrection : float;
  cosVertCorrection : float;
  sinVertCorrection : float
}.

Record Calibration := mk_calibration {
  initialized : bool;
  num_lasers : Z;
  laser_corrections : nat -> PandarLaserCorrection
}.

(** The [Config] member of [RawData] (declared in [rawdata.h]); the fields
    are the ones the sources assign. *)
Record Config := mk_config {
  calibrationFile : String.string;
  max_range : float;
  min_range : float;
  min_angle : Z;
  max_angle : Z;
  tmp_min_angle : float;
  tmp_max_angle : float
}.

Record RawData := mk_rawdata {
  config_ : Config;
  calibration_ : Calibration;
  sin_lookup_table_ : nat -> float;
  cos_lookup_table_ : nat -> float
}.

Definition set_config (this : RawData) (c : Config) : RawData :=
  {| config_ := c; calibration_ := calibration_ this;
     sin_lookup_table_ := sin_lookup_table_ this;
     cos_lookup_table_ := cos_lookup_table_ this |}.
Definition set_calibration (this : RawData) (c : Calibration) : RawData :=
  {| config_ := config_ this; calibration_ := c;
     sin_lookup_table_ := sin_lookup_table_ this;
     cos_lookup_table_ := cos_lookup_table_ this |}.
Definition set_cos_entry (this : RawData) (i : nat) (v : float) : RawData :=
  {| config_ := config_ this; calibration_ := calibration_ this;
     sin_lookup_table_ := sin_lookup_table_ this;
     cos_lookup_table_ := upd (cos_lookup_table_ this) i v |}.
Definition set_sin_entry (this : RawData) (i : nat) (v : float) : RawData :=
  {| config_ := config_ this; calibration_ := calibration_ this;
     sin_lookup_table_ := upd (sin_lookup_table_ this) i v;
     cos_lookup_table_ := cos_lookup_table_ this |}.

Definition set_calibrationFile (c : Config) (f : String.string) : Config :=
  {| calibrationFile := f; max_range := max_range c; min_range := min_range c;
     min_angle := min_angle c; max_angle := max_angle c;
     tmp_min_angle := tmp_min_angle c; tmp_max_angle := tmp_max_angle c |}.
Definition set_max_range (c : Config) (v : float) : Config :=
  {| calibrationFile := calibrationFile c; max_range := v; min_range := min_range c;
     min_angle := min_angle c; max_angle := max_angle c;
     tmp_min_angle := tmp_min_angle c; tmp_max_angle := tmp_max_angle c |}.
Definition set_min_range (c : Config) (v : float) : Config :=
  {| calibrationFile := calibrationFile c; max_range := max_range c; min_range := v;
     min_angle := min_angle c; max_angle := max_angle c;
     tmp_min_angle := tmp_min_angle c; tmp_max_angle := tmp_max_angle c |}.
Definition set_min_angle (c : Config) (v : Z) : Config :=
  {| calibrationFile := calibrationFile c; max_range := max_range c; min_range := min_range c;
     min_angle := v; max_angle := max_angle c;
     tmp_min_angle := tmp_min_angle c; tmp_max_angle := tmp_max_angle c |}.
Definition set_max_angle (c : Config) (v : Z) : Config :=
  {| calibrationFile := calibrationFile c; max_range := max_range c; min_range := min_range c;
     min_angle := min_angle c; max_angle := v;
     tmp_min_angle := tmp_min_angle c; tmp_max_angle := tmp_max_angle c |}.
Definition set_tmp_min_angle (c : Config) (v : float) : Config :=
  {| calibrationFile := calibrationFile c; max_range := max_range c; min_range := min_range c;
     min_angle := min_angle c; max_angle := max_angle c;
     tmp_min_angle := v; tmp_max_angle := tmp_max_angle c |}.
Definition set_tmp_max_angle (c : Config) (v : float) : Config :=
  {| calibrationFile := calibrationFile c; max_range := max_range c; min_range := min_range c;
     min_angle := min_angle c; max_angle := max_angle c;
     tmp_min_angle := tmp_min_angle c; tmp_max_angle := v |}.

(** ** Output points *)

(** Modelled from the spec: [PPoint] and [PPointCloud] are declared in
    [point_types.h] (not part of the sources); section 3 gives the point as
    single-precision [x], [y], [z], [intensity] and the channel index
    [ring]. *)
Record PPoint := mk_point {
  x : float;
  y : float;
  z : float;
  intensity : float;
  ring : Z
}.

Record PPointCloud := mk_cloud {
  points : list PPoint;
  width : Z
}.

Definition set_intensity (p : PPoint) (v : float) : PPoint :=
  {| x := x p; y := y p; z := z p; intensity := v; ring := ring p |}.
Definition set_x (p : PPoint) (v : float) : PPoint :=
  {| x := v; y := y p; z := z p; intensity := intensity p; ring := ring p |}.
Definition set_y (p : PPoint) (v : float) : PPoint :=
  {| x := x p; y := v; z := z p; intensity := intensity p; ring := ring p |}.
Definition set_z (p : PPoint) (v : float) : PPoint :=
  {| x := x p; y := y p; z := v; intensity := intensity p; ring := ring p |}.
Definition set_ring (p : PPoint) (v : Z) : PPoint :=
  {| x := x p; y := y p; z := z p; intensity := intensity p; ring := v |}.

(** [point.x = point.y = point.z = v]. *)
Definition set_xyz (p : PPoint) (v : float) : PPoint :=
  set_x (set_y (set_z p v) v) v.

(** [std::numeric_limits<float>::quiet_NaN ()]. *)
Definition quiet_NaN : float := nan.

(** ** Outcomes

    Reading a lookup table outside its declared extent has no defined
    behaviour; the model stops there and reports the offending index. *)
Inductive outcome (A : Type) : Type :=
| Done (a : A)
| OutOfBounds (index : Z).
Arguments Done {A} a.
Arguments OutOfBounds {A} index.

Definition bind {A B : Type} (m : outcome A) (k : A -> outcome B) : outcome B :=
  match m with
  | Done a => k a
  | OutOfBounds i => OutOfBounds i
  end.

Notation "x <- m ;; k" := (bind m (fun x => k))
  (at level 61, m at next level, right associativity).

(** A [for] loop whose body may stop the run. *)
Definition for_loopM {S : Type} (n : nat) (body : nat -> S -> outcome S) (s : S)
    : outcome S :=
  fold_left (fun acc i => s' <- acc ;; body i s') (seq 0 n) (Done s).

(** ** Angle lookup tables *)

(** Modelled from the spec: one azimuth unit is 0.01 degree and a revolution
    has 36000 of them (section 4.2 and the glossary); [rawdata.h] declares
    both constants, and the two tables with [ROTATION_MAX_UNITS] cells. *)
Definition ROTATION_MAX_UNITS : Z := 36000.
Definition ROTATION_RESOLUTION : float := 0x1.47ae14p-7%float.

(** [table[index]] on a table of [ROTATION_MAX_UNITS] cells. *)
Definition table_read (table : nat -> float) (index : Z) : outcome float :=
  if (0 <=? index) && (index <? ROTATION_MAX_UNITS)
  then Done (table (Z.to_nat index))
  else OutOfBounds index.

(** ** Packet layout *)

Section Driver.

(** The counts of [rawdata.h] that the sources use by name only. *)
Variables BLOCKS_PER_PACKET LASER_COUNT RESERVE_SIZE : nat.

(** Modelled from the spec: the field widths of the wire format (section 6:
    block count x (4 + laser_count x 5) + reserved + revolution(2) +
    timestamp(4) + factory(2)); the macros themselves are in [rawdata.h]. *)
Definition SOB_ANGLE_SIZE : Z := 4.
Definition RAW_MEASURE_SIZE : Z := 5.
Definition REVOLUTION_SIZE : Z := 2.
Definition TIMESTAMP_SIZE : Z := 4.
Definition FACTORY_ID_SIZE : Z := 2.

Definition BLOCK_SIZE : Z :=
  RAW_MEASURE_SIZE * Z.of_nat LASER_COUNT + SOB_ANGLE_SIZE.
Definition INFO_SIZE : Z :=
  TIMESTAMP_SIZE + FACTORY_ID_SIZE + Z.of_nat RESERVE_SIZE + REVOLUTION_SIZE.
Definition PACKET_SIZE : Z :=
  BLOCK_SIZE * Z.of_nat BLOCKS_PER_PACKET + INFO_SIZE.

(** *** [RawData::parseRawData] *)

(** The body of the loop over the laser channels (source lines 158-171). *)
Definition parse_measure_step (buf : buffer) (j : nat)
    (st : Z * raw_block_t) : Z * raw_block_t :=
  let '(index, block) := st in
  let measure := measures block j in
  let measure := set_range measure (CInt.to_uint32
    (Z.lor (Z.lor (Z.land (byte_at buf index) 255)
                  (CInt.shl (Z.land (byte_at buf (CInt.add index 1)) 255) 8))
           (CInt.shl (Z.land (byte_at buf (CInt.add index 2)) 255) 16))) in
  let measure := set_reflectivity measure (CInt.to_uint16
    (Z.lor (Z.land (byte_at buf (CInt.add index 3)) 255)
           (CInt.shl (Z.land (byte_at buf (CInt.add index 4)) 255) 8))) in
  let measure :=
    if ((range measure =? 0x010101) && (reflectivity measure =? 0x0101))
       || (range measure >? 200 * 1000 / 2)
    then set_reflectivity (set_range measure 0) 0
    else measure in
  (CInt.add index RAW_MEASURE_SIZE, set_measure block j measure).

(** The body of the loop over the blocks (source lines 152-172). *)
Definition parse_block_step (buf : buffer) (i : nat)
    (st : Z * raw_packet_t) : Z * raw_packet_t :=
  let '(index, packet) := st in
  let block := blocks packet i in
  let block := set_sob block (CInt.to_uint16
    (Z.lor (Z.land (byte_at buf index) 255)
           (CInt.shl (Z.land (byte_at buf (CInt.add index 1)) 255) 8))) in
  let block := set_azimuth block (CInt.to_uint16
    (Z.lor (Z.land (byte_at buf (CInt.add index 2)) 255)
           (CInt.shl (Z.land (byte_at buf (CInt.add index 3)) 255) 8))) in
  let index := CInt.add index SOB_ANGLE_SIZE in
  let '(index, block) :=
    for_loop LASER_COUNT (parse_measure_step buf) (index, block) in
  (index, set_block packet i block).

(** [parseRawData (packet, buf, len)] returns the status code and the
    packet as the call leaves it. *)
Definition parseRawData (packet : raw_packet_t) (buf : buffer) (len : Z)
    : Z * raw_packet_t :=
  if negb (len =? PACKET_SIZE) then (-1, packet)
  else
    let index := 0 in
    let '(index, packet) :=
      for_loop BLOCKS_PER_PACKET (parse_block_step buf) (index, packet) in
    let index := CInt.add index (Z.of_nat RESERVE_SIZE) in
    let packet := set_revolution packet (CInt.to_uint16
      (Z.lor (Z.land (byte_at buf index) 255)
             (CInt.shl (Z.land (byte_at buf (CInt.add index 1)) 255) 8))) in
    let index := CInt.add index REVOLUTION_SIZE in
    let packet := set_timestamp packet (CInt.to_uint32
      (Z.lor (Z.lor (Z.lor
         (Z.land (byte_at buf index) 255)
         (CInt.shl (Z.land (byte_at buf (CInt.add index 1)) 255) 8))
         (CInt.shl (Z.land (byte_at buf (CInt.add index 2)) 255) 16))
         (CInt.shl (Z.land (byte_at buf (CInt.add index 3)) 255) 24))) in
    let index := CInt.add index TIMESTAMP_SIZE in
    let packet := set_factory packet 0
      (CInt.to_uint8 (Z.land (byte_at buf index) 255)) in
    let packet := set_factory packet 1
      (CInt.to_uint8 (Z.land (byte_at buf (CInt.add index 1)) 255)) in
    let index := CInt.add index FACTORY_ID_SIZE in
    (0, packet).


Context {libm : Libm}.

(** *** [RawData::setParameters] *)

Definition setParameters (this : RawData)
    (min_range' max_range' view_direction view_width : float) : RawData :=
  let two_pi := (2 * CFloat.M_PI)%float in
  let cfg := config_ this in
  let cfg := set_min_range cfg min_range' in
  let cfg := set_max_range cfg max_range' in
  let cfg := set_tmp_min_angle cfg (view_direction + view_width / 2)%float in
  let cfg := set_tmp_max_angle cfg (view_direction - view_width / 2)%float in
  let cfg := set_tmp_min_angle cfg
    (CFloat.fmod (CFloat.fmod (tmp_min_angle cfg) two_pi + two_pi) two_pi)%float in
  let cfg := set_tmp_max_angle cfg
    (CFloat.fmod (CFloat.fmod (tmp_max_angle cfg) two_pi + two_pi) two_pi)%float in
  let cfg := set_min_angle cfg (CFloat.to_int
    (100 * (two_pi - tmp_min_angle cfg) * 180 / CFloat.M_PI + 0.5)%float) in
  let cfg := set_max_angle cfg (CFloat.to_int
    (100 * (two_pi - tmp_max_angle cfg) * 180 / CFloat.M_PI + 0.5)%float) in
  let cfg :=
    if min_angle cfg =? max_angle cfg
    then set_max_angle (set_min_angle cfg 0) 36000
    else cfg in
  set_config this cfg.

(** *** [RawData::setup] and [RawData::setupOffline] *)

(** [float rotation = angles::from_degrees(ROTATION_RESOLUTION * rot_index)]:
    the product is a single-precision product, [from_degrees] computes in
    double precision, and the initialisation rounds to single precision. *)
Definition rotation_of (rot_index : Z) : float :=
  CFloat.to_float (CFloat.from_degrees
    (CFloat.to_float (ROTATION_RESOLUTION * CFloat.float_of_Z rot_index)%float)).

(** The loop that caches sine and cosine of every heading (source lines
    103-107 and 134-138).  The counter is a [uint16_t]; it stays below
    [ROTATION_MAX_UNITS], so it never wraps. *)
Definition fill_tables_step (rot_index : nat) (this : RawData) : RawData :=
  let rotation := rotation_of (Z.of_nat rot_index) in
  let this := set_cos_entry this rot_index (cosf rotation) in
  set_sin_entry this rot_index (sinf rotation).

Definition fill_tables (this : RawData) : RawData :=
  for_loop (Z.to_nat ROTATION_MAX_UNITS) fill_tables_step this.

(** [setup]: [param] is the value of the ROS parameter "calibration" when it
    is set, [pkgPath] the package path, and [read] stands for
    [Calibration::read], which fills the calibration from a file. *)
Definition setup (this : RawData) (param : option String.string)
    (pkgPath : String.string) (read : String.string -> Calibration)
    : Z * RawData :=
  let file :=
    match param with
    | Some f => f
    | None => String.append pkgPath "/params/Lidar-Correction-18.csv"%string
    end in
  let this := set_config this (set_calibrationFile (config_ this) file) in
  let this := set_calibration this (read (calibrationFile (config_ this))) in
  if negb (initialized (calibration_ this)) then (-1, this)
  else (0, fill_tables this).

Definition setupOffline (this : RawData) (calibration_file : String.string)
    (max_range_ min_range_ : float) (read : String.string -> Calibration)
    : Z * RawData :=
  let this := set_config this (set_max_range (config_ this) max_range_) in
  let this := set_config this (set_min_range (config_ this) min_range_) in
  let this := set_config this
    (set_calibrationFile (config_ this) calibration_file) in
  let this := set_calibration this (read (calibrationFile (config_ this))) in
  if negb (initialized (calibration_ this)) then (-1, this)
  else (0, fill_tables this).

(** *** [RawData::computeXYZIR] *)

(** Source lines 201-211: cosine and sine of the azimuth. *)
Definition azimuth_trig (this : RawData) (azimuth : Z)
    (correction : PandarLaserCorrection) : outcome (float * float) :=
  if (azimuthCorrection correction =? 0)%float then
    cos_azimuth <- table_read (cos_lookup_table_ this) azimuth ;;
    sin_azimuth <- table_read (sin_lookup_table_ this) azimuth ;;
    Done (cos_azimuth, sin_azimuth)
  else
    let azimuthInRadians := CFloat.from_degrees
      (CFloat.of_Z azimuth / 100 + azimuthCorrection correction)%float in
    Done (cos azimuthInRadians, sin azimuthInRadians).

Definition computeXYZIR (this : RawData) (point : PPoint) (azimuth : Z)
    (laserReturn : raw_measure_t) (correction : PandarLaserCorrection)
    : outcome PPoint :=
  let distanceM := (CFloat.of_Z (range laserReturn) * 0x1.0624dd2f1a9fcp-9)%float in
  let point := set_intensity point
    (CFloat.float_of_Z (Z.shiftr (reflectivity laserReturn) 8)) in
  if (distanceM <? min_range (config_ this))%float
     || (max_range (config_ this) <? distanceM)%float
  then Done (set_xyz point quiet_NaN)
  else
    trig <- azimuth_trig this azimuth correction ;;
    let '(cos_azimuth, sin_azimuth) := trig in
    let distanceM := (distanceM + distanceCorrection correction)%float in
    let xyDistance := (distanceM * cosVertCorrection correction)%float in
    let point := set_x point (CFloat.to_float
      (xyDistance * sin_azimuth
       - horizontalOffsetCorrection correction * cos_azimuth)%float) in
    let point := set_y point (CFloat.to_float
      (xyDistance * cos_azimuth
       + horizontalOffsetCorrection correction * sin_azimuth)%float) in
    let point := set_z point (CFloat.to_float
      (distanceM * sinVertCorrection correction
       + verticalOffsetCorrection correction)%float) in
    if (x point =? 0)%float && (y point =? 0)%float && (z point =? 0)%float
    then Done (set_xyz point quiet_NaN)
    else Done point.

(** *** [RawData::toPointClouds] *)

(** [PPoint xyzir;] declares a point without initialising it; every field
    is written before it is read, and the model starts from zeros. *)
Definition uninitialized_point : PPoint :=
  {| x := 0; y := 0; z := 0; intensity := 0; ring := 0 |}.

(** The body of the loop over the laser channels (source lines 232-241). *)
Definition toPointClouds_step (this : RawData) (firing_data : raw_block_t)
    (j : nat) (pc : PPointCloud) : outcome PPointCloud :=
  let xyzir := uninitialized_point in
  xyzir <- computeXYZIR this xyzir (azimuth firing_data)
             (measures firing_data j)
             (laser_corrections (calibration_ this) j) ;;
  if CFloat.isnan (x xyzir) || CFloat.isnan (y xyzir) || CFloat.isnan (z xyzir)
  then Done pc
  else
    let xyzir := set_ring xyzir (Z.of_nat j) in
    Done {| points := points pc ++ [xyzir];
            width := CInt.to_uint32 (width pc + 1) |}.

Definition toPointClouds (this : RawData) (packet : raw_packet_t)
    (pc : PPointCloud) : outcome PPointCloud :=
  for_loopM BLOCKS_PER_PACKET (fun i pc =>
    let firing_data := blocks packet i in
    for_loopM LASER_COUNT (toPointClouds_step this firing_data) pc) pc.

(** *** [RawData::unpack] *)

(** [stack] is what the storage of the local [raw_packet_t packet] holds
    when [unpack] is entered: the variable is declared without an
    initialiser.  [pkt.data.size()] is converted to [int]. *)
Definition unpack (this : RawData) (stack : raw_packet_t)
    (pkt : PandarPacket) (pc : PPointCloud) : outcome PPointCloud :=
  let packet := stack in
  let '(_, packet) :=
    parseRawData packet (data pkt) (CInt.to_int (Z.of_nat (length (data pkt)))) in
  toPointClouds this packet pc.

End Driver.

Section Counter.

Context {libm : Libm}.

(** The table loop with its [uint16_t] counter written out: the test
    [rot_index < ROTATION_MAX_UNITS] is made on the counter promoted to
    [int], and [++rot_index] wraps at 2^16.  [fuel] bounds the number of
    passes; [None] is a loop that has not ended within it. *)
Fixpoint fill_tables_uint16 (fuel : nat) (rot_index : Z) (this : RawData)
    : option RawData :=
  match fuel with
  | O => None
  | S fuel' =>
      if rot_index <? ROTATION_MAX_UNITS
      then fill_tables_uint16 fuel' (CInt.to_uint16 (rot_index + 1))
             (fill_tables_step (Z.to_nat rot_index) this)
      else Some this
  end.

End Counter.

(** The file that [setup] reads (source lines 83-89): the parameter, or the
    default below the package path. *)
Definition calibration_path (param : option String.string)
    (pkgPath : String.string) : String.string :=
  match param with
  | Some f => f
  | None => String.append pkgPath "/params/Lidar-Correction-18.csv"%string
  end.

(** The C standard fixes the cosine and the sine of zero (Annex F:
    [cos(+-0)] is 1, [sin(+-0)] is [+-0]). *)
Definition exact_at_zero (libm : Libm) : Prop :=
  cosf 0 = 1%float /\ sinf 0 = 0%float.

(** ** A math library to run the model

    Sine and cosine by their Taylor polynomials after reduction of the
    argument to [[-pi, pi]].  It is exact at 0 ([cos 0 = 1], [sin 0 = 0], as
    the C standard requires of every implementation) and serves to evaluate
    the model on concrete packets; the theorems below hold for every
    [Libm]. *)
Module Taylor.

Definition reduce (x : float) : float :=
  let two_pi := (2 * CFloat.M_PI)%float in
  let r := CFloat.fmod x two_pi in
  if (CFloat.M_PI <? r)%float then (r - two_pi)%float
  else if (r <? - CFloat.M_PI)%float then (r + two_pi)%float
  else r.

(** [n] further terms of an alternating series whose last term is [term],
    of degree [k], in the variable whose square is [x2]. *)
Fixpoint series (n : nat) (k term acc x2 : float) : float :=
  match n with
  | O => acc
  | S n' =>
      let term' := (- term * x2 / ((k + 1) * (k + 2)))%float in
      series n' (k + 2)%float term' (acc + term')%float x2
  end.

Definition sin_poly (x : float) : float :=
  let r := reduce x in series 14 1 r r (r * r)%float.
Definition cos_poly (x : float) : float :=
  let r := reduce x in series 14 0 1 1 (r * r)%float.

Definition libm : Libm :=
  {| cos := cos_poly;
     sin := sin_poly;
     cosf := fun x => CFloat.to_float (cos_poly x);
     sinf := fun x => CFloat.to_float (sin_poly x) |}.

End Taylor.

(** ** The wire format, as the specification words it

    Section 4.3: all multi-byte fields are little-endian; a block is a 2-byte
    start-of-block marker, a 2-byte azimuth and, per laser channel, a 3-byte
    range and a 2-byte reflectivity; the blocks are followed by the reserved
    region, a 2-byte revolution counter, a 4-byte timestamp and 2 factory
    bytes. *)

Section WireFormat.

Variables BLOCKS_PER_PACKET LASER_COUNT RESERVE_SIZE : nat.

(** The unsigned little-endian value of the [n] bytes at offset [off]. *)
Fixpoint le_uint (buf : buffer) (off : Z) (n : nat) : Z :=
  match n with
  | O => 0
  | S n' => byte_at buf off + 256 * le_uint buf (off + 1) n'
  end.

Definition block_offset (i : nat) : Z :=
  Z.of_nat i * BLOCK_SIZE LASER_COUNT.
Definition measure_offset (i j : nat) : Z :=
  block_offset i + 4 + 5 * Z.of_nat j.
Definition tail_offset : Z :=
  Z.of_nat BLOCKS_PER_PACKET * BLOCK_SIZE LASER_COUNT + Z.of_nat RESERVE_SIZE.

(** The measurement of channel [j] of block [i] as it is on the wire. *)
Definition wire_measure (buf : buffer) (i j : nat) : raw_measure_t :=
  {| range := le_uint buf (measure_offset i j) 3;
     reflectivity := le_uint buf (measure_offset i j + 3) 2 |}.

End WireFormat.

(** Section 3: the sentinel pair and any range above 100000 units (200 m)
    denote an invalid return. *)
Definition invalid_return (m : raw_measure_t) : Prop :=
  (range m = 0x010101 /\ reflectivity m = 0x0101) \/ range m > 100000.

Definition invalid_returnb (m : raw_measure_t) : bool :=
  ((range m =? 0x010101) && (reflectivity m =? 0x0101)) || (range m >? 100000).

Definition zeroed_measure : raw_measure_t := {| range := 0; reflectivity := 0 |}.

Definition filter_measure (m : raw_measure_t) : raw_measure_t :=
  if invalid_returnb m then zeroed_measure else m.

(** ** The point corrector and the converter, as the specification words them *)

(** Section 4.4, steps 1 and 3: the distance in metres and the range window,
    tested before any correction is applied. *)
Definition distance_of (m : raw_measure_t) : float :=
  (CFloat.of_Z (range m) * 0x1.0624dd2f1a9fcp-9)%float.

Definition outside_window (cfg : Config) (d : float) : bool :=
  (d <? min_range cfg)%float || (max_range cfg <? d)%float.

(** Step 2: the intensity is the high byte of the reflectivity. *)
Definition high_byte (m : raw_measure_t) : float :=
  CFloat.float_of_Z (Z.shiftr (reflectivity m) 8).

(** Steps 5 to 7: the corrected Cartesian coordinates, in single precision. *)
Definition cartesian (c : PandarLaserCorrection) (d cos_az sin_az : float)
    : float * float * float :=
  let d := (d + distanceCorrection c)%float in
  let xy := (d * cosVertCorrection c)%float in
  (CFloat.to_float (xy * sin_az - horizontalOffsetCorrection c * cos_az)%float,
   CFloat.to_float (xy * cos_az + horizontalOffsetCorrection c * sin_az)%float,
   CFloat.to_float (d * sinVertCorrection c + verticalOffsetCorrection c)%float).

(** Step 8: the origin sentinel. *)
Definition is_origin (xyz : float * float * float) : bool :=
  let '(X, Y, Z) := xyz in ((X =? 0) && (Y =? 0) && (Z =? 0))%float.

Definition some_nan (xyz : float * float * float) : bool :=
  let '(X, Y, Z) := xyz in CFloat.isnan X || CFloat.isnan Y || CFloat.isnan Z.

Definition coordinates (p : PPoint) : float * float * float := (x p, y p, z p).

(** Section 4.5: a point is skipped when a coordinate is NaN. *)
Definition has_nan_coordinate (p : PPoint) : bool := some_nan (coordinates p).

(** Run [f] over a list, left to right, stopping at the first fault. *)
Fixpoint collect {A B : Type} (f : A -> outcome B) (l : list A) : outcome (list B) :=
  match l with
  | [] => Done []
  | a :: l' => b <- f a ;; bs <- collect f l' ;; Done (b :: bs)
  end.

(** The points of [pts] that are kept, appended to the cloud; the width
    counts each of them. *)
Definition append_kept (pc : PPointCloud) (pts : list PPoint) : PPointCloud :=
  let kept := filter (fun p => negb (has_nan_coordinate p)) pts in
  {| points := points pc ++ kept;
     width := fold_left (fun w _ => CInt.to_uint32 (w + 1)) kept (width pc) |}.

Section ConverterSpec.

Variables BLOCKS_PER_PACKET LASER_COUNT : nat.
Context {libm : Libm}.

(** Block-major, then channel-minor. *)
Definition firing_order : list (nat * nat) :=
  flat_map (fun i => map (pair i) (seq 0 LASER_COUNT)) (seq 0 BLOCKS_PER_PACKET).

(** The corrected point of channel [j] of block [i], with its ring. *)
Definition corrected_point (this : RawData) (packet : raw_packet_t)
    (ij : nat * nat) : outcome PPoint :=
  let '(i, j) := ij in
  p <- computeXYZIR this uninitialized_point (azimuth (blocks packet i))
         (measures (blocks packet i) j)
         (laser_corrections (calibration_ this) j) ;;
  Done (set_ring p (Z.of_nat j)).

Definition convert (this : RawData) (packet : raw_packet_t) (pc : PPointCloud)
    : outcome PPointCloud :=
  pts <- collect (corrected_point this packet) firing_order ;;
  Done (append_kept pc pts).

End ConverterSpec.

(** ** What the conversion reads of the object

    Two objects that agree on the range window, on the calibration entries
    and on every read of the lookup tables. *)
Definition same_inputs (a b : RawData) : Prop :=
  min_range (config_ a) = min_range (config_ b)
  /\ max_range (config_ a) = max_range (config_ b)
  /\ (forall j, laser_corrections (calibration_ a) j
               = laser_corrections (calibration_ b) j)
  /\ (forall az, table_read (cos_lookup_table_ a) az
                = table_read (cos_lookup_table_ b) az)
  /\ (forall az, table_read (sin_lookup_table_ a) az
                = table_read (sin_lookup_table_ b) az).

(** The object with its tables in closed form. *)
Definition tabulated {libm : Libm} (cfg : Config) (cal : Calibration) : RawData :=
  {| config_ := cfg;
     calibration_ := cal;
     sin_lookup_table_ := fun i => sinf (rotation_of (Z.of_nat i));
     cos_lookup_table_ := fun i => cosf (rotation_of (Z.of_nat i)) |}.

(** The same object with the entries of azimuth 0 written out. *)
Definition tabulated_north {libm : Libm} (cfg : Config) (cal : Calibration)
    : RawData :=
  {| config_ := cfg;
     calibration_ := cal;
     sin_lookup_table_ := fun i =>
       match i with
       | O => 0%float
       | S _ => sinf (rotation_of (Z.of_nat i))
       end;
     cos_lookup_table_ := fun i =>
       match i with
       | O => 1%float
       | S _ => cosf (rotation_of (Z.of_nat i))
       end |}.

(** Every azimuth unit of a revolution: [n] consecutive units from [a]. *)
Fixpoint units_from (n : nat) (a : Z) : list Z :=
  match n with
  | O => []
  | S n' => a :: units_from n' (a + 1)
  end.

Definition azimuth_units : list Z :=
  units_from (Z.to_nat ROTATION_MAX_UNITS) 0.

(** The single-precision tolerance on a heading: 2^-20 rad, two units in the
    last place of a binary32 number between 4 and 8. *)
Definition heading_tolerance : Q := 1 # 1048576.

(** Rational bounds on pi, and the test that the single-precision heading of
    azimuth unit [a] is a finite number within the tolerance of
    [a * pi / 18000], which is a * 0.01 degrees in radians. *)
Definition PI_lo : Q := 3141592653 # 1000000000.
Definition PI_hi : Q := 3141592654 # 1000000000.

(** [a * PI_hi / 18000 - 2^-20] and [a * PI_lo / 18000 + 2^-20], over the
    common denominator 18000 * 10^9 * 2^20. *)
Definition heading_lower (a : Z) : Q :=
  Qmake (a * 3294198658760704 - 18000000000000) 18874368000000000000.
Definition heading_upper (a : Z) : Q :=
  Qmake (a * 3294198657712128 + 18000000000000) 18874368000000000000.

Definition heading_within (a : Z) : bool :=
  let r := rotation_of a in
  CFloat.finite r
  && Qle_bool (heading_lower a) (CFloat.to_Q r)
  && Qle_bool (CFloat.to_Q r) (heading_upper a).

(** A math library whose single-precision cosine and sine of the heading of
    azimuth unit [a] are finite and within [eps] of the cosine and the sine
    of that heading. *)
Definition accurate_at (libm : Libm) (eps : R) (a : Z) : Prop :=
  (CFloat.finite (cosf (rotation_of a)) = true
   /\ (Rabs (CFloat.to_R (cosf (rotation_of a))
             - Rtrigo_def.cos (CFloat.to_R (rotation_of a))) <= eps)%R)
  /\ (CFloat.finite (sinf (rotation_of a)) = true
      /\ (Rabs (CFloat.to_R (sinf (rotation_of a))
                - Rtrigo_def.sin (CFloat.to_R (rotation_of a))) <= eps)%R).

(** ** Enclosures of sine and cosine

    To test a math library against the real cosine and sine, the two are
    enclosed between fixed-point numbers: an [interval] holds a lower and an
    upper bound in units of 2^-40, and every operation rounds the lower bound
    down and the upper bound up.  The sine of a small angle lies between two
    consecutive partial sums of its alternating series, and the angle is
    doubled by [sin 2x = 2 sin x cos x] and [cos 2x = 1 - 2 sin^2 x]. *)
Module Fixed.

Definition bits : Z := 40.
Definition scale : Z := 1099511627776.

Record interval := mk_interval { lower : Z; upper : Z }.

Definition cdiv (a b : Z) : Z := - ((- a) / b).
Definition down (a : Z) : Z := Z.shiftr a bits.
Definition up (a : Z) : Z := - Z.shiftr (- a) bits.

Definition of_Q (q : Q) : interval :=
  {| lower := Qnum q * scale / Zpos (Qden q);
     upper := cdiv (Qnum q * scale) (Zpos (Qden q)) |}.

Definition add (I J : interval) : interval :=
  {| lower := lower I + lower J; upper := upper I + upper J |}.
Definition sub (I J : interval) : interval :=
  {| lower := lower I - upper J; upper := upper I - lower J |}.
Definition double (I : interval) : interval :=
  {| lower := 2 * lower I; upper := 2 * upper I |}.
Definition div_pos (I : interval) (d : Z) : interval :=
  {| lower := lower I / d; upper := cdiv (upper I) d |}.

(** The product of two intervals of non-negative numbers, and of an interval
    of non-negative numbers with any interval. *)
Definition mul_nonneg (I J : interval) : interval :=
  {| lower := down (lower I * lower J);
     upper := up (upper I * upper J) |}.
Definition mul_mixed (I J : interval) : interval :=
  {| lower := down ((if 0 <=? lower J then lower I else upper I) * lower J);
     upper := up ((if 0 <=? upper J then upper I else lower I) * upper J) |}.

Definition one : interval := {| lower := scale; upper := scale |}.

(** An enclosure of a non-negative number need not go below zero. *)
Definition clamp (I : interval) : interval :=
  {| lower := Z.max 0 (lower I); upper := upper I |}.

(** [cos 2x] from an enclosure of [sin x]. *)
Definition cos_of_half_sin (H : interval) : interval :=
  sub one (double (mul_nonneg H H)).

(** One more term of the sine series: the state holds the degree [k] of the
    last term, whether the next term is subtracted, the magnitude of the
    last term and the partial sum; [z] encloses the square of the angle. *)
Definition sin_step (z : interval) (st : Z * bool * interval * interval)
    : Z * bool * interval * interval :=
  let '(k, negative, T, acc) := st in
  let T' := div_pos (mul_nonneg T z) ((k + 1) * (k + 2)) in
  (k + 2, negb negative, T', if negative then sub acc T' else add acc T').

Fixpoint sin_series (n : nat) (z : interval)
    (st : Z * bool * interval * interval) : Z * bool * interval * interval :=
  match n with
  | O => st
  | S n' => sin_series n' z (sin_step z st)
  end.

(** The sine of an angle between 0 and pi: the partial sum through degree 15
    is below it, the one through degree 17 above. *)
Definition sin_small (A : interval) : interval :=
  let z := mul_nonneg A A in
  let st := sin_series 7 z (1, true, A, A) in
  clamp {| lower := lower (snd st); upper := upper (snd (sin_step z st)) |}.

(** Sine and cosine of an angle between 0 and 2 pi, from the sines of its
    eighth and of its quarter. *)
Definition sin_cos (X : interval) : interval * interval :=
  let s0 := sin_small (div_pos X 8) in
  let s1 := sin_small (div_pos X 4) in
  let c1 := cos_of_half_sin s0 in
  let s2 := clamp (double (mul_mixed s1 c1)) in
  let c2 := cos_of_half_sin s1 in
  (double (mul_mixed s2 c2), cos_of_half_sin s2).

(** Every number of [I] is within [tol] of every number of [J]. *)
Definition close (I J : interval) (tol : Z) : bool :=
  (upper I - lower J <=? tol) && (upper J - lower I <=? tol).

End Fixed.

(** [I] encloses the real number [x]. *)
Definition encloses (I : Fixed.interval) (x : R) : Prop :=
  (IZR (Fixed.lower I) <= x * IZR Fixed.scale <= IZR (Fixed.upper I))%R.

(** The magnitude of term [i] of the sine series of [a], and the state of
    [Fixed.sin_series] after [i] terms beyond the first. *)
Definition sin_magnitude (a : R) (i : nat) : R :=
  (a ^ (2 * i + 1) / INR (fact (2 * i + 1)))%R.

Definition series_state (a : R) (i : nat)
    (st : Z * bool * Fixed.interval * Fixed.interval) : Prop :=
  exists T acc,
    st = (2 * Z.of_nat i + 1, Nat.even i, T, acc)
    /\ 0 <= Fixed.lower T
    /\ encloses T (sin_magnitude a i)
    /\ encloses acc (sin_approx a i).

(** The single-precision tolerance on a cosine or a sine: 2^-24, half a unit
    in the last place of a binary32 number between 1/2 and 1. *)
Definition trig_tolerance : Q := 1 # 16777216.

(** The test that the math library is accurate to [trig_tolerance] at the
    heading of azimuth unit [a]: the heading lies between 0 and
    2 * 3.141592653, and [cosf] and [sinf] of it are finite and within the
    tolerance of the enclosures of its cosine and sine. *)
Definition heading_trig_within (libm : Libm) (a : Z) : bool :=
  let r := rotation_of a in
  let X := Fixed.of_Q (CFloat.to_Q r) in
  let tol := Fixed.lower (Fixed.of_Q trig_tolerance) in
  (0 <=? Fixed.lower X)
  && (Fixed.upper X * 1000000000 <=? 6283185306 * Fixed.scale)
  && CFloat.finite (cosf r) && CFloat.finite (sinf r)
  && Fixed.close (Fixed.of_Q (CFloat.to_Q (cosf r))) (snd (Fixed.sin_cos X)) tol
  && Fixed.close (Fixed.of_Q (CFloat.to_Q (sinf r))) (fst (Fixed.sin_cos X)) tol.

(** The azimuth units of the tenths of a degree. *)
Definition tenth_degrees : list Z := map (Z.mul 10) (units_from 3600 0).

(** A call [parseRawData (packet, buf, len)] is correctly sized when [len] is
    the length of the buffer, as an [int], and equals the wire size. *)
Definition correctly_sized (BLOCKS_PER_PACKET LASER_COUNT RESERVE_SIZE : nat)
    (buf : buffer) (len : Z) : Prop :=
  len = Z.of_nat (length buf)
  /\ len = PACKET_SIZE BLOCKS_PER_PACKET LASER_COUNT RESERVE_SIZE
  /\ len <= CInt.INT_MAX.

(** The offsets of the reserved region, between the last block and the
    revolution counter. *)
Definition reserved_offset (BLOCKS_PER_PACKET LASER_COUNT RESERVE_SIZE : nat)
    (off : Z) : Prop :=
  tail_offset BLOCKS_PER_PACKET LASER_COUNT RESERVE_SIZE - Z.of_nat RESERVE_SIZE
    <= off
  < tail_offset BLOCKS_PER_PACKET LASER_COUNT RESERVE_SIZE.

(** A return whose correction reads the lookup tables beyond their extent:
    its distance passes the range window, the channel has a zero
    [azimuthCorrection], and the block azimuth is no index of the tables. *)
Definition reads_beyond_tables (this : RawData) (azimuth : Z)
    (m : raw_measure_t) (c : PandarLaserCorrection) : Prop :=
  outside_window (config_ this) (distance_of m) = false
  /\ (azimuthCorrection c =? 0)%float = true
  /\ ~ 0 <= azimuth < ROTATION_MAX_UNITS.

(** A point that the converter may publish: no NaN coordinate, not the
    origin, and a ring that is a channel index. *)
Definition publishable (LASER_COUNT : nat) (p : PPoint) : Prop :=
  has_nan_coordinate p = false
  /\ is_origin (coordinates p) = false
  /\ 0 <= ring p < Z.of_nat LASER_COUNT.

(** The distance of a return of [r] range units is a number between 0 and
    200 m. *)
Definition distance_in_reach (r : Z) : bool :=
  let d := distance_of {| range := r; reflectivity := 0 |} in
  (negb (is_nan d) && (0 <=? d) && (d <=? 200))%float.

(** Every range that the parser lets through: 0 to 100000 units. *)
Definition range_units : list Z := units_from (Z.to_nat 100001) 0.

(** The offsets of the bytes that carry points: the azimuth and the
    measurements of each block. *)
Definition point_offset (BLOCKS_PER_PACKET LASER_COUNT : nat) (off : Z) : Prop :=
  exists i, (i < BLOCKS_PER_PACKET)%nat
    /\ block_offset LASER_COUNT i + 2 <= off
       < block_offset LASER_COUNT i + BLOCK_SIZE LASER_COUNT.

(** ** Test fixtures: the Pandar40 layout

    The comments of [parseRawData] give 6 blocks of 40 measures; with 8
    reserved bytes a packet is 1240 bytes long.  The encoder writes packets
    for the examples. *)
Module Pandar40.

Definition BLOCKS : nat := 6.
Definition LASERS : nat := 40.
Definition RESERVE : nat := 8.

Definition byte_of_Z (z : Z) : byte :=
  match Byte.of_N (Z.to_N (z mod 256)) with
  | Some b => b
  | None => x00
  end.

(** [n] bytes of [v], least significant first. *)
Fixpoint encode_le (n : nat) (v : Z) : list byte :=
  match n with
  | O => []
  | S n' => byte_of_Z v :: encode_le n' (v / 256)
  end.

Definition encode_measure (m : raw_measure_t) : list byte :=
  encode_le 3 (range m) ++ encode_le 2 (reflectivity m).

(** A block with the given marker and azimuth whose channels all carry [m],
    except channel [j], which carries [m']. *)
Definition encode_block (sob' azimuth' : Z) (m : raw_measure_t) (j : nat)
    (m' : raw_measure_t) : list byte :=
  encode_le 2 sob' ++ encode_le 2 azimuth'
  ++ flat_map (fun k => encode_measure (if Nat.eqb k j then m' else m))
       (seq 0 LASERS).

(** A packet of six equal blocks and the given tail fields. *)
Definition encode_packet (block : list byte) (revolution' timestamp' : Z)
    (factory0 factory1 : Z) : buffer :=
  flat_map (fun _ => block) (seq 0 BLOCKS)
  ++ repeat x00 RESERVE
  ++ encode_le 2 revolution' ++ encode_le 4 timestamp'
  ++ [byte_of_Z factory0; byte_of_Z factory1].

Definition blank_measure : raw_measure_t := {| range := 0; reflectivity := 0 |}.

Definition blank_packet : raw_packet_t :=
  {| blocks := fun _ => {| sob := 0; azimuth := 0; measures := fun _ => blank_measure |};
     revolution := 0; timestamp := 0; factory := fun _ => 0 |}.

(** A valid return at 50 m with reflectivity 0x1234. *)
Definition echo : raw_measure_t := {| range := 25000; reflectivity := 0x1234 |}.

(** The sentinel pair and an over-range return. *)
Definition sentinel : raw_measure_t := {| range := 0x010101; reflectivity := 0x0101 |}.
Definition over_range : raw_measure_t := {| range := 100001; reflectivity := 0x0200 |}.

(** Channel 5 of every block carries the sentinel pair. *)
Definition sentinel_buffer : buffer :=
  encode_packet (encode_block 0xEEFF 9000 echo 5 sentinel) 600 0x89ABCDEF 0x37 0x42.

(** Channel 7 of every block carries an over-range return. *)
Definition over_range_buffer : buffer :=
  encode_packet (encode_block 0xEEFF 9000 echo 7 over_range) 600 1000 0x37 0x42.

(** Every block reports azimuth 65535. *)
Definition wild_azimuth_buffer : buffer :=
  encode_packet (encode_block 0xEEFF 65535 echo 5 echo) 600 1000 0x37 0x42.

(** Channel 5 of every block carries the sentinel pair; the blocks report
    azimuth 0. *)
Definition north_buffer : buffer :=
  encode_packet (encode_block 0xEEFF 0 echo 5 sentinel) 600 1000 0x37 0x42.


(** What the stack may hold where [unpack] puts its packet: a block 0 whose
    channel 0 is a valid return at azimuth 0, zeros elsewhere. *)
Definition stale_packet : raw_packet_t :=
  set_block blank_packet 0
    {| sob := 0; azimuth := 0; measures := upd (fun _ => blank_measure) 0 echo |}.

(** Calibration entries: no correction at all (vertical angle 0); a
    distance correction of -1 m; offsets of 1/32 m and 1/16 m. *)
Definition plain_correction : PandarLaserCorrection :=
  {| azimuthCorrection := 0; distanceCorrection := 0;
     verticalOffsetCorrection := 0; horizontalOffsetCorrection := 0;
     cosVertCorrection := 1; sinVertCorrection := 0 |}.

Definition shortening_correction : PandarLaserCorrection :=
  {| azimuthCorrection := 0; distanceCorrection := -1;
     verticalOffsetCorrection := 0; horizontalOffsetCorrection := 0;
     cosVertCorrection := 1; sinVertCorrection := 0 |}.

Definition offset_correction : PandarLaserCorrection :=
  {| azimuthCorrection := 0; distanceCorrection := 0;
     verticalOffsetCorrection := 0.0625; horizontalOffsetCorrection := 0.03125;
     cosVertCorrection := 1; sinVertCorrection := 0 |}.

(** A calibration that gives every channel the entry [c]. *)
Definition calibration (c : PandarLaserCorrection) : Calibration :=
  {| initialized := true; num_lasers := 40; laser_corrections := fun _ => c |}.

(** The object as the constructor leaves it. *)
Definition fresh : RawData :=
  {| config_ := {| calibrationFile := ""; max_range := 0; min_range := 0;
                   min_angle := 0; max_angle := 0;
                   tmp_min_angle := 0; tmp_max_angle := 0 |};
     calibration_ := {| initialized := false; num_lasers := 0;
                        laser_corrections := fun _ => plain_correction |};
     sin_lookup_table_ := fun _ => 0%float;
     cos_lookup_table_ := fun _ => 0%float |}.

(** The configuration that [setupOffline] leaves in a fresh object. *)
Definition ready_config (min max : float) : Config :=
  {| calibrationFile := "Lidar-Correction-18.csv";
     max_range := max; min_range := min;
     min_angle := 0; max_angle := 0;
     tmp_min_angle := 0; tmp_max_angle := 0 |}.

(** The object after [setupOffline] with the calibration above and the range
    window [[min, max]]: for any math library, and for the Taylor one. *)
Definition ready_with {libm : Libm} (c : PandarLaserCorrection)
    (min max : float) : RawData :=
  snd (setupOffline fresh "Lidar-Correction-18.csv" max min
         (fun _ => calibration c)).

Definition ready (c : PandarLaserCorrection) (min max : float) : RawData :=
  ready_with (libm := Taylor.libm) c min max.

Definition empty_cloud : PPointCloud := {| points := []; width := 0 |}.

(** [sentinel_buffer] with the reserved bytes set and a byte appended. *)
Definition padded_buffer : buffer :=
  firstn 1224 sentinel_buffer ++ repeat xff RESERVE
  ++ skipn 1232 sentinel_buffer ++ [xff].

(** [sentinel_buffer] with another marker, revolution counter, timestamp and
    factory bytes. *)
Definition unmarked_buffer : buffer :=
  encode_packet (encode_block 0x1234 9000 echo 5 sentinel) 601 1000 0x01 0x02.

(** At offset [off], [sentinel_buffer] and [unmarked_buffer] hold the same
    byte, unless [off] is that of a marker (below the tail, a block has 204
    bytes). *)
Definition point_bytes_agree (off : Z) : bool :=
  (off mod 204 <? 2)
  || (byte_at sentinel_buffer off =? byte_at unmarked_buffer off).

End Pandar40.

(** * Proofs *)

(** ** Loops *)

Lemma for_loop_S {S : Type} (n : nat) (body : nat -> S -> S) (s : S) :
  for_loop (Datatypes.S n) body s = body n (for_loop n body s).
Proof.
  unfold for_loop. rewrite seq_S, fold_left_app. reflexivity.
Qed.

Lemma upd_same {A : Type} (a : nat -> A) (i : nat) (v : A) : upd a i v i = v.
Proof. unfold upd. now rewrite Nat.eqb_refl. Qed.

Lemma upd_other {A : Type} (a : nat -> A) (i k : nat) (v : A) :
  k <> i -> upd a i v k = a k.
Proof. intros Hk. unfold upd. now apply Nat.eqb_neq in Hk as ->. Qed.

(** ** Integer conversions *)

Lemma to_int_id (z : Z) :
  CInt.INT_MIN <= z <= CInt.INT_MAX -> CInt.to_int z = z.
Proof.
  unfold CInt.to_int, CInt.INT_MIN, CInt.INT_MAX. intros Hz.
  rewrite Z.mod_small by lia. lia.
Qed.

Lemma to_int_range (z : Z) : CInt.INT_MIN <= CInt.to_int z <= CInt.INT_MAX.
Proof.
  unfold CInt.to_int, CInt.INT_MIN, CInt.INT_MAX.
  pose proof (Z.mod_pos_bound (z + 2 ^ 31) (2 ^ 32) ltac:(lia)). lia.
Qed.

Lemma to_int_mod (z : Z) : CInt.to_int z mod 2 ^ 32 = z mod 2 ^ 32.
Proof.
  unfold CInt.to_int. rewrite Zminus_mod_idemp_l. f_equal. lia.
Qed.

Lemma byte_at_range (buf : buffer) (index : Z) : 0 <= byte_at buf index < 256.
Proof.
  unfold byte_at. destruct (index <? 0); [lia|].
  pose proof (Byte.to_N_bounded (nth (Z.to_nat index) buf x00)). lia.
Qed.

Lemma land_255 (b : Z) : 0 <= b < 256 -> Z.land b 255 = b.
Proof.
  intros Hb. change 255 with (Z.ones 8).
  rewrite Z.land_ones by lia. apply Z.mod_small. lia.
Qed.

(** Bytes placed at disjoint positions add up. *)
Lemma lor_shiftl_add (a b n : Z) :
  0 <= n -> 0 <= a < 2 ^ n -> Z.lor a (Z.shiftl b n) = a + b * 2 ^ n.
Proof.
  intros Hn Ha.
  assert (Hdisj : Z.land a (Z.shiftl b n) = 0).
  { apply Z.bits_inj'. intros k Hk. rewrite Z.land_spec, Z.bits_0.
    destruct (Z.lt_ge_cases k n) as [Hlt|Hge].
    - rewrite (Z.shiftl_spec_low b n k Hlt). apply andb_false_r.
    - destruct (Z.eq_dec a 0) as [->|Hnz]; [now rewrite Z.bits_0|].
      rewrite (Z.bits_above_log2 a k); [reflexivity|lia|].
      apply Z.log2_lt_pow2; [lia|]. apply Z.lt_le_trans with (2 ^ n); [lia|].
      apply Z.pow_le_mono_r; lia. }
  rewrite <- Z.lxor_lor by exact Hdisj.
  rewrite <- Z.add_nocarry_lxor by exact Hdisj.
  now rewrite Z.shiftl_mul_pow2.
Qed.

(** ** Decoding little-endian fields *)

Section Decode.

Variables b0 b1 b2 b3 : Z.
Hypothesis Hb0 : 0 <= b0 < 256.
Hypothesis Hb1 : 0 <= b1 < 256.
Hypothesis Hb2 : 0 <= b2 < 256.
Hypothesis Hb3 : 0 <= b3 < 256.

Lemma shl_byte_8 : CInt.shl (Z.land b1 255) 8 = Z.shiftl b1 8.
Proof using Hb1.
  unfold CInt.shl. rewrite land_255 by assumption.
  apply to_int_id. rewrite Z.shiftl_mul_pow2 by lia.
  unfold CInt.INT_MIN, CInt.INT_MAX. lia.
Qed.

Lemma shl_byte_16 : CInt.shl (Z.land b2 255) 16 = Z.shiftl b2 16.
Proof using Hb2.
  unfold CInt.shl. rewrite land_255 by assumption.
  apply to_int_id. rewrite Z.shiftl_mul_pow2 by lia.
  unfold CInt.INT_MIN, CInt.INT_MAX. lia.
Qed.

Lemma decode_le16 :
  CInt.to_uint16 (Z.lor (Z.land b0 255) (CInt.shl (Z.land b1 255) 8))
  = b0 + 256 * b1.
Proof using Hb0 Hb1.
  rewrite shl_byte_8, land_255 by assumption.
  rewrite lor_shiftl_add by lia.
  unfold CInt.to_uint16. rewrite Z.mod_small; lia.
Qed.

Lemma lor_le24 :
  Z.lor (Z.lor (Z.land b0 255) (CInt.shl (Z.land b1 255) 8))
        (CInt.shl (Z.land b2 255) 16)
  = b0 + 256 * (b1 + 256 * b2).
Proof using Hb0 Hb1 Hb2.
  rewrite shl_byte_8, shl_byte_16, land_255 by assumption.
  rewrite (lor_shiftl_add b0 b1 8) by lia.
  rewrite lor_shiftl_add by lia. lia.
Qed.

Lemma decode_le24 :
  CInt.to_uint32
    (Z.lor (Z.lor (Z.land b0 255) (CInt.shl (Z.land b1 255) 8))
           (CInt.shl (Z.land b2 255) 16))
  = b0 + 256 * (b1 + 256 * b2).
Proof using Hb0 Hb1 Hb2.
  rewrite lor_le24. unfold CInt.to_uint32. rewrite Z.mod_small; lia.
Qed.

(** The top byte is shifted into the sign bit of the [int]; the conversion to
    the unsigned 32-bit field undoes the wrap. *)
Lemma decode_le32 :
  CInt.to_uint32
    (Z.lor (Z.lor (Z.lor (Z.land b0 255) (CInt.shl (Z.land b1 255) 8))
                  (CInt.shl (Z.land b2 255) 16))
           (CInt.shl (Z.land b3 255) 24))
  = b0 + 256 * (b1 + 256 * (b2 + 256 * b3)).
Proof using Hb0 Hb1 Hb2 Hb3.
  rewrite lor_le24. unfold CInt.to_uint32, CInt.shl.
  rewrite (land_255 b3) by assumption.
  rewrite <- !(Z.land_ones _ 32) by lia.
  rewrite Z.land_lor_distr_l.
  rewrite !Z.land_ones by lia.
  rewrite to_int_mod.
  rewrite Z.shiftl_mul_pow2 by lia.
  rewrite !Z.mod_small by lia.
  rewrite <- Z.shiftl_mul_pow2 by lia.
  rewrite lor_shiftl_add by lia. lia.
Qed.

End Decode.

Lemma le_uint_1 (buf : buffer) (off : Z) : le_uint buf off 1 = byte_at buf off.
Proof. cbn [le_uint]. lia. Qed.

Lemma le_uint_2 (buf : buffer) (off : Z) :
  le_uint buf off 2 = byte_at buf off + 256 * byte_at buf (off + 1).
Proof. cbn [le_uint]. lia. Qed.

Lemma le_uint_3 (buf : buffer) (off : Z) :
  le_uint buf off 3
  = byte_at buf off + 256 * (byte_at buf (off + 1) + 256 * byte_at buf (off + 2)).
Proof.
  cbn [le_uint]. replace (off + 1 + 1) with (off + 2) by lia. lia.
Qed.

Lemma le_uint_4 (buf : buffer) (off : Z) :
  le_uint buf off 4
  = byte_at buf off + 256 * (byte_at buf (off + 1)
      + 256 * (byte_at buf (off + 2) + 256 * byte_at buf (off + 3))).
Proof.
  cbn [le_uint]. replace (off + 1 + 1) with (off + 2) by lia.
  replace (off + 2 + 1) with (off + 3) by lia. lia.
Qed.

Lemma le_uint_bound (buf : buffer) (n : nat) (off : Z) :
  0 <= le_uint buf off n < 256 ^ Z.of_nat n.
Proof.
  revert off. induction n as [|n IH]; intros off.
  - cbn. lia.
  - cbn [le_uint]. rewrite Nat2Z.inj_succ, Z.pow_succ_r by lia.
    pose proof (byte_at_range buf off). specialize (IH (off + 1)). lia.
Qed.

(** ** [parseRawData] decodes the wire format *)

Lemma int_add_id (index k : Z) :
  0 <= index -> 0 <= k -> index + k <= CInt.INT_MAX ->
  CInt.add index k = index + k.
Proof.
  intros Hi Hk Hmax. unfold CInt.add. apply to_int_id.
  unfold CInt.INT_MIN, CInt.INT_MAX in *. lia.
Qed.

Section ParseProofs.

Variables BLOCKS_PER_PACKET LASER_COUNT RESERVE_SIZE : nat.
Variable buf : buffer.

Local Abbreviation BS := (BLOCK_SIZE LASER_COUNT).

Lemma parse_measure_step_spec (j : nat) (index : Z) (block : raw_block_t) :
  0 <= index -> index + 5 <= CInt.INT_MAX ->
  parse_measure_step buf j (index, block)
  = (index + 5,
     set_measure block j
       (filter_measure {| range := le_uint buf index 3;
                          reflectivity := le_uint buf (index + 3) 2 |})).
Proof.
  intros Hi Hmax. unfold parse_measure_step.
  rewrite !int_add_id by (unfold RAW_MEASURE_SIZE; lia).
  rewrite decode_le24, decode_le16 by apply byte_at_range.
  rewrite le_uint_3, le_uint_2.
  replace (index + 3 + 1) with (index + 4) by lia.
  unfold filter_measure, invalid_returnb, zeroed_measure, RAW_MEASURE_SIZE.
  cbn [range reflectivity set_range set_reflectivity].
  change (200 * 1000 / 2) with 100000.
  now destruct (_ || _).
Qed.

(** The loop over the channels of one block, run for [n] channels. *)
Lemma parse_measures_spec (n : nat) (index : Z) (block : raw_block_t) :
  0 <= index -> index + 5 * Z.of_nat n <= CInt.INT_MAX ->
  exists block',
    for_loop n (parse_measure_step buf) (index, block)
    = (index + 5 * Z.of_nat n, block')
    /\ sob block' = sob block
    /\ azimuth block' = azimuth block
    /\ (forall j, (j < n)%nat ->
          measures block' j
          = filter_measure
              {| range := le_uint buf (index + 5 * Z.of_nat j) 3;
                 reflectivity := le_uint buf (index + 5 * Z.of_nat j + 3) 2 |})
    /\ (forall j, (n <= j)%nat -> measures block' j = measures block j).
Proof.
  intros Hi. induction n as [|n IH]; intros Hmax.
  - exists block. cbn [for_loop seq fold_left].
    repeat split; try reflexivity.
    + f_equal. lia.
    + intros j Hj. lia.
  - destruct IH as (b & Hloop & Hsob & Haz & Hlt & Hge); [lia|].
    rewrite for_loop_S, Hloop, parse_measure_step_spec by lia.
    eexists. split; [f_equal; lia|].
    cbn [sob azimuth measures set_measure].
    repeat split; try assumption.
    + intros j Hj. destruct (Nat.eq_dec j n) as [->|Hne].
      * now rewrite upd_same.
      * rewrite upd_other by assumption. apply Hlt. lia.
    + intros j Hj. rewrite upd_other by lia. apply Hge. lia.
Qed.

Lemma parse_block_step_spec (i : nat) (index : Z) (packet : raw_packet_t) :
  0 <= index -> index + BS <= CInt.INT_MAX ->
  exists block',
    parse_block_step LASER_COUNT buf i (index, packet)
    = (index + BS, set_block packet i block')
    /\ sob block' = le_uint buf index 2
    /\ azimuth block' = le_uint buf (index + 2) 2
    /\ (forall j, (j < LASER_COUNT)%nat ->
          measures block' j
          = filter_measure
              {| range := le_uint buf (index + 4 + 5 * Z.of_nat j) 3;
                 reflectivity := le_uint buf (index + 4 + 5 * Z.of_nat j + 3) 2 |}).
Proof.
  unfold BLOCK_SIZE, RAW_MEASURE_SIZE, SOB_ANGLE_SIZE.
  intros Hi Hmax. unfold parse_block_step.
  rewrite !int_add_id by (unfold SOB_ANGLE_SIZE; lia).
  rewrite !decode_le16 by apply byte_at_range.
  unfold SOB_ANGLE_SIZE.
  match goal with
  | |- context [for_loop _ _ (?idx, ?b)] =>
      destruct (parse_measures_spec LASER_COUNT idx b)
        as (b' & Hloop & Hsob & Haz & Hlt & _); [lia|lia|]
  end.
  rewrite Hloop. exists b'. split; [f_equal; lia|].
  rewrite Hsob, Haz. cbn [sob azimuth set_sob set_azimuth].
  rewrite !le_uint_2. replace (index + 2 + 1) with (index + 3) by lia.
  repeat split; try reflexivity. exact Hlt.
Qed.

(** The loop over the blocks, run for [n] blocks. *)
Lemma parse_blocks_spec (n : nat) (packet : raw_packet_t) :
  Z.of_nat n * BS <= CInt.INT_MAX ->
  exists packet',
    for_loop n (parse_block_step LASER_COUNT buf) (0, packet)
    = (Z.of_nat n * BS, packet')
    /\ revolution packet' = revolution packet
    /\ timestamp packet' = timestamp packet
    /\ factory packet' = factory packet
    /\ (forall i, (i < n)%nat ->
          sob (blocks packet' i) = le_uint buf (block_offset LASER_COUNT i) 2
          /\ azimuth (blocks packet' i)
             = le_uint buf (block_offset LASER_COUNT i + 2) 2
          /\ forall j, (j < LASER_COUNT)%nat ->
               measures (blocks packet' i) j
               = filter_measure (wire_measure LASER_COUNT buf i j))
    /\ (forall i, (n <= i)%nat -> blocks packet' i = blocks packet i).
Proof.
  assert (HBS : 0 <= BS)
    by (unfold BLOCK_SIZE, RAW_MEASURE_SIZE, SOB_ANGLE_SIZE; lia).
  induction n as [|n IH]; intros Hmax.
  - exists packet. cbn [for_loop seq fold_left].
    repeat split; try reflexivity; intros; lia.
  - rewrite Nat2Z.inj_succ in Hmax.
    destruct IH as (p & Hloop & Hrev & Hts & Hfac & Hlt & Hge); [lia|].
    rewrite for_loop_S, Hloop.
    destruct (parse_block_step_spec n (Z.of_nat n * BS) p)
      as (b & Hstep & Hsob & Haz & Hms); [lia|lia|].
    rewrite Hstep. eexists. split; [f_equal; lia|].
    cbn [revolution timestamp factory blocks set_block].
    repeat split; try assumption.
    + destruct (Nat.eq_dec i n) as [->|Hne].
      * rewrite upd_same. exact Hsob.
      * rewrite upd_other by assumption. apply Hlt. lia.
    + destruct (Nat.eq_dec i n) as [->|Hne].
      * rewrite upd_same. exact Haz.
      * rewrite upd_other by assumption. apply Hlt. lia.
    + intros j Hj. destruct (Nat.eq_dec i n) as [->|Hne].
      * rewrite upd_same, Hms by assumption. reflexivity.
      * rewrite upd_other by assumption. apply Hlt; lia.
    + intros i Hi. rewrite upd_other by lia. apply Hge. lia.
Qed.

End ParseProofs.

Section ParseTheorems.

Variables BLOCKS_PER_PACKET LASER_COUNT RESERVE_SIZE : nat.

Local Abbreviation parse :=
  (parseRawData BLOCKS_PER_PACKET LASER_COUNT RESERVE_SIZE).
Local Abbreviation tail :=
  (tail_offset BLOCKS_PER_PACKET LASER_COUNT RESERVE_SIZE).

Lemma parseRawData_size_mismatch (packet : raw_packet_t) (buf : buffer) (len : Z) :
  len <> PACKET_SIZE BLOCKS_PER_PACKET LASER_COUNT RESERVE_SIZE ->
  parse packet buf len = (-1, packet).
Proof.
  intros Hlen. unfold parseRawData.
  apply Z.eqb_neq in Hlen. now rewrite Hlen.
Qed.

(** What a correctly sized call leaves in the packet. *)
Lemma parseRawData_decodes (packet : raw_packet_t) (buf : buffer) (len : Z) :
  len = PACKET_SIZE BLOCKS_PER_PACKET LASER_COUNT RESERVE_SIZE ->
  len <= CInt.INT_MAX ->
  exists packet',
    parse packet buf len = (0, packet')
    /\ (forall i, (i < BLOCKS_PER_PACKET)%nat ->
          sob (blocks packet' i) = le_uint buf (block_offset LASER_COUNT i) 2
          /\ azimuth (blocks packet' i)
             = le_uint buf (block_offset LASER_COUNT i + 2) 2
          /\ forall j, (j < LASER_COUNT)%nat ->
               measures (blocks packet' i) j
               = filter_measure (wire_measure LASER_COUNT buf i j))
    /\ revolution packet' = le_uint buf tail 2
    /\ timestamp packet' = le_uint buf (tail + 2) 4
    /\ factory packet' 0%nat = le_uint buf (tail + 6) 1
    /\ factory packet' 1%nat = le_uint buf (tail + 7) 1.
Proof.
  intros Hlen Hmax. unfold parseRawData.
  rewrite Hlen, Z.eqb_refl. cbn [negb].
  rewrite Hlen in Hmax. clear Hlen.
  unfold PACKET_SIZE, INFO_SIZE, TIMESTAMP_SIZE, FACTORY_ID_SIZE,
    REVOLUTION_SIZE in *.
  assert (HBS : 0 <= BLOCK_SIZE LASER_COUNT)
    by (unfold BLOCK_SIZE, RAW_MEASURE_SIZE, SOB_ANGLE_SIZE; lia).
  assert (Hblocks : 0 <= BLOCK_SIZE LASER_COUNT * Z.of_nat BLOCKS_PER_PACKET)
    by (apply Z.mul_nonneg_nonneg; lia).
  destruct (parse_blocks_spec LASER_COUNT buf BLOCKS_PER_PACKET packet)
    as (p & Hloop & Hrev & Hts & Hfac & Hlt & _); [lia|].
  rewrite Hloop.
  rewrite !int_add_id by lia.
  rewrite decode_le16, decode_le32 by apply byte_at_range.
  rewrite !land_255 by apply byte_at_range.
  unfold CInt.to_uint8.
  rewrite !Z.mod_small by apply byte_at_range.
  eexists. split; [reflexivity|].
  cbn [blocks revolution timestamp factory set_revolution set_timestamp set_factory].
  rewrite upd_same, upd_other, upd_same by discriminate.
  rewrite le_uint_2, le_uint_4, !le_uint_1. unfold tail_offset.
  repeat split; try apply Hlt; try assumption;
    repeat (f_equal; try lia).
Qed.

Lemma invalid_returnb_true (m : raw_measure_t) :
  invalid_return m -> invalid_returnb m = true.
Proof.
  unfold invalid_return, invalid_returnb.
  intros [[Hr Hf]|Hr].
  - rewrite Hr, Hf. reflexivity.
  - apply orb_true_iff. right. now apply Z.gtb_lt, Z.gt_lt.
Qed.

Lemma invalid_returnb_false (m : raw_measure_t) :
  ~ invalid_return m -> invalid_returnb m = false.
Proof.
  unfold invalid_return, invalid_returnb. intros Hn.
  apply orb_false_iff. split.
  - apply andb_false_iff.
    destruct (Z.eqb_spec (range m) 0x010101) as [Hr|Hr]; [|now left].
    destruct (Z.eqb_spec (reflectivity m) 0x0101) as [Hf|Hf]; [|now right].
    exfalso. apply Hn. now left.
  - destruct (Z.gtb_spec (range m) 100000) as [Hr|Hr]; [|reflexivity].
    exfalso. apply Hn. right. lia.
Qed.

(** C6: for every buffer of the correct wire size, [parseRawData] succeeds
    and the packet holds the fields in wire order, every multi-byte field
    little-endian: block [i] starts at [i * BLOCK_SIZE] with a 2-byte
    start-of-block marker and a 2-byte azimuth, followed per channel [j] by a
    3-byte range and a 2-byte reflectivity (stored after the invalid-return
    filter); after the blocks and the reserved region come the 2-byte
    revolution counter, the 4-byte timestamp and the 2 factory bytes, which
    end exactly at the end of the buffer. *)
Theorem parseRawData_reads_wire_format
    (packet : raw_packet_t) (buf : buffer) (len : Z) :
  correctly_sized BLOCKS_PER_PACKET LASER_COUNT RESERVE_SIZE buf len ->
  exists packet',
    parse packet buf len = (0, packet')
    /\ (forall i, (i < BLOCKS_PER_PACKET)%nat ->
          sob (blocks packet' i) = le_uint buf (block_offset LASER_COUNT i) 2
          /\ azimuth (blocks packet' i)
             = le_uint buf (block_offset LASER_COUNT i + 2) 2
          /\ forall j, (j < LASER_COUNT)%nat ->
               measures (blocks packet' i) j
               = filter_measure (wire_measure LASER_COUNT buf i j))
    /\ revolution packet' = le_uint buf tail 2
    /\ timestamp packet' = le_uint buf (tail + 2) 4
    /\ factory packet' 0%nat = byte_at buf (tail + 6)
    /\ factory packet' 1%nat = byte_at buf (tail + 7)
    /\ tail + 8 = Z.of_nat (length buf).
Proof.
  intros (Hbuf & Hlen & Hmax).
  destruct (parseRawData_decodes packet buf len Hlen Hmax)
    as (p & Hparse & Hblocks & Hrev & Hts & Hf0 & Hf1).
  exists p. rewrite le_uint_1 in Hf0, Hf1.
  repeat split; try assumption; try (now apply Hblocks).
  rewrite <- Hbuf, Hlen.
  unfold tail_offset, PACKET_SIZE, INFO_SIZE, TIMESTAMP_SIZE, FACTORY_ID_SIZE,
    REVOLUTION_SIZE. lia.
Qed.

(** C3: for every correctly sized buffer and every measurement position, a
    measurement that is on the wire as the sentinel pair (0x010101, 0x0101),
    or whose range on the wire exceeds 100000 units, has range 0 and
    reflectivity 0 in the parsed packet. *)
Theorem parseRawData_zeroes_invalid_returns
    (packet : raw_packet_t) (buf : buffer) (len : Z) (i j : nat) :
  correctly_sized BLOCKS_PER_PACKET LASER_COUNT RESERVE_SIZE buf len ->
  (i < BLOCKS_PER_PACKET)%nat -> (j < LASER_COUNT)%nat ->
  invalid_return (wire_measure LASER_COUNT buf i j) ->
  range (measures (blocks (snd (parse packet buf len)) i) j) = 0
  /\ reflectivity (measures (blocks (snd (parse packet buf len)) i) j) = 0.
Proof.
  intros (Hbuf & Hlen & Hmax) Hi Hj Hinv.
  destruct (parseRawData_decodes packet buf len Hlen Hmax)
    as (p & Hparse & Hblocks & _).
  rewrite Hparse. cbn [snd].
  destruct (Hblocks i Hi) as (_ & _ & Hms).
  rewrite (Hms j Hj). unfold filter_measure.
  rewrite (invalid_returnb_true _ Hinv). split; reflexivity.
Qed.

End ParseTheorems.

Lemma pandar40_sentinel_buffer_sized :
  correctly_sized Pandar40.BLOCKS Pandar40.LASERS Pandar40.RESERVE
    Pandar40.sentinel_buffer 1240.
Proof.
  repeat split; try (vm_compute; reflexivity).
  unfold CInt.INT_MAX. lia.
Qed.

Lemma parseRawData_reads_wire_format_witness :
  exists packet',
    parseRawData Pandar40.BLOCKS Pandar40.LASERS Pandar40.RESERVE
      Pandar40.blank_packet Pandar40.sentinel_buffer 1240 = (0, packet')
    /\ sob (blocks packet' 3%nat) = 0xEEFF
    /\ azimuth (blocks packet' 3%nat) = 9000
    /\ measures (blocks packet' 3%nat) 7%nat = Pandar40.echo
    /\ revolution packet' = 600
    /\ timestamp packet' = 0x89ABCDEF
    /\ factory packet' 0%nat = 0x37
    /\ factory packet' 1%nat = 0x42.
Proof.
  destruct (parseRawData_reads_wire_format Pandar40.BLOCKS Pandar40.LASERS
              Pandar40.RESERVE Pandar40.blank_packet Pandar40.sentinel_buffer
              1240 pandar40_sentinel_buffer_sized)
    as (p & Hparse & Hblocks & Hrev & Hts & Hf0 & Hf1 & _).
  exists p. split; [exact Hparse|].
  destruct (Hblocks 3%nat) as (Hsob & Haz & Hms); [unfold Pandar40.BLOCKS; lia|].
  rewrite Hsob, Haz, Hms, Hrev, Hts, Hf0, Hf1 by (unfold Pandar40.LASERS; lia).
  repeat split; vm_compute; reflexivity.
Defined.

Lemma parseRawData_zeroes_invalid_returns_witness :
  range (measures (blocks (snd
    (parseRawData Pandar40.BLOCKS Pandar40.LASERS Pandar40.RESERVE
       Pandar40.blank_packet Pandar40.sentinel_buffer 1240)) 2%nat) 5%nat) = 0
  /\ reflectivity (measures (blocks (snd
    (parseRawData Pandar40.BLOCKS Pandar40.LASERS Pandar40.RESERVE
       Pandar40.blank_packet Pandar40.sentinel_buffer 1240)) 2%nat) 5%nat) = 0.
Proof.
  apply (parseRawData_zeroes_invalid_returns Pandar40.BLOCKS Pandar40.LASERS
           Pandar40.RESERVE Pandar40.blank_packet Pandar40.sentinel_buffer
           1240 2%nat 5%nat pandar40_sentinel_buffer_sized).
  - unfold Pandar40.BLOCKS. lia.
  - unfold Pandar40.LASERS. lia.
  - left. split; vm_compute; reflexivity.
Defined.

(** An over-range return is zeroed as well, and a valid one is kept. *)
Example over_range_return_zeroed :
  wire_measure Pandar40.LASERS Pandar40.over_range_buffer 4 7
  = Pandar40.over_range
  /\ measures (blocks (snd
        (parseRawData Pandar40.BLOCKS Pandar40.LASERS Pandar40.RESERVE
           Pandar40.blank_packet Pandar40.over_range_buffer 1240)) 4%nat) 7%nat
     = zeroed_measure
  /\ measures (blocks (snd
        (parseRawData Pandar40.BLOCKS Pandar40.LASERS Pandar40.RESERVE
           Pandar40.blank_packet Pandar40.over_range_buffer 1240)) 4%nat) 8%nat
     = Pandar40.echo.
Proof. repeat split; vm_compute; reflexivity. Qed.

(** ** The point corrector *)

Lemma isnan_quiet_NaN : CFloat.isnan quiet_NaN = true.
Proof. reflexivity. Qed.

Lemma distance_of_zeroed : distance_of zeroed_measure = 0%float.
Proof. vm_compute. reflexivity. Qed.

Lemma table_read_in_bounds (table : nat -> float) (index : Z) :
  0 <= index < ROTATION_MAX_UNITS ->
  table_read table index = Done (table (Z.to_nat index)).
Proof.
  intros Hidx. unfold table_read.
  destruct (Z.leb_spec 0 index); [|lia].
  destruct (Z.ltb_spec index ROTATION_MAX_UNITS); [reflexivity|lia].
Qed.

Lemma table_read_out_of_bounds (table : nat -> float) (index : Z) :
  ~ 0 <= index < ROTATION_MAX_UNITS ->
  table_read table index = OutOfBounds index.
Proof.
  intros Hidx. unfold table_read.
  destruct (Z.leb_spec 0 index); [|reflexivity].
  destruct (Z.ltb_spec index ROTATION_MAX_UNITS); [lia|reflexivity].
Qed.

Section CorrectorProofs.

Context {libm : Libm}.

(** [computeXYZIR] in terms of the steps of section 4.4. *)
Lemma computeXYZIR_steps (this : RawData) (point : PPoint) (azimuth : Z)
    (m : raw_measure_t) (c : PandarLaserCorrection) :
  computeXYZIR this point azimuth m c
  = if outside_window (config_ this) (distance_of m)
    then Done {| x := quiet_NaN; y := quiet_NaN; z := quiet_NaN;
                 intensity := high_byte m; ring := ring point |}
    else
      trig <- azimuth_trig this azimuth c ;;
      let xyz := cartesian c (distance_of m) (fst trig) (snd trig) in
      if is_origin xyz
      then Done {| x := quiet_NaN; y := quiet_NaN; z := quiet_NaN;
                   intensity := high_byte m; ring := ring point |}
      else Done {| x := fst (fst xyz); y := snd (fst xyz); z := snd xyz;
                   intensity := high_byte m; ring := ring point |}.
Proof.
  unfold computeXYZIR, outside_window, distance_of, high_byte.
  destruct (_ || _); [reflexivity|].
  destruct (azimuth_trig this azimuth c) as [[cos_az sin_az]|idx];
    [|reflexivity].
  cbn [bind fst snd cartesian is_origin].
  cbn [x y z set_x set_y set_z set_intensity ring intensity].
  destruct (_ && _); reflexivity.
Qed.

(** Outside the range window the tables are not consulted. *)
Lemma computeXYZIR_outside (this : RawData) (point : PPoint) (azimuth : Z)
    (m : raw_measure_t) (c : PandarLaserCorrection) :
  outside_window (config_ this) (distance_of m) = true ->
  computeXYZIR this point azimuth m c
  = Done {| x := quiet_NaN; y := quiet_NaN; z := quiet_NaN;
            intensity := high_byte m; ring := ring point |}.
Proof. intros Hout. now rewrite computeXYZIR_steps, Hout. Qed.

Lemma computeXYZIR_inside (this : RawData) (point : PPoint) (azimuth : Z)
    (m : raw_measure_t) (c : PandarLaserCorrection) (cos_az sin_az : float) :
  outside_window (config_ this) (distance_of m) = false ->
  azimuth_trig this azimuth c = Done (cos_az, sin_az) ->
  computeXYZIR this point azimuth m c
  = let xyz := cartesian c (distance_of m) cos_az sin_az in
    if is_origin xyz
    then Done {| x := quiet_NaN; y := quiet_NaN; z := quiet_NaN;
                 intensity := high_byte m; ring := ring point |}
    else Done {| x := fst (fst xyz); y := snd (fst xyz); z := snd xyz;
                 intensity := high_byte m; ring := ring point |}.
Proof.
  intros Hin Htrig. rewrite computeXYZIR_steps, Hin, Htrig. reflexivity.
Qed.

(** A point that is skipped leaves the cloud as it is. *)
Lemma toPointClouds_step_skips (this : RawData) (firing_data : raw_block_t)
    (j : nat) (pc : PPointCloud) (p : PPoint) :
  computeXYZIR this uninitialized_point (azimuth firing_data)
    (measures firing_data j) (laser_corrections (calibration_ this) j) = Done p ->
  has_nan_coordinate p = true ->
  toPointClouds_step this firing_data j pc = Done pc.
Proof.
  intros Hp Hnan. unfold toPointClouds_step. rewrite Hp. cbn [bind].
  unfold has_nan_coordinate, some_nan, coordinates in Hnan. now rewrite Hnan.
Qed.

Lemma toPointClouds_step_appends (this : RawData) (firing_data : raw_block_t)
    (j : nat) (pc : PPointCloud) (p : PPoint) :
  computeXYZIR this uninitialized_point (azimuth firing_data)
    (measures firing_data j) (laser_corrections (calibration_ this) j) = Done p ->
  has_nan_coordinate p = false ->
  toPointClouds_step this firing_data j pc
  = Done {| points := points pc ++ [set_ring p (Z.of_nat j)];
            width := CInt.to_uint32 (width pc + 1) |}.
Proof.
  intros Hp Hnan. unfold toPointClouds_step. rewrite Hp. cbn [bind].
  unfold has_nan_coordinate, some_nan, coordinates in Hnan.
  rewrite Hnan. reflexivity.
Qed.

End CorrectorProofs.

(** ** The converter *)

Lemma bind_assoc {A B C : Type} (m : outcome A) (f : A -> outcome B)
    (g : B -> outcome C) :
  bind (bind m f) g = bind m (fun a => bind (f a) g).
Proof. now destruct m. Qed.

Lemma bind_ext {A B : Type} (m : outcome A) (f g : A -> outcome B) :
  (forall a, f a = g a) -> bind m f = bind m g.
Proof. intros Hfg. destruct m; [apply Hfg|reflexivity]. Qed.

Lemma for_loopM_S {S : Type} (n : nat) (body : nat -> S -> outcome S) (s : S) :
  for_loopM (Datatypes.S n) body s = bind (for_loopM n body s) (body n).
Proof.
  unfold for_loopM. rewrite seq_S, fold_left_app. reflexivity.
Qed.

Lemma for_loopM_ext {S : Type} (n : nat) (f g : nat -> S -> outcome S) (s : S) :
  (forall i s', f i s' = g i s') -> for_loopM n f s = for_loopM n g s.
Proof.
  intros Hfg. induction n as [|n IH]; [reflexivity|].
  rewrite !for_loopM_S, IH. apply bind_ext. apply Hfg.
Qed.

Lemma collect_app {A B : Type} (f : A -> outcome B) (l1 l2 : list A) :
  collect f (l1 ++ l2)
  = bind (collect f l1) (fun a => bind (collect f l2) (fun b => Done (a ++ b))).
Proof.
  induction l1 as [|a l1 IH]; cbn [collect app].
  - cbn [bind]. now destruct (collect f l2).
  - rewrite IH. destruct (f a); [|reflexivity]. cbn [bind].
    destruct (collect f l1); [|reflexivity]. cbn [bind].
    now destruct (collect f l2).
Qed.

Lemma collect_map {A B C : Type} (g : A -> B) (f : B -> outcome C) (l : list A) :
  collect f (map g l) = collect (fun a => f (g a)) l.
Proof.
  induction l as [|a l IH]; [reflexivity|].
  cbn [map collect]. now rewrite IH.
Qed.

Lemma has_nan_coordinate_set_ring (p : PPoint) (r : Z) :
  has_nan_coordinate (set_ring p r) = has_nan_coordinate p.
Proof. reflexivity. Qed.

Lemma append_kept_nil (pc : PPointCloud) : append_kept pc [] = pc.
Proof.
  unfold append_kept. cbn [filter fold_left]. rewrite app_nil_r. now destruct pc.
Qed.

Lemma append_kept_app (pc : PPointCloud) (pts1 pts2 : list PPoint) :
  append_kept (append_kept pc pts1) pts2 = append_kept pc (pts1 ++ pts2).
Proof.
  unfold append_kept. cbn [points width].
  now rewrite filter_app, fold_left_app, app_assoc.
Qed.

Section ConverterProofs.

Variables BLOCKS_PER_PACKET LASER_COUNT : nat.
Context {libm : Libm}.
Variable this : RawData.

(** One pass of the body of the channel loop. *)
Lemma toPointClouds_step_convert (packet : raw_packet_t) (i j : nat)
    (pc : PPointCloud) :
  toPointClouds_step this (blocks packet i) j pc
  = bind (corrected_point this packet (i, j))
         (fun p => Done (append_kept pc [p])).
Proof.
  unfold toPointClouds_step, corrected_point. rewrite bind_assoc.
  apply bind_ext. intros p. cbn [bind]. unfold append_kept.
  cbn [filter]. rewrite has_nan_coordinate_set_ring.
  change (CFloat.isnan (x p) || CFloat.isnan (y p) || CFloat.isnan (z p))
    with (has_nan_coordinate p).
  destruct (has_nan_coordinate p); cbn [negb fold_left].
  - rewrite app_nil_r. now destruct pc.
  - reflexivity.
Qed.

(** The channel loop over the first [n] channels of block [i]. *)
Lemma channel_loop_convert (packet : raw_packet_t) (i n : nat) (pc : PPointCloud) :
  for_loopM n (toPointClouds_step this (blocks packet i)) pc
  = bind (collect (corrected_point this packet) (map (pair i) (seq 0 n)))
         (fun pts => Done (append_kept pc pts)).
Proof.
  induction n as [|n IH].
  - cbn. now rewrite append_kept_nil.
  - rewrite for_loopM_S, IH, seq_S, map_app, collect_app, !bind_assoc.
    apply bind_ext. intros pts. cbn [bind map collect].
    rewrite toPointClouds_step_convert. change (0 + n)%nat with n.
    destruct (corrected_point this packet (i, n)) as [p|idx];
      [|reflexivity].
    cbn [bind]. now rewrite append_kept_app.
Qed.

(** The block loop over the first [n] blocks. *)
Lemma block_loop_convert (packet : raw_packet_t) (n : nat) (pc : PPointCloud) :
  for_loopM n (fun i pc' =>
      for_loopM LASER_COUNT (toPointClouds_step this (blocks packet i)) pc') pc
  = bind (collect (corrected_point this packet)
            (flat_map (fun i => map (pair i) (seq 0 LASER_COUNT)) (seq 0 n)))
         (fun pts => Done (append_kept pc pts)).
Proof.
  induction n as [|n IH].
  - cbn. now rewrite append_kept_nil.
  - rewrite for_loopM_S, IH, seq_S, flat_map_app, collect_app, !bind_assoc.
    apply bind_ext. intros pts. cbn [bind flat_map].
    rewrite app_nil_r, channel_loop_convert. change (0 + n)%nat with n.
    destruct (collect (corrected_point this packet)
                (map (pair n) (seq 0 LASER_COUNT))) as [pts'|idx];
      [|reflexivity].
    cbn [bind]. now rewrite append_kept_app.
Qed.

Lemma corrected_point_ring (packet : raw_packet_t) (i j : nat) (p : PPoint) :
  corrected_point this packet (i, j) = Done p -> ring p = Z.of_nat j.
Proof.
  unfold corrected_point. destruct (computeXYZIR _ _ _ _ _) as [q|idx];
    cbn [bind]; [|discriminate].
  now intros [= <-].
Qed.

Lemma collect_rings (packet : raw_packet_t) (l : list (nat * nat))
    (pts : list PPoint) :
  collect (corrected_point this packet) l = Done pts ->
  map ring pts = map (fun ij => Z.of_nat (snd ij)) l.
Proof.
  revert pts. induction l as [|[i j] l IH]; intros pts; cbn [collect].
  - now intros [= <-].
  - destruct (corrected_point this packet (i, j)) as [p|idx] eqn:Hp;
      cbn [bind]; [|discriminate].
    destruct (collect (corrected_point this packet) l) as [ps|idx];
      cbn [bind]; [|discriminate].
    intros [= <-]. cbn [map snd].
    now rewrite (corrected_point_ring packet i j p Hp), (IH ps eq_refl).
Qed.

Lemma corrected_point_total (packet : raw_packet_t) (i j : nat) :
  0 <= azimuth (blocks packet i) < ROTATION_MAX_UNITS ->
  exists p, corrected_point this packet (i, j) = Done p.
Proof.
  intros Haz. unfold corrected_point. rewrite computeXYZIR_steps.
  destruct (outside_window _ _); [eexists; reflexivity|].
  unfold azimuth_trig. rewrite !table_read_in_bounds by assumption.
  destruct (_ =? _)%float; cbn [bind fst snd];
    destruct (is_origin _); eexists; reflexivity.
Qed.

Lemma collect_total {A B : Type} (f : A -> outcome B) (l : list A) :
  (forall a, In a l -> exists b, f a = Done b) ->
  exists bs, collect f l = Done bs.
Proof.
  induction l as [|a l IH]; intros Hall; cbn [collect].
  - now exists [].
  - destruct (Hall a (or_introl eq_refl)) as [b ->].
    destruct IH as [bs ->]; [intros a' Ha'; apply Hall; now right|].
    now exists (b :: bs).
Qed.

Lemma firing_order_blocks (i j : nat) :
  In (i, j) (firing_order BLOCKS_PER_PACKET LASER_COUNT) ->
  (i < BLOCKS_PER_PACKET)%nat /\ (j < LASER_COUNT)%nat.
Proof.
  unfold firing_order. rewrite in_flat_map. intros (i' & Hi' & Hin).
  apply in_map_iff in Hin as (j' & [= <- <-] & Hj').
  apply in_seq in Hi'. apply in_seq in Hj'. lia.
Qed.

(** C5: [toPointClouds] visits the blocks in packet order and, within each
    block, the channels in channel order, and runs the point corrector on
    each; the points with a NaN coordinate are skipped, and every other point
    is appended with its channel index as ring: the cloud grows by the kept
    points in block-major, channel-minor order (section 4.5, [convert]).
    The corrected points carry the channel indices of the firing order as
    rings, and the conversion runs to its end whenever the azimuth of every
    block lies within the lookup tables. *)
Theorem toPointClouds_firing_order (packet : raw_packet_t) (pc : PPointCloud) :
  toPointClouds BLOCKS_PER_PACKET LASER_COUNT this packet pc
  = convert BLOCKS_PER_PACKET LASER_COUNT this packet pc
  /\ (forall pts,
        collect (corrected_point this packet)
          (firing_order BLOCKS_PER_PACKET LASER_COUNT) = Done pts ->
        map ring pts
        = map (fun ij => Z.of_nat (snd ij))
            (firing_order BLOCKS_PER_PACKET LASER_COUNT)
        /\ toPointClouds BLOCKS_PER_PACKET LASER_COUNT this packet pc
           = Done (append_kept pc pts))
  /\ ((forall i, (i < BLOCKS_PER_PACKET)%nat ->
         0 <= azimuth (blocks packet i) < ROTATION_MAX_UNITS) ->
      exists pts,
        toPointClouds BLOCKS_PER_PACKET LASER_COUNT this packet pc
        = Done (append_kept pc pts)).
Proof.
  assert (Hconvert :
    toPointClouds BLOCKS_PER_PACKET LASER_COUNT this packet pc
    = convert BLOCKS_PER_PACKET LASER_COUNT this packet pc)
    by (unfold toPointClouds, convert, firing_order; apply block_loop_convert).
  split; [exact Hconvert|]. split.
  - intros pts Hpts. split; [now apply (collect_rings packet)|].
    rewrite Hconvert. unfold convert. now rewrite Hpts.
  - intros Haz.
    destruct (collect_total (corrected_point this packet)
                (firing_order BLOCKS_PER_PACKET LASER_COUNT)) as [pts Hpts].
    + intros [i j] Hin. apply corrected_point_total. apply Haz.
      now apply firing_order_blocks in Hin.
    + exists pts. rewrite Hconvert. unfold convert. now rewrite Hpts.
Qed.

End ConverterProofs.

(** ** The object state the conversion depends on *)

Section SameInputs.

Context {libm : Libm}.

Lemma same_inputs_refl (a : RawData) : same_inputs a a.
Proof. repeat split. Qed.

Lemma same_inputs_sym (a b : RawData) : same_inputs a b -> same_inputs b a.
Proof.
  intros (Hmin & Hmax & Hcal & Hcos & Hsin). repeat split; intros; symmetry; auto.
Qed.

Lemma same_inputs_trans (a b c : RawData) :
  same_inputs a b -> same_inputs b c -> same_inputs a c.
Proof.
  intros (Hmin & Hmax & Hcal & Hcos & Hsin) (Hmin' & Hmax' & Hcal' & Hcos' & Hsin').
  repeat split; intros; etransitivity; eauto.
Qed.

Lemma azimuth_trig_same_inputs (a b : RawData) (azimuth : Z)
    (c : PandarLaserCorrection) :
  same_inputs a b -> azimuth_trig a azimuth c = azimuth_trig b azimuth c.
Proof.
  intros (_ & _ & _ & Hcos & Hsin). unfold azimuth_trig.
  now rewrite Hcos, Hsin.
Qed.

Lemma computeXYZIR_same_inputs (a b : RawData) (point : PPoint) (azimuth : Z)
    (m : raw_measure_t) (c : PandarLaserCorrection) :
  same_inputs a b ->
  computeXYZIR a point azimuth m c = computeXYZIR b point azimuth m c.
Proof.
  intros Hab. rewrite !computeXYZIR_steps.
  rewrite (azimuth_trig_same_inputs a b azimuth c Hab).
  destruct Hab as (Hmin & Hmax & _). unfold outside_window.
  now rewrite Hmin, Hmax.
Qed.

Lemma toPointClouds_step_same_inputs (a b : RawData) (firing_data : raw_block_t)
    (j : nat) (pc : PPointCloud) :
  same_inputs a b ->
  toPointClouds_step a firing_data j pc = toPointClouds_step b firing_data j pc.
Proof.
  intros Hab. unfold toPointClouds_step.
  rewrite (computeXYZIR_same_inputs a b) by assumption.
  destruct Hab as (_ & _ & Hcal & _). now rewrite Hcal.
Qed.

Lemma toPointClouds_same_inputs (BLOCKS_PER_PACKET LASER_COUNT : nat)
    (a b : RawData) (packet : raw_packet_t) (pc : PPointCloud) :
  same_inputs a b ->
  toPointClouds BLOCKS_PER_PACKET LASER_COUNT a packet pc
  = toPointClouds BLOCKS_PER_PACKET LASER_COUNT b packet pc.
Proof.
  intros Hab. unfold toPointClouds.
  apply for_loopM_ext. intros i pc'. apply for_loopM_ext. intros j pc''.
  now apply toPointClouds_step_same_inputs.
Qed.


(** *** The lookup tables after [setup] *)

Lemma fill_tables_loop (n : nat) (this : RawData) :
  let this' := for_loop n fill_tables_step this in
  config_ this' = config_ this
  /\ calibration_ this' = calibration_ this
  /\ (forall i, (i < n)%nat ->
        cos_lookup_table_ this' i = cosf (rotation_of (Z.of_nat i))
        /\ sin_lookup_table_ this' i = sinf (rotation_of (Z.of_nat i)))
  /\ (forall i, (n <= i)%nat ->
        cos_lookup_table_ this' i = cos_lookup_table_ this i
        /\ sin_lookup_table_ this' i = sin_lookup_table_ this i).
Proof.
  induction n as [|n IH]; cbn zeta in *.
  - cbn. repeat split; intros; lia.
  - rewrite for_loop_S. destruct IH as (Hcfg & Hcal & Hlt & Hge).
    set (s := for_loop n fill_tables_step this) in *.
    unfold fill_tables_step.
    cbn [config_ calibration_ cos_lookup_table_ sin_lookup_table_
         set_cos_entry set_sin_entry].
    split; [exact Hcfg|]. split; [exact Hcal|]. split.
    + intros i Hi. destruct (Nat.eq_dec i n) as [->|Hne].
      * now rewrite !upd_same.
      * rewrite !upd_other by assumption. apply Hlt. lia.
    + intros i Hi. rewrite !upd_other by lia. apply Hge. lia.
Qed.

Lemma fill_tables_read (this : RawData) (a : Z) :
  0 <= a < ROTATION_MAX_UNITS ->
  table_read (cos_lookup_table_ (fill_tables this)) a = Done (cosf (rotation_of a))
  /\ table_read (sin_lookup_table_ (fill_tables this)) a = Done (sinf (rotation_of a)).
Proof.
  intros Ha. rewrite !table_read_in_bounds by assumption.
  destruct (fill_tables_loop (Z.to_nat ROTATION_MAX_UNITS) this)
    as (_ & _ & Hlt & _).
  destruct (Hlt (Z.to_nat a)) as [Hcos Hsin]; [apply Z2Nat.inj_lt; lia|].
  unfold fill_tables. rewrite Hcos, Hsin, Z2Nat.id by lia. split; reflexivity.
Qed.

Lemma fill_tables_preserves (this : RawData) :
  config_ (fill_tables this) = config_ this
  /\ calibration_ (fill_tables this) = calibration_ this.
Proof.
  unfold fill_tables.
  destruct (fill_tables_loop (Z.to_nat ROTATION_MAX_UNITS) this)
    as (Hcfg & Hcal & _).
  split; assumption.
Qed.

Lemma fill_tables_tabulated (this : RawData) :
  same_inputs (fill_tables this) (tabulated (config_ this) (calibration_ this)).
Proof.
  destruct (fill_tables_preserves this) as [Hcfg Hcal].
  unfold same_inputs. rewrite Hcfg, Hcal. cbn [config_ calibration_ tabulated].
  repeat split.
  - intros az. destruct (Z_lt_ge_dec az 0) as [Hneg|Hpos];
      [rewrite !table_read_out_of_bounds by lia; reflexivity|].
    destruct (Z_lt_ge_dec az ROTATION_MAX_UNITS) as [Hlt|Hge];
      [|rewrite !table_read_out_of_bounds by lia; reflexivity].
    destruct (fill_tables_read this az) as [-> _]; [lia|].
    rewrite table_read_in_bounds by lia.
    cbn [cos_lookup_table_ tabulated]. now rewrite Z2Nat.id by lia.
  - intros az. destruct (Z_lt_ge_dec az 0) as [Hneg|Hpos];
      [rewrite !table_read_out_of_bounds by lia; reflexivity|].
    destruct (Z_lt_ge_dec az ROTATION_MAX_UNITS) as [Hlt|Hge];
      [|rewrite !table_read_out_of_bounds by lia; reflexivity].
    destruct (fill_tables_read this az) as [_ ->]; [lia|].
    rewrite table_read_in_bounds by lia.
    cbn [sin_lookup_table_ tabulated]. now rewrite Z2Nat.id by lia.
Qed.

End SameInputs.

(** ** The fixtures *)

Lemma setupOffline_tabulated {libm : Libm} (this : RawData)
    (file : string) (max_range_ min_range_ : float)
    (read : string -> Calibration) :
  initialized (read file) = true ->
  fst (setupOffline this file max_range_ min_range_ read) = 0
  /\ same_inputs (snd (setupOffline this file max_range_ min_range_ read))
       (tabulated
          (set_calibrationFile
             (set_min_range (set_max_range (config_ this) max_range_) min_range_)
             file)
          (read file)).
Proof.
  intros Hinit. unfold setupOffline.
  cbn [config_ calibration_ set_config set_calibration calibrationFile
       set_calibrationFile].
  rewrite Hinit. cbn [negb fst snd]. split; [reflexivity|].
  apply fill_tables_tabulated.
Qed.

Lemma ready_with_tabulated {libm : Libm} (c : PandarLaserCorrection)
    (min max : float) :
  same_inputs (Pandar40.ready_with c min max)
    (tabulated (Pandar40.ready_config min max) (Pandar40.calibration c)).
Proof.
  unfold Pandar40.ready_with.
  apply (setupOffline_tabulated Pandar40.fresh "Lidar-Correction-18.csv"
           max min (fun _ => Pandar40.calibration c)).
  reflexivity.
Qed.

Lemma ready_tabulated (c : PandarLaserCorrection) (min max : float) :
  same_inputs (Pandar40.ready c min max)
    (tabulated (libm := Taylor.libm) (Pandar40.ready_config min max)
       (Pandar40.calibration c)).
Proof. apply (ready_with_tabulated (libm := Taylor.libm)). Qed.

(** ** Claims about the point corrector *)

Section CorrectorClaims.

Context {libm : Libm}.

(** C2, as amended: if range * 0.002 is below [min_range] or above
    [max_range] - the test is made on the distance before the per-laser
    distance correction is added - the corrected point has NaN coordinates;
    a point whose distance is inside the window has a NaN coordinate exactly
    when its computed coordinates are all zero or one of them is NaN; in
    every case the intensity is the high byte of the reflectivity. *)
Theorem computeXYZIR_range_window (this : RawData) (point : PPoint)
    (azimuth : Z) (m : raw_measure_t) (c : PandarLaserCorrection) :
  (outside_window (config_ this) (distance_of m) = true ->
     computeXYZIR this point azimuth m c
     = Done {| x := quiet_NaN; y := quiet_NaN; z := quiet_NaN;
               intensity := high_byte m; ring := ring point |})
  /\ (forall p, computeXYZIR this point azimuth m c = Done p ->
        intensity p = high_byte m
        /\ (has_nan_coordinate p = false ->
              outside_window (config_ this) (distance_of m) = false)
        /\ (outside_window (config_ this) (distance_of m) = false ->
              forall cos_az sin_az,
                azimuth_trig this azimuth c = Done (cos_az, sin_az) ->
                has_nan_coordinate p
                = is_origin (cartesian c (distance_of m) cos_az sin_az)
                  || some_nan (cartesian c (distance_of m) cos_az sin_az))).
Proof.
  split; [apply computeXYZIR_outside|].
  intros p Hp. rewrite computeXYZIR_steps in Hp.
  destruct (outside_window (config_ this) (distance_of m)) eqn:Hwin.
  - injection Hp as <-. cbn [intensity]. repeat split; discriminate.
  - destruct (azimuth_trig this azimuth c) as [[cos_az sin_az]|idx];
      [|discriminate].
    cbn [bind fst snd] in Hp.
    destruct (cartesian c (distance_of m) cos_az sin_az) as [[X Y] Z] eqn:Hxyz.
    cbn zeta in Hp.
    destruct (is_origin (X, Y, Z)) eqn:Horigin; injection Hp as <-;
      cbn [intensity fst snd].
    + split; [reflexivity|]. split; [discriminate|].
      intros _ cos' sin' [= <- <-]. now rewrite Hxyz, Horigin.
    + split; [reflexivity|]. split; [reflexivity|].
      intros _ cos' sin' [= <- <-]. now rewrite Hxyz, Horigin.
Qed.

(** C4: for every measurement whose distance passes the range window, if
    the computed Cartesian coordinates satisfy x == 0, y == 0 and z == 0, the
    coordinates of the point are replaced by NaN, and the converter does not
    append the point. *)
Theorem origin_point_excluded (this : RawData) (firing_data : raw_block_t)
    (j : nat) (pc : PPointCloud) (cos_az sin_az : float) :
  outside_window (config_ this) (distance_of (measures firing_data j)) = false ->
  azimuth_trig this (azimuth firing_data)
    (laser_corrections (calibration_ this) j) = Done (cos_az, sin_az) ->
  is_origin (cartesian (laser_corrections (calibration_ this) j)
               (distance_of (measures firing_data j)) cos_az sin_az) = true ->
  computeXYZIR this uninitialized_point (azimuth firing_data)
    (measures firing_data j) (laser_corrections (calibration_ this) j)
  = Done {| x := quiet_NaN; y := quiet_NaN; z := quiet_NaN;
            intensity := high_byte (measures firing_data j); ring := 0 |}
  /\ toPointClouds_step this firing_data j pc = Done pc.
Proof.
  intros Hwin Htrig Horigin.
  assert (Hp := computeXYZIR_inside this uninitialized_point (azimuth firing_data)
                  (measures firing_data j)
                  (laser_corrections (calibration_ this) j)
                  cos_az sin_az Hwin Htrig).
  cbn zeta in Hp. rewrite Horigin in Hp.
  split; [exact Hp|].
  now apply (toPointClouds_step_skips this firing_data j pc _ Hp).
Qed.

End CorrectorClaims.

Lemma outside_window_ready_with {libm : Libm} (c : PandarLaserCorrection)
    (min max d : float) :
  outside_window (config_ (Pandar40.ready_with c min max)) d
  = ((d <? min)%float || (max <? d)%float).
Proof.
  destruct (ready_with_tabulated c min max) as (Hmin & Hmax & _).
  unfold outside_window. now rewrite Hmin, Hmax.
Qed.

Lemma outside_window_ready (c : PandarLaserCorrection) (min max d : float) :
  outside_window (config_ (Pandar40.ready c min max)) d
  = ((d <? min)%float || (max <? d)%float).
Proof. apply (outside_window_ready_with (libm := Taylor.libm)). Qed.

Lemma laser_corrections_ready_with {libm : Libm} (c : PandarLaserCorrection)
    (min max : float) (j : nat) :
  laser_corrections (calibration_ (Pandar40.ready_with c min max)) j = c.
Proof.
  destruct (ready_with_tabulated c min max) as (_ & _ & Hcal & _).
  now rewrite Hcal.
Qed.

Lemma laser_corrections_ready (c : PandarLaserCorrection) (min max : float)
    (j : nat) :
  laser_corrections (calibration_ (Pandar40.ready c min max)) j = c.
Proof. apply (laser_corrections_ready_with (libm := Taylor.libm)). Qed.

Lemma rotation_of_zero : rotation_of 0 = 0%float.
Proof. vm_compute. reflexivity. Qed.

Lemma taylor_exact_at_zero : exact_at_zero Taylor.libm.
Proof. split; vm_compute; reflexivity. Qed.

Lemma tabulated_north_same_inputs {libm : Libm} (cfg : Config)
    (cal : Calibration) :
  exact_at_zero libm ->
  same_inputs (tabulated cfg cal) (tabulated_north cfg cal).
Proof.
  intros [Hcos Hsin]. repeat split; intros az; unfold table_read;
    destruct (_ && _); try reflexivity;
    cbn [tabulated tabulated_north cos_lookup_table_ sin_lookup_table_];
    destruct (Z.to_nat az) eqn:Haz; try reflexivity;
    change (Z.of_nat 0) with 0; rewrite rotation_of_zero; congruence.
Qed.

(** At azimuth 0 the tables give cosine 1 and sine 0. *)
Lemma azimuth_trig_ready_with_north {libm : Libm}
    (c c' : PandarLaserCorrection) (min max : float) :
  exact_at_zero libm ->
  (azimuthCorrection c' =? 0)%float = true ->
  azimuth_trig (Pandar40.ready_with c min max) 0 c' = Done (1%float, 0%float).
Proof.
  intros [Hcos Hsin] Hzero.
  rewrite (azimuth_trig_same_inputs _ _ 0 c' (ready_with_tabulated c min max)).
  unfold azimuth_trig. rewrite Hzero.
  rewrite !table_read_in_bounds by (unfold ROTATION_MAX_UNITS; lia).
  cbn [bind tabulated cos_lookup_table_ sin_lookup_table_].
  change (Z.of_nat (Z.to_nat 0)) with 0.
  now rewrite rotation_of_zero, Hcos, Hsin.
Qed.

Lemma azimuth_trig_ready_north (c c' : PandarLaserCorrection) (min max : float) :
  (azimuthCorrection c' =? 0)%float = true ->
  azimuth_trig (libm := Taylor.libm) (Pandar40.ready c min max) 0 c'
  = Done (1%float, 0%float).
Proof.
  apply (azimuth_trig_ready_with_north (libm := Taylor.libm)).
  exact taylor_exact_at_zero.
Qed.

(** With any math library that is exact at zero, a return at 1 m inside the
    window [0.5 m, 100 m] on a channel whose distance correction is -1 m is
    corrected to the origin and gets NaN coordinates. *)
Lemma shortened_return_is_origin {libm : Libm} :
  exact_at_zero libm ->
  outside_window
    (config_ (Pandar40.ready_with Pandar40.shortening_correction 0.5 100))
    (distance_of {| range := 500; reflectivity := 0x1234 |}) = false
  /\ computeXYZIR
       (Pandar40.ready_with Pandar40.shortening_correction 0.5 100)
       uninitialized_point 0 {| range := 500; reflectivity := 0x1234 |}
       Pandar40.shortening_correction
     = Done {| x := nan; y := nan; z := nan; intensity := 18; ring := 0 |}.
Proof.
  intros Hexact.
  assert (Hwin : outside_window
            (config_ (Pandar40.ready_with Pandar40.shortening_correction 0.5 100))
            (distance_of {| range := 500; reflectivity := 0x1234 |}) = false)
    by (rewrite outside_window_ready_with; vm_compute; reflexivity).
  split; [exact Hwin|].
  rewrite (computeXYZIR_inside _ _ _ _ _ 1%float 0%float Hwin).
  - vm_compute. reflexivity.
  - apply azimuth_trig_ready_with_north; [exact Hexact|reflexivity].
Qed.

(** C2 fails as an equivalence: a return at 1 m inside the window
    [0.5 m, 100 m], on a channel whose distance correction is -1 m, is
    corrected to the origin and gets NaN coordinates (evaluated with the
    Taylor library; [shortened_return_is_origin] has it for every library
    that is exact at zero). *)
Lemma range_window_iff_counterexample :
  outside_window
    (config_ (Pandar40.ready Pandar40.shortening_correction 0.5 100))
    (distance_of {| range := 500; reflectivity := 0x1234 |}) = false
  /\ computeXYZIR (libm := Taylor.libm)
       (Pandar40.ready Pandar40.shortening_correction 0.5 100)
       uninitialized_point 0 {| range := 500; reflectivity := 0x1234 |}
       Pandar40.shortening_correction
     = Done {| x := nan; y := nan; z := nan; intensity := 18; ring := 0 |}.
Proof.
  exact (shortened_return_is_origin (libm := Taylor.libm) taylor_exact_at_zero).
Qed.

(** A sentinel return, zeroed by the parser, lies below a [min_range] of
    0.5 m: NaN coordinates, intensity 0. *)
Lemma computeXYZIR_range_window_witness :
  computeXYZIR (libm := Taylor.libm)
    (Pandar40.ready Pandar40.plain_correction 0.5 100)
    uninitialized_point 0 zeroed_measure Pandar40.plain_correction
  = Done {| x := nan; y := nan; z := nan; intensity := 0; ring := 0 |}.
Proof.
  apply (proj1 (computeXYZIR_range_window (libm := Taylor.libm)
                  (Pandar40.ready Pandar40.plain_correction 0.5 100)
                  uninitialized_point 0 zeroed_measure
                  Pandar40.plain_correction)).
  rewrite outside_window_ready. vm_compute. reflexivity.
Defined.

Lemma origin_point_excluded_witness :
  computeXYZIR (libm := Taylor.libm)
    (Pandar40.ready Pandar40.shortening_correction 0.5 100)
    uninitialized_point 0 {| range := 500; reflectivity := 0x1234 |}
    (laser_corrections
       (calibration_ (Pandar40.ready Pandar40.shortening_correction 0.5 100)) 3)
  = Done {| x := nan; y := nan; z := nan; intensity := 18; ring := 0 |}
  /\ toPointClouds_step (libm := Taylor.libm)
       (Pandar40.ready Pandar40.shortening_correction 0.5 100)
       {| sob := 0xEEFF; azimuth := 0;
          measures := fun _ => {| range := 500; reflectivity := 0x1234 |} |}
       3 Pandar40.empty_cloud
     = Done Pandar40.empty_cloud.
Proof.
  apply (origin_point_excluded (libm := Taylor.libm)
           (Pandar40.ready Pandar40.shortening_correction 0.5 100)
           {| sob := 0xEEFF; azimuth := 0;
              measures := fun _ => {| range := 500; reflectivity := 0x1234 |} |}
           3 Pandar40.empty_cloud 1%float 0%float).
  - rewrite outside_window_ready. vm_compute. reflexivity.
  - rewrite laser_corrections_ready. cbn [azimuth].
    apply azimuth_trig_ready_north. reflexivity.
  - rewrite laser_corrections_ready. vm_compute. reflexivity.
Defined.

(** ** Zeroed measurements *)

Section ZeroedMeasures.

Variables BLOCKS_PER_PACKET LASER_COUNT RESERVE_SIZE : nat.
Context {libm : Libm}.

(** C7, as amended: for every correctly sized packet and every range window
    that excludes the distance 0 (0 < [min_range], or [max_range] < 0), a
    measurement that the parser zeroed (sentinel pair or over-range) is
    corrected, without a fault, to a point with NaN coordinates, and the
    converter does not append it. *)
Theorem zeroed_measure_excluded (this : RawData) (packet : raw_packet_t)
    (buf : buffer) (len : Z) (i j : nat) (pc : PPointCloud) :
  correctly_sized BLOCKS_PER_PACKET LASER_COUNT RESERVE_SIZE buf len ->
  (i < BLOCKS_PER_PACKET)%nat -> (j < LASER_COUNT)%nat ->
  invalid_return (wire_measure LASER_COUNT buf i j) ->
  outside_window (config_ this) 0 = true ->
  let firing_data :=
    blocks (snd (parseRawData BLOCKS_PER_PACKET LASER_COUNT RESERVE_SIZE
                   packet buf len)) i in
  computeXYZIR this uninitialized_point (azimuth firing_data)
    (measures firing_data j) (laser_corrections (calibration_ this) j)
  = Done {| x := quiet_NaN; y := quiet_NaN; z := quiet_NaN;
            intensity := 0; ring := 0 |}
  /\ toPointClouds_step this firing_data j pc = Done pc.
Proof.
  intros (Hbuf & Hlen & Hmax) Hi Hj Hinv Hwin firing_data.
  destruct (parseRawData_decodes BLOCKS_PER_PACKET LASER_COUNT RESERVE_SIZE
              packet buf len Hlen Hmax) as (p & Hparse & Hblocks & _).
  destruct (Hblocks i Hi) as (_ & _ & Hms).
  assert (Hzero : measures firing_data j = zeroed_measure).
  { subst firing_data. rewrite Hparse. cbn [snd]. rewrite (Hms j Hj).
    unfold filter_measure. now rewrite (invalid_returnb_true _ Hinv). }
  assert (Hp : computeXYZIR this uninitialized_point (azimuth firing_data)
                 (measures firing_data j)
                 (laser_corrections (calibration_ this) j)
               = Done {| x := quiet_NaN; y := quiet_NaN; z := quiet_NaN;
                         intensity := 0; ring := 0 |}).
  { rewrite Hzero. rewrite computeXYZIR_outside.
    - reflexivity.
    - now rewrite distance_of_zeroed. }
  split; [exact Hp|].
  now apply (toPointClouds_step_skips this firing_data j pc _ Hp).
Qed.

End ZeroedMeasures.

Lemma pandar40_north_buffer_sized :
  correctly_sized Pandar40.BLOCKS Pandar40.LASERS Pandar40.RESERVE
    Pandar40.north_buffer 1240.
Proof.
  repeat split; try (vm_compute; reflexivity).
  unfold CInt.INT_MAX. lia.
Qed.

(** With any math library that is exact at zero and a [min_range] of 0, the
    sentinel return of channel 5 of [north_buffer], on a channel with offset
    corrections, becomes a point next to the sensor, and the converter
    appends it. *)
Lemma sentinel_return_kept {libm : Libm} :
  exact_at_zero libm ->
  toPointClouds_step
    (Pandar40.ready_with Pandar40.offset_correction 0 100)
    (blocks (snd (parseRawData Pandar40.BLOCKS Pandar40.LASERS
                    Pandar40.RESERVE Pandar40.blank_packet
                    Pandar40.north_buffer 1240)) 0)
    5 Pandar40.empty_cloud
  = Done {| points := [ {| x := (-0.03125)%float; y := 0; z := 0.0625;
                           intensity := 0; ring := 5 |} ];
            width := 1 |}.
Proof.
  intros Hexact.
  set (firing_data :=
         blocks (snd (parseRawData Pandar40.BLOCKS Pandar40.LASERS
                        Pandar40.RESERVE Pandar40.blank_packet
                        Pandar40.north_buffer 1240)) 0).
  assert (Haz : azimuth firing_data = 0) by (vm_compute; reflexivity).
  assert (Hm : measures firing_data 5 = zeroed_measure)
    by (vm_compute; reflexivity).
  assert (Hwin : outside_window
            (config_ (Pandar40.ready_with Pandar40.offset_correction 0 100))
            (distance_of zeroed_measure) = false)
    by (rewrite outside_window_ready_with; vm_compute; reflexivity).
  rewrite (toPointClouds_step_appends _ firing_data 5 _
             {| x := (-0.03125)%float; y := 0; z := 0.0625;
                intensity := 0; ring := 0 |}).
  - reflexivity.
  - rewrite Haz, Hm, laser_corrections_ready_with.
    rewrite (computeXYZIR_inside _ _ _ _ _ 1%float 0%float Hwin).
    + vm_compute. reflexivity.
    + apply azimuth_trig_ready_with_north; [exact Hexact|reflexivity].
  - reflexivity.
Qed.

(** C7 fails when the window admits the distance 0: with [min_range] 0 a
    sentinel return on a channel with offset corrections becomes a point next
    to the sensor, and the converter appends it (evaluated with the Taylor
    library; [sentinel_return_kept] has it for every library that is exact at
    zero). *)
Lemma zeroed_measure_kept_counterexample :
  invalid_return (wire_measure Pandar40.LASERS Pandar40.north_buffer 0 5)
  /\ toPointClouds_step (libm := Taylor.libm)
       (Pandar40.ready Pandar40.offset_correction 0 100)
       (blocks (snd (parseRawData Pandar40.BLOCKS Pandar40.LASERS
                       Pandar40.RESERVE Pandar40.blank_packet
                       Pandar40.north_buffer 1240)) 0)
       5 Pandar40.empty_cloud
     = Done {| points := [ {| x := (-0.03125)%float; y := 0; z := 0.0625;
                              intensity := 0; ring := 5 |} ];
               width := 1 |}.
Proof.
  split.
  - left. split; vm_compute; reflexivity.
  - exact (sentinel_return_kept (libm := Taylor.libm) taylor_exact_at_zero).
Qed.

Lemma zeroed_measure_excluded_witness :
  computeXYZIR (libm := Taylor.libm)
    (Pandar40.ready Pandar40.offset_correction 0.5 100) uninitialized_point
    (azimuth (blocks (snd (parseRawData Pandar40.BLOCKS Pandar40.LASERS
                             Pandar40.RESERVE Pandar40.blank_packet
                             Pandar40.north_buffer 1240)) 0))
    (measures (blocks (snd (parseRawData Pandar40.BLOCKS Pandar40.LASERS
                              Pandar40.RESERVE Pandar40.blank_packet
                              Pandar40.north_buffer 1240)) 0) 5)
    (laser_corrections
       (calibration_ (Pandar40.ready Pandar40.offset_correction 0.5 100)) 5)
  = Done {| x := quiet_NaN; y := quiet_NaN; z := quiet_NaN;
            intensity := 0; ring := 0 |}
  /\ toPointClouds_step (libm := Taylor.libm)
       (Pandar40.ready Pandar40.offset_correction 0.5 100)
       (blocks (snd (parseRawData Pandar40.BLOCKS Pandar40.LASERS
                       Pandar40.RESERVE Pandar40.blank_packet
                       Pandar40.north_buffer 1240)) 0)
       5 Pandar40.empty_cloud
     = Done Pandar40.empty_cloud.
Proof.
  apply (zeroed_measure_excluded Pandar40.BLOCKS Pandar40.LASERS
           Pandar40.RESERVE (libm := Taylor.libm)
           (Pandar40.ready Pandar40.offset_correction 0.5 100)
           Pandar40.blank_packet Pandar40.north_buffer 1240 0 5
           Pandar40.empty_cloud pandar40_north_buffer_sized).
  - unfold Pandar40.BLOCKS. lia.
  - unfold Pandar40.LASERS. lia.
  - left. split; vm_compute; reflexivity.
  - rewrite outside_window_ready. vm_compute. reflexivity.
Defined.

(** ** The angle window *)

Lemma setParameters_same_inputs (this : RawData)
    (min_range' max_range' vd1 vw1 vd2 vw2 : float) :
  same_inputs (setParameters this min_range' max_range' vd1 vw1)
              (setParameters this min_range' max_range' vd2 vw2).
Proof.
  unfold setParameters, same_inputs.
  cbn [config_ calibration_ cos_lookup_table_ sin_lookup_table_ set_config].
  repeat match goal with
         | |- context [if ?b then _ else _] => destruct b
         end;
    repeat split; reflexivity.
Qed.

(** The angle window is stored, and depends on the view parameters. *)
Example setParameters_angle_window :
  let narrow := config_ (setParameters Pandar40.fresh 0.5 100 0 1) in
  let full := config_ (setParameters Pandar40.fresh 0.5 100 0
                         (2 * CFloat.M_PI)%float) in
  (min_angle narrow, max_angle narrow) = (33135, 2865)
  /\ (min_angle full, max_angle full) = (0, 36000)
  /\ (min_range narrow, max_range narrow) = (min_range full, max_range full).
Proof. vm_compute. repeat split. Qed.

(** C9: the angle window that [setParameters] derives from [view_direction]
    and [view_width] does not influence point correction or filtering: two
    configurations with the same [min_range] and [max_range], whatever their
    view parameters, give the same corrected point for the same measurement
    and calibration entry, and the same converted cloud for the same
    packet. *)
Theorem angle_window_not_applied {libm : Libm} (this : RawData)
    (min_range' max_range' vd1 vw1 vd2 vw2 : float) :
  (forall point azimuth m c,
     computeXYZIR (setParameters this min_range' max_range' vd1 vw1)
       point azimuth m c
     = computeXYZIR (setParameters this min_range' max_range' vd2 vw2)
         point azimuth m c)
  /\ (forall BLOCKS_PER_PACKET LASER_COUNT packet pc,
        toPointClouds BLOCKS_PER_PACKET LASER_COUNT
          (setParameters this min_range' max_range' vd1 vw1) packet pc
        = toPointClouds BLOCKS_PER_PACKET LASER_COUNT
            (setParameters this min_range' max_range' vd2 vw2) packet pc).
Proof.
  split.
  - intros point azimuth m c. apply computeXYZIR_same_inputs.
    apply setParameters_same_inputs.
  - intros B L packet pc. apply toPointClouds_same_inputs.
    apply setParameters_same_inputs.
Qed.

(** ** Azimuths beyond the tables *)

Lemma collect_fault_head {A B : Type} (f : A -> outcome B) (a : A)
    (l : list A) (index : Z) :
  f a = OutOfBounds index -> collect f (a :: l) = OutOfBounds index.
Proof. intros Hfa. cbn [collect]. now rewrite Hfa. Qed.

Lemma pandar40_wild_azimuth_buffer_sized :
  correctly_sized Pandar40.BLOCKS Pandar40.LASERS Pandar40.RESERVE
    Pandar40.wild_azimuth_buffer 1240.
Proof.
  repeat split; try (vm_compute; reflexivity).
  unfold CInt.INT_MAX. lia.
Qed.

(** C10: a table read is in bounds exactly for indices in [0, 36000).  The
    parser does not establish that bound: the correctly sized
    [wild_azimuth_buffer] decodes to azimuth 65535, and on any object whose
    window admits the return and whose channel 0 has a zero
    [azimuthCorrection], converting that packet reads the tables at index
    65535, beyond their 36000 cells. *)
Theorem wild_azimuth_reads_out_of_bounds {libm : Libm} (this : RawData)
    (stack : raw_packet_t) (pc : PPointCloud) :
  outside_window (config_ this) (distance_of Pandar40.echo) = false ->
  (azimuthCorrection (laser_corrections (calibration_ this) 0) =? 0)%float
  = true ->
  (forall table index,
     (exists v, table_read table index = Done v) <-> 0 <= index < 36000)
  /\ correctly_sized Pandar40.BLOCKS Pandar40.LASERS Pandar40.RESERVE
       Pandar40.wild_azimuth_buffer 1240
  /\ azimuth (blocks (snd (parseRawData Pandar40.BLOCKS Pandar40.LASERS
                             Pandar40.RESERVE stack
                             Pandar40.wild_azimuth_buffer 1240)) 0) = 65535
  /\ unpack Pandar40.BLOCKS Pandar40.LASERS Pandar40.RESERVE this stack
       {| stamp := 0; data := Pandar40.wild_azimuth_buffer |} pc
     = OutOfBounds 65535.
Proof.
  intros Hwin Hzero.
  pose proof pandar40_wild_azimuth_buffer_sized as Hsized.
  destruct Hsized as (Hbuf & Hlen & Hmax).
  destruct (parseRawData_decodes Pandar40.BLOCKS Pandar40.LASERS
              Pandar40.RESERVE stack Pandar40.wild_azimuth_buffer 1240
              Hlen Hmax) as (p & Hparse & Hblocks & _).
  destruct (Hblocks 0%nat) as (_ & Haz & Hms); [unfold Pandar40.BLOCKS; lia|].
  specialize (Hms 0%nat ltac:(unfold Pandar40.LASERS; lia)).
  assert (Haz' : azimuth (blocks p 0) = 65535)
    by (rewrite Haz; vm_compute; reflexivity).
  assert (Hms' : measures (blocks p 0) 0 = Pandar40.echo)
    by (rewrite Hms; vm_compute; reflexivity).
  split; [|split; [exact pandar40_wild_azimuth_buffer_sized|split]].
  - intros table index. split.
    + intros [v Hv]. unfold table_read in Hv.
      destruct (Z.leb_spec 0 index); [|discriminate].
      destruct (Z.ltb_spec index ROTATION_MAX_UNITS); [|discriminate].
      unfold ROTATION_MAX_UNITS in *. lia.
    + intros Hidx. eexists. apply table_read_in_bounds.
      unfold ROTATION_MAX_UNITS. lia.
  - rewrite Hparse. exact Haz'.
  - unfold unpack. cbn [data].
    replace (CInt.to_int (Z.of_nat (length Pandar40.wild_azimuth_buffer)))
      with 1240 by (vm_compute; reflexivity).
    rewrite Hparse. unfold toPointClouds. rewrite block_loop_convert.
    change (seq 0 Pandar40.BLOCKS) with (0%nat :: seq 1 5).
    change (seq 0 Pandar40.LASERS) with (0%nat :: seq 1 39).
    cbn [flat_map map app].
    rewrite (collect_fault_head _ _ _ 65535); [reflexivity|].
    unfold corrected_point. rewrite Haz', Hms', computeXYZIR_steps, Hwin.
    unfold azimuth_trig. rewrite Hzero.
    rewrite table_read_out_of_bounds by (unfold ROTATION_MAX_UNITS; lia).
    reflexivity.
Qed.

Lemma wild_azimuth_reads_out_of_bounds_witness :
  unpack (libm := Taylor.libm) Pandar40.BLOCKS Pandar40.LASERS Pandar40.RESERVE
    (Pandar40.ready Pandar40.plain_correction 0.5 100) Pandar40.blank_packet
    {| stamp := 0; data := Pandar40.wild_azimuth_buffer |} Pandar40.empty_cloud
  = OutOfBounds 65535.
Proof.
  apply (wild_azimuth_reads_out_of_bounds (libm := Taylor.libm)
           (Pandar40.ready Pandar40.plain_correction 0.5 100)
           Pandar40.blank_packet Pandar40.empty_cloud).
  - rewrite outside_window_ready. vm_compute. reflexivity.
  - rewrite laser_corrections_ready. reflexivity.
Defined.

(** ** The lookup tables *)

Lemma units_from_spec (n : nat) (s a : Z) :
  s <= a < s + Z.of_nat n -> In a (units_from n s).
Proof.
  revert s. induction n as [|n IH]; intros s Ha; [lia|].
  cbn [units_from]. destruct (Z.eq_dec s a) as [->|Hne]; [now left|].
  right. apply IH. lia.
Qed.

Lemma azimuth_units_spec (a : Z) :
  0 <= a < ROTATION_MAX_UNITS -> In a azimuth_units.
Proof.
  intros Ha. unfold azimuth_units. apply units_from_spec.
  rewrite Z2Nat.id by (unfold ROTATION_MAX_UNITS; lia). lia.
Qed.

(** Checked by evaluation on each of the 36000 azimuth units. *)
Lemma heading_within_all : forallb heading_within azimuth_units = true.
Proof. vm_compute. reflexivity. Qed.

Lemma PI_lower : (Q2R PI_lo <= PI)%R.
Proof.
  destruct (PI_2_3_7_ineq 4) as [Hlo _].
  apply Rle_trans with (4 * sum_f_R0 (tg_alt PI_2_3_7_tg) (S (2 * 4)))%R;
    [|lra].
  clear Hlo. unfold PI_2_3_7_tg, tg_alt, Ratan_seq, PI_lo, Q2R.
  simpl. lra.
Qed.

Lemma PI_upper : (PI <= Q2R PI_hi)%R.
Proof.
  destruct (PI_2_3_7_ineq 4) as [_ Hhi].
  apply Rle_trans with (4 * sum_f_R0 (tg_alt PI_2_3_7_tg) (2 * 4))%R;
    [lra|].
  clear Hhi. unfold PI_2_3_7_tg, tg_alt, Ratan_seq, PI_hi, Q2R.
  simpl. lra.
Qed.

Section Lipschitz.

Local Open Scope R_scope.

Lemma Rabs_sin_le (u : R) : Rabs (Rtrigo_def.sin u) <= Rabs u.
Proof.
  assert (Hpos : forall v, 0 < v -> Rabs (Rtrigo_def.sin v) <= v).
  { intros v Hv. apply Rabs_le. split.
    - destruct (Rle_dec v PI) as [Hle|Hgt].
      + pose proof (sin_ge_0 v (Rlt_le _ _ Hv) Hle). lra.
      + pose proof (SIN_bound v). pose proof PI_lower.
        unfold PI_lo, Q2R in *. simpl in *. lra.
    - left. now apply sin_lt_x. }
  destruct (Rtotal_order u 0) as [Hneg|[->|Hp]].
  - rewrite <- (Rabs_Ropp (Rtrigo_def.sin u)), <- sin_neg, <- (Rabs_Ropp u).
    rewrite (Rabs_pos_eq (- u)) by lra. apply Hpos. lra.
  - rewrite sin_0, Rabs_R0. lra.
  - rewrite (Rabs_pos_eq u) by lra. now apply Hpos.
Qed.

Lemma Rabs_half (u : R) : Rabs (u / 2) = Rabs u / 2.
Proof.
  unfold Rdiv. rewrite Rabs_mult, (Rabs_pos_eq (/ 2)) by lra. reflexivity.
Qed.

Lemma cos_lipschitz (p q : R) :
  Rabs (Rtrigo_def.cos p - Rtrigo_def.cos q) <= Rabs (p - q).
Proof.
  rewrite form2, !Rabs_mult.
  replace (Rabs (-2)) with 2 by (rewrite Rabs_left; lra).
  pose proof (Rabs_sin_le ((p - q) / 2)) as H1. rewrite Rabs_half in H1.
  pose proof (SIN_bound ((p + q) / 2)) as H2.
  assert (H3 : Rabs (Rtrigo_def.sin ((p + q) / 2)) <= 1) by (apply Rabs_le; lra).
  pose proof (Rabs_pos (Rtrigo_def.sin ((p - q) / 2))) as H5.
  pose proof (Rabs_pos (Rtrigo_def.sin ((p + q) / 2))) as H6.
  nra.
Qed.

Lemma sin_lipschitz (p q : R) :
  Rabs (Rtrigo_def.sin p - Rtrigo_def.sin q) <= Rabs (p - q).
Proof.
  rewrite form4, !Rabs_mult.
  rewrite (Rabs_pos_eq 2) by lra.
  pose proof (Rabs_sin_le ((p - q) / 2)) as H1. rewrite Rabs_half in H1.
  pose proof (COS_bound ((p + q) / 2)) as H2.
  assert (H3 : Rabs (Rtrigo_def.cos ((p + q) / 2)) <= 1) by (apply Rabs_le; lra).
  pose proof (Rabs_pos (Rtrigo_def.sin ((p - q) / 2))) as H5.
  pose proof (Rabs_pos (Rtrigo_def.cos ((p + q) / 2))) as H6.
  nra.
Qed.

Lemma heading_lower_real (a : Z) :
  Q2R (heading_lower a) = IZR a * Q2R PI_hi / 18000 - Q2R heading_tolerance.
Proof.
  unfold heading_lower, PI_hi, heading_tolerance, Q2R. cbn [Qnum Qden].
  rewrite minus_IZR, mult_IZR. field.
Qed.

Lemma heading_upper_real (a : Z) :
  Q2R (heading_upper a) = IZR a * Q2R PI_lo / 18000 + Q2R heading_tolerance.
Proof.
  unfold heading_upper, PI_lo, heading_tolerance, Q2R. cbn [Qnum Qden].
  rewrite plus_IZR, mult_IZR. field.
Qed.

(** The single-precision heading of azimuth unit [a] against
    [a * pi / 18000]. *)
Lemma heading_real (a : Z) :
  (0 <= a < ROTATION_MAX_UNITS)%Z ->
  CFloat.finite (rotation_of a) = true
  /\ Rabs (CFloat.to_R (rotation_of a) - IZR a * PI / 18000)
     <= Q2R heading_tolerance.
Proof.
  intros Ha.
  pose proof heading_within_all as Hall.
  rewrite forallb_forall in Hall.
  specialize (Hall a (azimuth_units_spec a Ha)).
  unfold heading_within in Hall. cbn zeta in Hall.
  apply andb_true_iff in Hall as [Hall Hhi].
  apply andb_true_iff in Hall as [Hfin Hlo].
  split; [exact Hfin|].
  apply Qle_bool_iff, Qle_Rle in Hlo.
  apply Qle_bool_iff, Qle_Rle in Hhi.
  rewrite heading_lower_real in Hlo. rewrite heading_upper_real in Hhi.
  fold (CFloat.to_R (rotation_of a)) in Hlo, Hhi.
  pose proof PI_lower as Hpl. pose proof PI_upper as Hpu.
  assert (HA : 0 <= IZR a) by (apply IZR_le; lia).
  assert (H1 : 0 <= IZR a * (Q2R PI_hi - PI))
    by (apply Rmult_le_pos; lra).
  assert (H2 : 0 <= IZR a * (PI - Q2R PI_lo))
    by (apply Rmult_le_pos; lra).
  apply Rabs_le. lra.
Qed.

(** Where the math library is accurate to [eps] at the heading of azimuth
    unit [a], the cosine and the sine that the tables hold for [a] are
    within [eps] plus the heading tolerance of the cosine and the sine of
    [a * pi / 18000]. *)
Lemma table_entry_accuracy (libm : Libm) (eps : R) (a : Z) :
  accurate_at libm eps a ->
  (0 <= a < ROTATION_MAX_UNITS)%Z ->
  (CFloat.finite (cosf (rotation_of a)) = true
   /\ Rabs (CFloat.to_R (cosf (rotation_of a))
            - Rtrigo_def.cos (IZR a * PI / 18000))
      <= eps + Q2R heading_tolerance)
  /\ (CFloat.finite (sinf (rotation_of a)) = true
      /\ Rabs (CFloat.to_R (sinf (rotation_of a))
               - Rtrigo_def.sin (IZR a * PI / 18000))
         <= eps + Q2R heading_tolerance).
Proof.
  intros [[Hfc Hc] [Hfs Hs]] Ha.
  destruct (heading_real a Ha) as [Hfin Hhead].
  split; (split; [assumption|]).
  - replace (CFloat.to_R (cosf (rotation_of a))
             - Rtrigo_def.cos (IZR a * PI / 18000))
      with ((CFloat.to_R (cosf (rotation_of a))
             - Rtrigo_def.cos (CFloat.to_R (rotation_of a)))
            + (Rtrigo_def.cos (CFloat.to_R (rotation_of a))
               - Rtrigo_def.cos (IZR a * PI / 18000))) by ring.
    eapply Rle_trans; [apply Rabs_triang|].
    pose proof (cos_lipschitz (CFloat.to_R (rotation_of a))
                  (IZR a * PI / 18000)). lra.
  - replace (CFloat.to_R (sinf (rotation_of a))
             - Rtrigo_def.sin (IZR a * PI / 18000))
      with ((CFloat.to_R (sinf (rotation_of a))
             - Rtrigo_def.sin (CFloat.to_R (rotation_of a)))
            + (Rtrigo_def.sin (CFloat.to_R (rotation_of a))
               - Rtrigo_def.sin (IZR a * PI / 18000))) by ring.
    eapply Rle_trans; [apply Rabs_triang|].
    pose proof (sin_lipschitz (CFloat.to_R (rotation_of a))
                  (IZR a * PI / 18000)). lra.
Qed.

End Lipschitz.

(** *** The accuracy of a math library, by enclosure *)

Section Enclosures.

Local Open Scope R_scope.

Lemma scale_positive : 0 < IZR Fixed.scale.
Proof. apply IZR_lt. reflexivity. Qed.

Lemma le_scale (p q : R) :
  p * IZR Fixed.scale <= q * IZR Fixed.scale -> p <= q.
Proof. intros H. exact (Rmult_le_reg_r _ _ _ scale_positive H). Qed.

Lemma floor_below (a d : Z) : (0 < d)%Z -> IZR (a / d) * IZR d <= IZR a.
Proof.
  intros Hd. rewrite <- mult_IZR. apply IZR_le.
  pose proof (Z.mul_div_le a d Hd). lia.
Qed.

Lemma cdiv_above (a d : Z) : (0 < d)%Z -> IZR a <= IZR (Fixed.cdiv a d) * IZR d.
Proof.
  intros Hd. rewrite <- mult_IZR. apply IZR_le. unfold Fixed.cdiv.
  pose proof (Z.mul_div_le (- a) d Hd). lia.
Qed.

Lemma down_below (a : Z) : IZR (Fixed.down a) * IZR Fixed.scale <= IZR a.
Proof.
  unfold Fixed.down. rewrite Z.shiftr_div_pow2 by (unfold Fixed.bits; lia).
  change (2 ^ Fixed.bits)%Z with Fixed.scale.
  apply floor_below. reflexivity.
Qed.

Lemma up_above (a : Z) : IZR a <= IZR (Fixed.up a) * IZR Fixed.scale.
Proof.
  unfold Fixed.up. rewrite Z.shiftr_div_pow2 by (unfold Fixed.bits; lia).
  change (2 ^ Fixed.bits)%Z with Fixed.scale.
  apply (cdiv_above a Fixed.scale). reflexivity.
Qed.

Lemma down_nonneg (a : Z) : (0 <= a)%Z -> (0 <= Fixed.down a)%Z.
Proof. intros Ha. unfold Fixed.down. now apply Z.shiftr_nonneg. Qed.

Lemma encloses_nonneg (I : Fixed.interval) (x : R) :
  (0 <= Fixed.lower I)%Z -> encloses I x -> 0 <= x.
Proof.
  intros Hlo [Hl _]. apply IZR_le in Hlo.
  pose proof scale_positive. apply le_scale. lra.
Qed.

Lemma encloses_of_Q (q : Q) : encloses (Fixed.of_Q q) (Q2R q).
Proof.
  unfold encloses, Fixed.of_Q, Q2R. cbn [Fixed.lower Fixed.upper].
  assert (Hd : (0 < Z.pos (Qden q))%Z) by reflexivity.
  pose proof (floor_below (Qnum q * Fixed.scale) _ Hd) as Hlo.
  pose proof (cdiv_above (Qnum q * Fixed.scale) _ Hd) as Hhi.
  rewrite mult_IZR in Hlo, Hhi.
  assert (Hp : 0 < IZR (Z.pos (Qden q))) by (apply IZR_lt; reflexivity).
  set (d := IZR (Z.pos (Qden q))) in *.
  replace (IZR (Qnum q) * / d * IZR Fixed.scale)
    with (IZR (Qnum q) * IZR Fixed.scale / d) by (field; lra).
  split.
  - apply Rmult_le_reg_r with d; [exact Hp|].
    replace (IZR (Qnum q) * IZR Fixed.scale / d * d)
      with (IZR (Qnum q) * IZR Fixed.scale) by (field; lra).
    exact Hlo.
  - apply Rmult_le_reg_r with d; [exact Hp|].
    replace (IZR (Qnum q) * IZR Fixed.scale / d * d)
      with (IZR (Qnum q) * IZR Fixed.scale) by (field; lra).
    exact Hhi.
Qed.

Lemma encloses_add (I J : Fixed.interval) (x y : R) :
  encloses I x -> encloses J y -> encloses (Fixed.add I J) (x + y).
Proof.
  unfold encloses, Fixed.add. cbn [Fixed.lower Fixed.upper].
  rewrite !plus_IZR. lra.
Qed.

Lemma encloses_sub (I J : Fixed.interval) (x y : R) :
  encloses I x -> encloses J y -> encloses (Fixed.sub I J) (x - y).
Proof.
  unfold encloses, Fixed.sub. cbn [Fixed.lower Fixed.upper].
  rewrite !minus_IZR. lra.
Qed.

Lemma encloses_double (I : Fixed.interval) (x : R) :
  encloses I x -> encloses (Fixed.double I) (2 * x).
Proof.
  unfold encloses, Fixed.double. cbn [Fixed.lower Fixed.upper].
  rewrite !mult_IZR. lra.
Qed.

Lemma encloses_one : encloses Fixed.one 1.
Proof. unfold encloses, Fixed.one. cbn [Fixed.lower Fixed.upper]. lra. Qed.

Lemma encloses_div_pos (I : Fixed.interval) (d : Z) (x : R) :
  (0 < d)%Z -> encloses I x -> encloses (Fixed.div_pos I d) (x / IZR d).
Proof.
  intros Hd [Hlo Hhi]. unfold encloses, Fixed.div_pos.
  cbn [Fixed.lower Fixed.upper].
  pose proof (floor_below (Fixed.lower I) d Hd) as Hl.
  pose proof (cdiv_above (Fixed.upper I) d Hd) as Hu.
  assert (Hp : 0 < IZR d) by (apply IZR_lt; exact Hd).
  replace (x / IZR d * IZR Fixed.scale) with (x * IZR Fixed.scale / IZR d)
    by (field; lra).
  split; apply Rmult_le_reg_r with (IZR d); try exact Hp;
    replace (x * IZR Fixed.scale / IZR d * IZR d) with (x * IZR Fixed.scale)
      by (field; lra); lra.
Qed.

Lemma div_pos_nonneg (I : Fixed.interval) (d : Z) :
  (0 < d)%Z -> (0 <= Fixed.lower I)%Z -> (0 <= Fixed.lower (Fixed.div_pos I d))%Z.
Proof. intros Hd Hlo. cbn [Fixed.div_pos Fixed.lower]. now apply Z.div_pos. Qed.

Lemma encloses_clamp (I : Fixed.interval) (x : R) :
  0 <= x -> encloses I x -> encloses (Fixed.clamp I) x.
Proof.
  intros Hx [Hlo Hhi]. unfold encloses, Fixed.clamp.
  cbn [Fixed.lower Fixed.upper]. split; [|exact Hhi].
  pose proof scale_positive.
  destruct (Z.max_spec 0 (Fixed.lower I)) as [[_ ->]|[_ ->]]; [exact Hlo|].
  apply Rmult_le_pos; lra.
Qed.

Lemma clamp_nonneg (I : Fixed.interval) : (0 <= Fixed.lower (Fixed.clamp I))%Z.
Proof. cbn [Fixed.clamp Fixed.lower]. lia. Qed.

Lemma encloses_mul_nonneg (I J : Fixed.interval) (x y : R) :
  (0 <= Fixed.lower I)%Z -> (0 <= Fixed.lower J)%Z ->
  encloses I x -> encloses J y -> encloses (Fixed.mul_nonneg I J) (x * y).
Proof.
  intros HI HJ [HIl HIu] [HJl HJu]. apply IZR_le in HI, HJ.
  unfold encloses, Fixed.mul_nonneg. cbn [Fixed.lower Fixed.upper].
  pose proof (down_below (Fixed.lower I * Fixed.lower J)) as Hd.
  pose proof (up_above (Fixed.upper I * Fixed.upper J)) as Hu.
  rewrite mult_IZR in Hd, Hu.
  pose proof scale_positive as Hs.
  split; apply le_scale.
  - apply Rle_trans with (IZR (Fixed.lower I) * IZR (Fixed.lower J));
      [exact Hd|].
    replace (x * y * IZR Fixed.scale * IZR Fixed.scale)
      with ((x * IZR Fixed.scale) * (y * IZR Fixed.scale)) by ring.
    apply Rmult_le_compat; lra.
  - apply Rle_trans with (IZR (Fixed.upper I) * IZR (Fixed.upper J));
      [|exact Hu].
    replace (x * y * IZR Fixed.scale * IZR Fixed.scale)
      with ((x * IZR Fixed.scale) * (y * IZR Fixed.scale)) by ring.
    apply Rmult_le_compat; lra.
Qed.

Lemma mul_nonneg_nonneg (I J : Fixed.interval) :
  (0 <= Fixed.lower I)%Z -> (0 <= Fixed.lower J)%Z ->
  (0 <= Fixed.lower (Fixed.mul_nonneg I J))%Z.
Proof.
  intros HI HJ. cbn [Fixed.mul_nonneg Fixed.lower].
  apply down_nonneg. now apply Z.mul_nonneg_nonneg.
Qed.

Lemma encloses_mul_mixed (I J : Fixed.interval) (x y : R) :
  (0 <= Fixed.lower I)%Z ->
  encloses I x -> encloses J y -> encloses (Fixed.mul_mixed I J) (x * y).
Proof.
  intros HI [HIl HIu] [HJl HJu]. apply IZR_le in HI.
  unfold encloses, Fixed.mul_mixed. cbn [Fixed.lower Fixed.upper].
  pose proof scale_positive as Hs.
  set (X := x * IZR Fixed.scale) in *. set (Y := y * IZR Fixed.scale) in *.
  replace (x * y * IZR Fixed.scale) with (X * Y / IZR Fixed.scale)
    by (unfold X, Y; field; lra).
  split; apply le_scale;
    replace (X * Y / IZR Fixed.scale * IZR Fixed.scale) with (X * Y)
      by (field; lra).
  - match goal with |- IZR (Fixed.down ?p) * _ <= _ =>
      apply Rle_trans with (IZR p); [apply down_below|] end.
    rewrite mult_IZR.
    destruct (Z.leb_spec 0 (Fixed.lower J)) as [HJ|HJ];
      [apply IZR_le in HJ|apply IZR_lt in HJ]; nra.
  - match goal with |- _ <= IZR (Fixed.up ?p) * _ =>
      apply Rle_trans with (IZR p); [|apply up_above] end.
    rewrite mult_IZR.
    destruct (Z.leb_spec 0 (Fixed.upper J)) as [HJ|HJ];
      [apply IZR_le in HJ|apply IZR_lt in HJ]; nra.
Qed.

Lemma encloses_cos_of_half_sin (H : Fixed.interval) (x : R) :
  (0 <= Fixed.lower H)%Z -> encloses H (Rtrigo_def.sin x) ->
  encloses (Fixed.cos_of_half_sin H) (Rtrigo_def.cos (2 * x)).
Proof.
  intros Hlo Hs. rewrite cos_2a_sin. unfold Fixed.cos_of_half_sin.
  replace (1 - 2 * Rtrigo_def.sin x * Rtrigo_def.sin x)
    with (1 - 2 * (Rtrigo_def.sin x * Rtrigo_def.sin x)) by ring.
  apply encloses_sub; [exact encloses_one|].
  apply encloses_double. now apply encloses_mul_nonneg.
Qed.

(** The terms of the series and their signs. *)

Lemma sin_magnitude_0 (a : R) : sin_magnitude a 0 = a.
Proof. unfold sin_magnitude. simpl. field. Qed.

Lemma sin_magnitude_S (a : R) (i : nat) :
  sin_magnitude a (S i)
  = sin_magnitude a i * (a * a)
    / IZR ((2 * Z.of_nat i + 1 + 1) * (2 * Z.of_nat i + 1 + 2)).
Proof.
  unfold sin_magnitude.
  replace (2 * S i + 1)%nat with (S (S (2 * i + 1))) by lia.
  set (n := (2 * i + 1)%nat).
  replace (2 * Z.of_nat i + 1 + 1)%Z with (Z.of_nat (S n)) by (unfold n; lia).
  replace (2 * Z.of_nat i + 1 + 2)%Z with (Z.of_nat (S (S n)))
    by (unfold n; lia).
  rewrite mult_IZR, <- !INR_IZR_INZ.
  rewrite (fact_simpl (S n)), (fact_simpl n), !mult_INR.
  rewrite <- !tech_pow_Rmult.
  pose proof (INR_fact_neq_0 n).
  assert (INR (S n) <> 0) by (apply not_0_INR; discriminate).
  assert (INR (S (S n)) <> 0) by (apply not_0_INR; discriminate).
  field. repeat split; assumption.
Qed.

Lemma sin_term_magnitude (a : R) (i : nat) :
  sin_term a i = (-1) ^ i * sin_magnitude a i.
Proof. reflexivity. Qed.

Lemma alternate_after_even (i : nat) : Nat.even i = true -> (-1) ^ S i = -1.
Proof.
  intros He. apply Nat.even_spec in He as [m ->]. apply pow_1_odd.
Qed.

Lemma alternate_after_odd (i : nat) : Nat.even i = false -> (-1) ^ S i = 1.
Proof.
  intros He. rewrite <- Nat.negb_odd in He. apply negb_false_iff in He.
  apply Nat.odd_spec in He as [m ->].
  replace (S (2 * m + 1)) with (2 * S m)%nat by lia. apply pow_1_even.
Qed.

Lemma sin_step_state (z : Fixed.interval) (a : R) (i : nat)
    (st : Z * bool * Fixed.interval * Fixed.interval) :
  (0 <= Fixed.lower z)%Z -> encloses z (a * a) ->
  series_state a i st -> series_state a (S i) (Fixed.sin_step z st).
Proof.
  intros Hz Hza (T & acc & -> & HT & HTa & Hacc).
  assert (Hd : (0 < (2 * Z.of_nat i + 1 + 1) * (2 * Z.of_nat i + 1 + 2))%Z)
    by lia.
  set (T' := Fixed.div_pos (Fixed.mul_nonneg T z)
               ((2 * Z.of_nat i + 1 + 1) * (2 * Z.of_nat i + 1 + 2))).
  assert (HT' : encloses T' (sin_magnitude a (S i))).
  { rewrite sin_magnitude_S. apply encloses_div_pos; [exact Hd|].
    now apply encloses_mul_nonneg. }
  exists T', (if Nat.even i then Fixed.sub acc T' else Fixed.add acc T').
  split; [|split; [|split]].
  - unfold Fixed.sin_step. fold T'.
    replace (2 * Z.of_nat (S i) + 1)%Z with (2 * Z.of_nat i + 1 + 2)%Z by lia.
    rewrite Nat.even_succ, <- Nat.negb_even. reflexivity.
  - apply div_pos_nonneg; [exact Hd|]. now apply mul_nonneg_nonneg.
  - exact HT'.
  - unfold sin_approx in *. rewrite tech5, sin_term_magnitude.
    destruct (Nat.even i) eqn:He.
    + rewrite (alternate_after_even i He).
      replace (sum_f_R0 (sin_term a) i + -1 * sin_magnitude a (S i))
        with (sum_f_R0 (sin_term a) i - sin_magnitude a (S i)) by ring.
      now apply encloses_sub.
    + rewrite (alternate_after_odd i He), Rmult_1_l.
      now apply encloses_add.
Qed.

Lemma sin_series_state (z : Fixed.interval) (a : R) (n i : nat)
    (st : Z * bool * Fixed.interval * Fixed.interval) :
  (0 <= Fixed.lower z)%Z -> encloses z (a * a) ->
  series_state a i st -> series_state a (n + i) (Fixed.sin_series n z st).
Proof.
  intros Hz Hza. revert i st. induction n as [|n IH]; intros i st Hst.
  - exact Hst.
  - cbn [Fixed.sin_series]. replace (S n + i)%nat with (n + S i)%nat by lia.
    apply IH. now apply sin_step_state.
Qed.

Lemma encloses_sin_small (A : Fixed.interval) (a : R) :
  (0 <= Fixed.lower A)%Z -> encloses A a -> a <= PI ->
  encloses (Fixed.sin_small A) (Rtrigo_def.sin a).
Proof.
  intros HA Ha Hpi.
  pose proof (encloses_nonneg A a HA Ha) as Ha0.
  assert (Hz : (0 <= Fixed.lower (Fixed.mul_nonneg A A))%Z)
    by now apply mul_nonneg_nonneg.
  assert (Hza : encloses (Fixed.mul_nonneg A A) (a * a))
    by now apply encloses_mul_nonneg.
  assert (H0 : series_state a 0 (1%Z, true, A, A)).
  { exists A, A. repeat split; try assumption.
    - rewrite sin_magnitude_0. apply Ha.
    - rewrite sin_magnitude_0. apply Ha.
    - unfold sin_approx. cbn [sum_f_R0]. rewrite sin_term_magnitude.
      rewrite sin_magnitude_0. cbn [pow]. rewrite Rmult_1_l. apply Ha.
    - unfold sin_approx. cbn [sum_f_R0]. rewrite sin_term_magnitude.
      rewrite sin_magnitude_0. cbn [pow]. rewrite Rmult_1_l. apply Ha. }
  pose proof (sin_series_state _ a 7 0 _ Hz Hza H0) as H7.
  pose proof (sin_step_state _ a _ _ Hz Hza H7) as H8.
  destruct (sin_bound a 3 Ha0 Hpi) as [Hlo Hhi].
  change (2 * 3 + 1)%nat with 7%nat in Hlo.
  change (2 * (3 + 1))%nat with 8%nat in Hhi.
  change (7 + 0)%nat with 7%nat in H7, H8.
  unfold Fixed.sin_small. cbn zeta.
  destruct H7 as (T7 & acc7 & E7 & _ & _ & [L7 _]).
  destruct H8 as (T8 & acc8 & E8 & _ & _ & [_ U8]).
  rewrite E8. rewrite E7. cbn [snd].
  apply encloses_clamp; [apply sin_ge_0; assumption|].
  pose proof scale_positive as Hs.
  unfold encloses. cbn [Fixed.lower Fixed.upper]. split.
  - apply Rle_trans with (sin_approx a 7 * IZR Fixed.scale); [exact L7|].
    apply Rmult_le_compat_r; lra.
  - apply Rle_trans with (sin_approx a 8 * IZR Fixed.scale); [|exact U8].
    apply Rmult_le_compat_r; lra.
Qed.

Lemma encloses_sin_cos (X : Fixed.interval) (x : R) :
  (0 <= Fixed.lower X)%Z -> encloses X x -> x <= 2 * PI ->
  encloses (fst (Fixed.sin_cos X)) (Rtrigo_def.sin x)
  /\ encloses (snd (Fixed.sin_cos X)) (Rtrigo_def.cos x).
Proof.
  intros HX Hx Hpi.
  pose proof (encloses_nonneg X x HX Hx) as Hx0.
  pose proof PI_RGT_0 as Hpos.
  unfold Fixed.sin_cos. cbn zeta. cbn [fst snd].
  set (s0 := Fixed.sin_small (Fixed.div_pos X 8)).
  set (s1 := Fixed.sin_small (Fixed.div_pos X 4)).
  assert (Hs0 : encloses s0 (Rtrigo_def.sin (x / 8))).
  { apply encloses_sin_small.
    - apply div_pos_nonneg; [reflexivity|exact HX].
    - apply (encloses_div_pos X 8 x); [reflexivity|exact Hx].
    - lra. }
  assert (Hs1 : encloses s1 (Rtrigo_def.sin (x / 4))).
  { apply encloses_sin_small.
    - apply div_pos_nonneg; [reflexivity|exact HX].
    - apply (encloses_div_pos X 4 x); [reflexivity|exact Hx].
    - lra. }
  assert (Hn0 : (0 <= Fixed.lower s0)%Z) by apply clamp_nonneg.
  assert (Hn1 : (0 <= Fixed.lower s1)%Z) by apply clamp_nonneg.
  assert (Hc1 : encloses (Fixed.cos_of_half_sin s0) (Rtrigo_def.cos (x / 4))).
  { replace (x / 4) with (2 * (x / 8)) by field.
    now apply encloses_cos_of_half_sin. }
  set (s2 := Fixed.clamp
               (Fixed.double (Fixed.mul_mixed s1 (Fixed.cos_of_half_sin s0)))).
  assert (Hs2 : encloses s2 (Rtrigo_def.sin (x / 2))).
  { apply encloses_clamp; [apply sin_ge_0; lra|].
    replace (x / 2) with (2 * (x / 4)) by field. rewrite sin_2a.
    replace (2 * Rtrigo_def.sin (x / 4) * Rtrigo_def.cos (x / 4))
      with (2 * (Rtrigo_def.sin (x / 4) * Rtrigo_def.cos (x / 4))) by ring.
    apply encloses_double. now apply encloses_mul_mixed. }
  assert (Hn2 : (0 <= Fixed.lower s2)%Z) by apply clamp_nonneg.
  assert (Hc2 : encloses (Fixed.cos_of_half_sin s1) (Rtrigo_def.cos (x / 2))).
  { replace (x / 2) with (2 * (x / 4)) by field.
    now apply encloses_cos_of_half_sin. }
  split.
  - replace x with (2 * (x / 2)) at 1 by field. rewrite sin_2a.
    replace (2 * Rtrigo_def.sin (x / 2) * Rtrigo_def.cos (x / 2))
      with (2 * (Rtrigo_def.sin (x / 2) * Rtrigo_def.cos (x / 2))) by ring.
    apply encloses_double. now apply encloses_mul_mixed.
  - replace x with (2 * (x / 2)) at 1 by field.
    now apply encloses_cos_of_half_sin.
Qed.

Lemma close_within (I J : Fixed.interval) (v c : R) (tol : Q) :
  encloses I v -> encloses J c ->
  Fixed.close I J (Fixed.lower (Fixed.of_Q tol)) = true ->
  Rabs (v - c) <= Q2R tol.
Proof.
  intros [HIl HIu] [HJl HJu] Hclose.
  apply andb_true_iff in Hclose as [H1 H2].
  apply Z.leb_le, IZR_le in H1. apply Z.leb_le, IZR_le in H2.
  rewrite minus_IZR in H1, H2.
  destruct (encloses_of_Q tol) as [Htol _].
  pose proof scale_positive as Hs.
  apply Rabs_le. split; apply le_scale; lra.
Qed.

(** The test is sound: where it succeeds, the library is accurate to the
    tolerance. *)
Lemma heading_trig_within_sound (libm : Libm) (a : Z) :
  heading_trig_within libm a = true ->
  accurate_at libm (Q2R trig_tolerance) a.
Proof.
  unfold heading_trig_within. cbn zeta. intros H.
  apply andb_true_iff in H as [H Hsin].
  apply andb_true_iff in H as [H Hcos].
  apply andb_true_iff in H as [H Hfs].
  apply andb_true_iff in H as [H Hfc].
  apply andb_true_iff in H as [Hlo Hhi].
  apply Z.leb_le in Hlo. apply Z.leb_le, IZR_le in Hhi.
  rewrite !mult_IZR in Hhi.
  pose proof (encloses_of_Q (CFloat.to_Q (rotation_of a))) as HX.
  fold (CFloat.to_R (rotation_of a)) in HX.
  assert (Hpi : CFloat.to_R (rotation_of a) <= 2 * PI).
  { pose proof PI_lower as Hp. unfold PI_lo, Q2R in Hp. cbn [Qnum Qden] in Hp.
    destruct HX as [_ Hu]. apply le_scale.
    unfold Fixed.scale in *. lra. }
  destruct (encloses_sin_cos _ _ Hlo HX Hpi) as [Es Ec].
  split; (split; [assumption|]).
  - exact (close_within _ _ _ _ _ (encloses_of_Q _) Ec Hcos).
  - exact (close_within _ _ _ _ _ (encloses_of_Q _) Es Hsin).
Qed.

End Enclosures.

(** Checked by evaluation on each of the 3600 tenths of a degree. *)
Lemma tenth_degrees_within :
  forallb (heading_trig_within Taylor.libm) tenth_degrees = true.
Proof. vm_compute. reflexivity. Qed.

(** The accuracy that [table_entry_accuracy] asks of the math library is
    that of the Taylor library: at every tenth of a degree its [cosf] and
    [sinf] are within 2^-24 of the cosine and the sine of the heading. *)
Lemma taylor_accurate_at_tenths (k : Z) :
  0 <= k < 3600 ->
  accurate_at Taylor.libm (Q2R trig_tolerance) (10 * k).
Proof.
  intros Hk. apply heading_trig_within_sound.
  pose proof tenth_degrees_within as Hall. rewrite forallb_forall in Hall.
  apply Hall. unfold tenth_degrees. apply in_map.
  apply units_from_spec. lia.
Qed.

Section LookupTables.

Context {libm : Libm}.

(** With an initialized calibration [setup] returns 0 and the object that
    the table loop leaves. *)
Lemma setup_fills (this : RawData) (param : option string)
    (pkgPath : string) (read : string -> Calibration) :
  initialized (read (calibration_path param pkgPath)) = true ->
  exists this0, setup this param pkgPath read = (0, fill_tables this0).
Proof.
  unfold setup, calibration_path.
  cbn [config_ calibration_ set_config set_calibration calibrationFile
       set_calibrationFile].
  intros ->. cbn [negb]. eexists. reflexivity.
Qed.

Lemma azimuth_trig_filled (this : RawData) (a : Z) (c : PandarLaserCorrection) :
  0 <= a < ROTATION_MAX_UNITS ->
  (azimuthCorrection c =? 0)%float = true ->
  azimuth_trig (fill_tables this) a c
  = Done (cosf (rotation_of a), sinf (rotation_of a)).
Proof.
  intros Ha Hzero. unfold azimuth_trig. rewrite Hzero.
  destruct (fill_tables_read this a Ha) as [-> ->]. reflexivity.
Qed.

(** C8: when the calibration that [setup] reads is initialized, [setup]
    returns 0 and leaves lookup tables with one entry per azimuth unit of a
    revolution, 36000 at 0.01 degree: the units of [0, 36000) are read, any
    other index is out of bounds.  For every azimuth unit [a] in [0, 36000)
    the stored cosine and sine are the single-precision [cosf] and [sinf] of
    the single-precision heading of [a], and that heading is within 2^-20 of
    a * 0.01 degrees converted to radians; so where the math library is
    accurate to [eps] at that heading, the stored values are finite and
    within [eps + 2^-20] of the cosine and the sine of that angle.  When the
    [azimuthCorrection] of a laser is zero, the point corrector takes
    exactly these two table entries at the block azimuth as its cosine and
    sine. *)
Theorem lookup_tables_after_setup (this : RawData) (param : option string)
    (pkgPath : string) (read : string -> Calibration) (a : Z) :
  initialized (read (calibration_path param pkgPath)) = true ->
  0 <= a < ROTATION_MAX_UNITS ->
  let this' := snd (setup this param pkgPath read) in
  fst (setup this param pkgPath read) = 0
  /\ ROTATION_MAX_UNITS = 36000
  /\ table_read (cos_lookup_table_ this') a = Done (cosf (rotation_of a))
  /\ table_read (sin_lookup_table_ this') a = Done (sinf (rotation_of a))
  /\ (forall b, ~ 0 <= b < ROTATION_MAX_UNITS ->
        table_read (cos_lookup_table_ this') b = OutOfBounds b
        /\ table_read (sin_lookup_table_ this') b = OutOfBounds b)
  /\ (Rabs (CFloat.to_R (rotation_of a) - IZR a * PI / 18000)
      <= Q2R heading_tolerance)%R
  /\ (forall eps, accurate_at libm eps a ->
        CFloat.finite (cosf (rotation_of a)) = true
        /\ CFloat.finite (sinf (rotation_of a)) = true
        /\ (Rabs (CFloat.to_R (cosf (rotation_of a))
                  - Rtrigo_def.cos (IZR a * PI / 18000))
            <= eps + Q2R heading_tolerance)%R
        /\ (Rabs (CFloat.to_R (sinf (rotation_of a))
                  - Rtrigo_def.sin (IZR a * PI / 18000))
            <= eps + Q2R heading_tolerance)%R)
  /\ (forall c, (azimuthCorrection c =? 0)%float = true ->
        azimuth_trig this' a c
        = Done (cosf (rotation_of a), sinf (rotation_of a))).
Proof.
  intros Hinit Ha. cbn zeta.
  destruct (setup_fills this param pkgPath read Hinit) as (this0 & ->).
  cbn [fst snd].
  destruct (fill_tables_read this0 a Ha) as [Hcos Hsin].
  split; [reflexivity|]. split; [reflexivity|].
  split; [exact Hcos|]. split; [exact Hsin|]. split.
  { intros b Hb. split; apply table_read_out_of_bounds; exact Hb. }
  split; [exact (proj2 (heading_real a Ha))|]. split.
  - intros eps Hacc.
    destruct (table_entry_accuracy libm eps a Hacc Ha) as [[Hfc Hc] [Hfs Hs]].
    repeat split; assumption.
  - intros c Hzero. exact (azimuth_trig_filled this0 a c Ha Hzero).
Qed.

End LookupTables.

Lemma lookup_tables_after_setup_witness :
  let called :=
    setup (libm := Taylor.libm) Pandar40.fresh None ""
      (fun _ => Pandar40.calibration Pandar40.plain_correction) in
  fst called = 0
  /\ table_read (cos_lookup_table_ (snd called)) 3000
     = Done 0x1.bb67aep-1%float
  /\ table_read (sin_lookup_table_ (snd called)) 3000 = Done 0.5%float
  /\ (Rabs (CFloat.to_R 0x1.bb67aep-1 - Rtrigo_def.cos (3000 * PI / 18000))
      <= Q2R trig_tolerance + Q2R heading_tolerance)%R
  /\ (Rabs (CFloat.to_R 0.5 - Rtrigo_def.sin (3000 * PI / 18000))
      <= Q2R trig_tolerance + Q2R heading_tolerance)%R.
Proof.
  assert (Hc : cosf (Libm := Taylor.libm) (rotation_of 3000)
               = 0x1.bb67aep-1%float) by (vm_compute; reflexivity).
  assert (Hs : sinf (Libm := Taylor.libm) (rotation_of 3000) = 0.5%float)
    by (vm_compute; reflexivity).
  assert (Ha : 0 <= 3000 < ROTATION_MAX_UNITS)
    by (unfold ROTATION_MAX_UNITS; lia).
  assert (Hk : 0 <= 300 < 3600) by lia.
  cbn zeta.
  destruct (lookup_tables_after_setup (libm := Taylor.libm) Pandar40.fresh
              None "" (fun _ => Pandar40.calibration Pandar40.plain_correction)
              3000 eq_refl Ha)
    as (Hret & _ & Hcos & Hsin & _ & _ & Hacc & _).
  destruct (Hacc _ (taylor_accurate_at_tenths 300 Hk)) as (_ & _ & Ac & As).
  rewrite Hc in Hcos, Ac. rewrite Hs in Hsin, As.
  exact (conj Hret (conj Hcos (conj Hsin (conj Ac As)))).
Defined.

(** ** The example scenario of section 8

    One block of two lasers; laser 0 reports azimuth 0, range 25000 (50 m)
    and reflectivity 0x1234; the window is [0.5 m, 100 m], the calibration
    has no offsets, [cosVertCorrection] 1 and [sinVertCorrection] 0.  The
    cloud gets the point (0, 50, 0) with intensity 0x12 and ring 0; laser 1,
    which reports nothing, gives no point. *)
Example example_scenario {libm : Libm} :
  exact_at_zero libm ->
  toPointClouds 1 2 (Pandar40.ready_with Pandar40.plain_correction 0.5 100)
    Pandar40.stale_packet Pandar40.empty_cloud
  = Done {| points := [ {| x := 0; y := 50; z := 0;
                           intensity := 0x12; ring := 0 |} ];
            width := 1 |}.
Proof.
  intros Hexact.
  rewrite (toPointClouds_same_inputs _ _ _ _ _ _
             (same_inputs_trans _ _ _
                (ready_with_tabulated Pandar40.plain_correction 0.5 100)
                (tabulated_north_same_inputs _ _ Hexact))).
  vm_compute. reflexivity.
Qed.

(** ** Packets of the wrong size *)

Lemma unpack_size_mismatch {libm : Libm}
    (BLOCKS_PER_PACKET LASER_COUNT RESERVE_SIZE : nat) (this : RawData)
    (stack : raw_packet_t) (pkt : PandarPacket) (pc : PPointCloud) :
  CInt.to_int (Z.of_nat (length (data pkt)))
  <> PACKET_SIZE BLOCKS_PER_PACKET LASER_COUNT RESERVE_SIZE ->
  unpack BLOCKS_PER_PACKET LASER_COUNT RESERVE_SIZE this stack pkt pc
  = toPointClouds BLOCKS_PER_PACKET LASER_COUNT this stack pc.
Proof.
  intros Hlen. unfold unpack.
  now rewrite parseRawData_size_mismatch by assumption.
Qed.



(** * Further properties of the driver *)

(** ** What the parser reads *)

Lemma le_uint_ext (buf1 buf2 : buffer) (n : nat) (off : Z) :
  (forall k, off <= k < off + Z.of_nat n -> byte_at buf1 k = byte_at buf2 k) ->
  le_uint buf1 off n = le_uint buf2 off n.
Proof.
  revert off. induction n as [|n IH]; intros off Hext; [reflexivity|].
  cbn [le_uint]. rewrite (Hext off) by lia. rewrite (IH (off + 1)); [reflexivity|].
  intros k Hk. apply Hext. lia.
Qed.

Section ParseReads.

Variables BLOCKS_PER_PACKET LASER_COUNT RESERVE_SIZE : nat.
Variables buf1 buf2 : buffer.

Local Abbreviation BS := (BLOCK_SIZE LASER_COUNT).

Lemma parse_measures_ext (n : nat) (index : Z) (block : raw_block_t) :
  0 <= index -> index + 5 * Z.of_nat n <= CInt.INT_MAX ->
  (forall k, index <= k < index + 5 * Z.of_nat n ->
     byte_at buf1 k = byte_at buf2 k) ->
  for_loop n (parse_measure_step buf1) (index, block)
  = for_loop n (parse_measure_step buf2) (index, block).
Proof.
  intros Hi. induction n as [|n IH]; intros Hmax Hext; [reflexivity|].
  rewrite !for_loop_S, IH by (try lia; intros k Hk; apply Hext; lia).
  destruct (parse_measures_spec buf2 n index block) as (b & -> & _); [lia|lia|].
  rewrite !parse_measure_step_spec by lia.
  rewrite (le_uint_ext buf1 buf2 3), (le_uint_ext buf1 buf2 2);
    [reflexivity| |]; intros k Hk; apply Hext; lia.
Qed.

Lemma parse_block_step_ext (i : nat) (index : Z) (packet : raw_packet_t) :
  0 <= index -> index + BS <= CInt.INT_MAX ->
  (forall k, index <= k < index + BS -> byte_at buf1 k = byte_at buf2 k) ->
  parse_block_step LASER_COUNT buf1 i (index, packet)
  = parse_block_step LASER_COUNT buf2 i (index, packet).
Proof.
  unfold BLOCK_SIZE, RAW_MEASURE_SIZE, SOB_ANGLE_SIZE.
  intros Hi Hmax Hext. unfold parse_block_step.
  rewrite !int_add_id by (unfold SOB_ANGLE_SIZE; lia).
  unfold SOB_ANGLE_SIZE.
  rewrite !(Hext index), !(Hext (index + 1)), !(Hext (index + 2)),
    !(Hext (index + 3)) by lia.
  rewrite parse_measures_ext; [reflexivity|lia|lia|].
  intros k Hk. apply Hext. lia.
Qed.

Lemma parse_blocks_ext (n : nat) (packet : raw_packet_t) :
  Z.of_nat n * BS <= CInt.INT_MAX ->
  (forall k, 0 <= k < Z.of_nat n * BS -> byte_at buf1 k = byte_at buf2 k) ->
  for_loop n (parse_block_step LASER_COUNT buf1) (0, packet)
  = for_loop n (parse_block_step LASER_COUNT buf2) (0, packet).
Proof.
  assert (HBS : 0 <= BS)
    by (unfold BLOCK_SIZE, RAW_MEASURE_SIZE, SOB_ANGLE_SIZE; lia).
  induction n as [|n IH]; intros Hmax Hext; [reflexivity|].
  rewrite Nat2Z.inj_succ in Hmax, Hext.
  rewrite !for_loop_S, IH by (try lia; intros k Hk; apply Hext; lia).
  destruct (parse_blocks_spec LASER_COUNT buf2 n packet) as (p & -> & _); [lia|].
  apply parse_block_step_ext; try lia.
  intros k Hk. apply Hext. lia.
Qed.

(** X1: [parseRawData] reads the bytes of the fields and no others.  Two
    buffers that agree at every offset below [len], the reserved region
    excepted, parse to the same status code and the same packet: nothing at or
    beyond [len] is read, and the reserved bytes are skipped unread. *)
Theorem parseRawData_reads_only_fields
    (packet : raw_packet_t) (len : Z) :
  len <= CInt.INT_MAX ->
  (forall off, 0 <= off < len ->
     ~ reserved_offset BLOCKS_PER_PACKET LASER_COUNT RESERVE_SIZE off ->
     byte_at buf1 off = byte_at buf2 off) ->
  parseRawData BLOCKS_PER_PACKET LASER_COUNT RESERVE_SIZE packet buf1 len
  = parseRawData BLOCKS_PER_PACKET LASER_COUNT RESERVE_SIZE packet buf2 len.
Proof.
  intros Hmax Hext. unfold parseRawData.
  destruct (Z.eqb_spec len (PACKET_SIZE BLOCKS_PER_PACKET LASER_COUNT RESERVE_SIZE))
    as [Hlen|Hlen]; cbn [negb]; [|reflexivity].
  subst len.
  unfold reserved_offset, tail_offset in Hext.
  unfold PACKET_SIZE, INFO_SIZE, TIMESTAMP_SIZE, FACTORY_ID_SIZE,
    REVOLUTION_SIZE in *.
  assert (HBS : 0 <= BS)
    by (unfold BLOCK_SIZE, RAW_MEASURE_SIZE, SOB_ANGLE_SIZE; lia).
  assert (Hblocks : 0 <= BS * Z.of_nat BLOCKS_PER_PACKET)
    by (apply Z.mul_nonneg_nonneg; lia).
  rewrite parse_blocks_ext by (try lia; intros k Hk; apply Hext; lia).
  destruct (parse_blocks_spec LASER_COUNT buf2 BLOCKS_PER_PACKET packet)
    as (p & -> & _); [lia|].
  rewrite !int_add_id by lia.
  set (t := Z.of_nat BLOCKS_PER_PACKET * BS + Z.of_nat RESERVE_SIZE) in *.
  rewrite !(Hext t), !(Hext (t + 1)), !(Hext (t + 2)), !(Hext (t + 2 + 1)),
    !(Hext (t + 2 + 2)), !(Hext (t + 2 + 3)), !(Hext (t + 2 + 4)),
    !(Hext (t + 2 + 4 + 1)) by lia.
  reflexivity.
Qed.

End ParseReads.

Lemma padded_buffer_agrees :
  forallb (fun off => byte_at Pandar40.sentinel_buffer off
                      =? byte_at Pandar40.padded_buffer off)
    (units_from 1224 0 ++ units_from 8 1232) = true.
Proof. vm_compute. reflexivity. Qed.

Lemma parseRawData_reads_only_fields_witness :
  parseRawData Pandar40.BLOCKS Pandar40.LASERS Pandar40.RESERVE
    Pandar40.blank_packet Pandar40.sentinel_buffer 1240
  = parseRawData Pandar40.BLOCKS Pandar40.LASERS Pandar40.RESERVE
      Pandar40.blank_packet Pandar40.padded_buffer 1240.
Proof.
  apply (parseRawData_reads_only_fields Pandar40.BLOCKS Pandar40.LASERS
           Pandar40.RESERVE Pandar40.sentinel_buffer Pandar40.padded_buffer
           Pandar40.blank_packet 1240).
  - unfold CInt.INT_MAX. lia.
  - intros off Hoff Hres.
    assert (Htail : tail_offset Pandar40.BLOCKS Pandar40.LASERS Pandar40.RESERVE
                    = 1232) by (vm_compute; reflexivity).
    unfold reserved_offset in Hres. rewrite Htail in Hres.
    change (Z.of_nat Pandar40.RESERVE) with 8 in Hres.
    pose proof padded_buffer_agrees as Hall.
    rewrite forallb_forall in Hall. apply Z.eqb_eq, Hall, in_or_app.
    destruct (Z_lt_ge_dec off 1224) as [Hlo|Hhi].
    + left. apply units_from_spec. lia.
    + right. apply units_from_spec. lia.
Defined.

(** ** Value ranges *)

Lemma filter_measure_valid (m : raw_measure_t) :
  ~ invalid_return (filter_measure m).
Proof.
  unfold filter_measure. destruct (invalid_returnb m) eqn:Hinv.
  - unfold invalid_return, zeroed_measure. cbn [range reflectivity]. lia.
  - intros H. apply invalid_returnb_true in H. congruence.
Qed.

Lemma filter_measure_range (m : raw_measure_t) :
  0 <= range m -> 0 <= reflectivity m < 65536 ->
  0 <= range (filter_measure m) <= 100000
  /\ 0 <= reflectivity (filter_measure m) < 65536.
Proof.
  intros Hr Hf. pose proof (filter_measure_valid m) as Hv.
  unfold filter_measure in *. destruct (invalid_returnb m).
  - cbn. lia.
  - unfold invalid_return in Hv. lia.
Qed.

Section ParseRanges.

Variables BLOCKS_PER_PACKET LASER_COUNT RESERVE_SIZE : nat.

(** X2: after a correctly sized call every stored field fits its declared
    type: markers, azimuths, reflectivities and the revolution counter are
    below 2^16, the timestamp below 2^32, the factory bytes below 2^8; every
    stored range is at most 100000 units (200 m), and no stored measurement is
    an invalid return any more.  The azimuth is bounded by 65535 only, not by
    the 36000 cells of the lookup tables. *)
Theorem parseRawData_fields_in_range
    (packet : raw_packet_t) (buf : buffer) (len : Z) :
  correctly_sized BLOCKS_PER_PACKET LASER_COUNT RESERVE_SIZE buf len ->
  let packet' :=
    snd (parseRawData BLOCKS_PER_PACKET LASER_COUNT RESERVE_SIZE packet buf len) in
  (forall i j, (i < BLOCKS_PER_PACKET)%nat -> (j < LASER_COUNT)%nat ->
     0 <= sob (blocks packet' i) < 65536
     /\ 0 <= azimuth (blocks packet' i) < 65536
     /\ 0 <= range (measures (blocks packet' i) j) <= 100000
     /\ 0 <= reflectivity (measures (blocks packet' i) j) < 65536
     /\ ~ invalid_return (measures (blocks packet' i) j))
  /\ 0 <= revolution packet' < 65536
  /\ 0 <= timestamp packet' < 4294967296
  /\ 0 <= factory packet' 0 < 256
  /\ 0 <= factory packet' 1 < 256.
Proof.
  intros (Hbuf & Hlen & Hmax) packet'.
  destruct (parseRawData_decodes BLOCKS_PER_PACKET LASER_COUNT RESERVE_SIZE
              packet buf len Hlen Hmax)
    as (p & Hparse & Hblocks & Hrev & Hts & Hf0 & Hf1).
  subst packet'. rewrite Hparse. cbn [snd].
  rewrite Hrev, Hts, Hf0, Hf1.
  split; [|repeat split; apply le_uint_bound].
  intros i j Hi Hj. destruct (Hblocks i Hi) as (-> & -> & Hms).
  rewrite (Hms j Hj).
  pose proof (le_uint_bound buf 2 (block_offset LASER_COUNT i)).
  pose proof (le_uint_bound buf 2 (block_offset LASER_COUNT i + 2)).
  pose proof (le_uint_bound buf 3 (measure_offset LASER_COUNT i j)).
  pose proof (le_uint_bound buf 2 (measure_offset LASER_COUNT i j + 3)).
  change (256 ^ Z.of_nat 2) with 65536 in *.
  change (256 ^ Z.of_nat 3) with 16777216 in *.
  destruct (filter_measure_range (wire_measure LASER_COUNT buf i j))
    as [Hr Hf]; [unfold wire_measure; cbn [range reflectivity]; lia ..|].
  repeat split; try lia. apply filter_measure_valid.
Qed.

End ParseRanges.

Lemma parseRawData_fields_in_range_witness :
  0 <= azimuth (blocks (snd
         (parseRawData Pandar40.BLOCKS Pandar40.LASERS Pandar40.RESERVE
            Pandar40.blank_packet Pandar40.sentinel_buffer 1240)) 2) < 65536
  /\ 0 <= range (measures (blocks (snd
         (parseRawData Pandar40.BLOCKS Pandar40.LASERS Pandar40.RESERVE
            Pandar40.blank_packet Pandar40.sentinel_buffer 1240)) 2) 5) <= 100000.
Proof.
  destruct (parseRawData_fields_in_range Pandar40.BLOCKS Pandar40.LASERS
              Pandar40.RESERVE Pandar40.blank_packet Pandar40.sentinel_buffer
              1240 pandar40_sentinel_buffer_sized) as [Hblocks _].
  destruct (Hblocks 2%nat 5%nat) as (_ & Haz & Hr & _).
  - unfold Pandar40.BLOCKS. lia.
  - unfold Pandar40.LASERS. lia.
  - exact (conj Haz Hr).
Defined.

(** ** What the parser writes *)

Section ParseFrame.

Variables BLOCKS_PER_PACKET LASER_COUNT RESERVE_SIZE : nat.
Variable buf : buffer.





End ParseFrame.

(** ** [unpack] on a correctly sized packet *)

Lemma for_loopM_ext_lt {S : Type} (n : nat) (f g : nat -> S -> outcome S) (s : S) :
  (forall i s', (i < n)%nat -> f i s' = g i s') ->
  for_loopM n f s = for_loopM n g s.
Proof.
  induction n as [|n IH]; intros Hfg; [reflexivity|].
  rewrite !for_loopM_S, IH by (intros; apply Hfg; lia).
  apply bind_ext. intros a. apply Hfg. lia.
Qed.

Section UnpackSized.

Variables BLOCKS_PER_PACKET LASER_COUNT RESERVE_SIZE : nat.
Context {libm : Libm}.

(** The converter reads the azimuth and the measures of the blocks, within
    the counts, and nothing else of the packet. *)
Lemma toPointClouds_reads (this : RawData) (p1 p2 : raw_packet_t)
    (pc : PPointCloud) :
  (forall i, (i < BLOCKS_PER_PACKET)%nat ->
     azimuth (blocks p1 i) = azimuth (blocks p2 i)
     /\ forall j, (j < LASER_COUNT)%nat ->
          measures (blocks p1 i) j = measures (blocks p2 i) j) ->
  toPointClouds BLOCKS_PER_PACKET LASER_COUNT this p1 pc
  = toPointClouds BLOCKS_PER_PACKET LASER_COUNT this p2 pc.
Proof.
  intros Hsame. unfold toPointClouds.
  apply for_loopM_ext_lt. intros i pc' Hi.
  destruct (Hsame i Hi) as [Haz Hms].
  apply for_loopM_ext_lt. intros j pc'' Hj.
  unfold toPointClouds_step. now rewrite Haz, (Hms j Hj).
Qed.

(** X4: on a correctly sized packet the result of [unpack] does not
    depend on what the storage of its uninitialised local packet held: the
    parser overwrites every field that the converter reads. *)
Theorem unpack_ignores_stack (this : RawData) (stack1 stack2 : raw_packet_t)
    (pkt : PandarPacket) (pc : PPointCloud) :
  correctly_sized BLOCKS_PER_PACKET LASER_COUNT RESERVE_SIZE (data pkt)
    (Z.of_nat (length (data pkt))) ->
  unpack BLOCKS_PER_PACKET LASER_COUNT RESERVE_SIZE this stack1 pkt pc
  = unpack BLOCKS_PER_PACKET LASER_COUNT RESERVE_SIZE this stack2 pkt pc.
Proof.
  intros (_ & Hlen & Hmax). unfold unpack.
  rewrite to_int_id
    by (pose proof (Nat2Z.is_nonneg (length (data pkt)));
        unfold CInt.INT_MIN, CInt.INT_MAX in *; lia).
  destruct (parseRawData_decodes BLOCKS_PER_PACKET LASER_COUNT RESERVE_SIZE
              stack1 (data pkt) _ Hlen Hmax) as (p1 & -> & Hb1 & _).
  destruct (parseRawData_decodes BLOCKS_PER_PACKET LASER_COUNT RESERVE_SIZE
              stack2 (data pkt) _ Hlen Hmax) as (p2 & -> & Hb2 & _).
  apply toPointClouds_reads. intros i Hi.
  destruct (Hb1 i Hi) as (_ & -> & Hm1). destruct (Hb2 i Hi) as (_ & -> & Hm2).
  split; [reflexivity|]. intros j Hj. now rewrite Hm1, Hm2.
Qed.

End UnpackSized.

Lemma unpack_ignores_stack_witness :
  unpack (libm := Taylor.libm) Pandar40.BLOCKS Pandar40.LASERS Pandar40.RESERVE
    (Pandar40.ready Pandar40.plain_correction 0.5 100) Pandar40.blank_packet
    {| stamp := 0; data := Pandar40.sentinel_buffer |} Pandar40.empty_cloud
  = unpack (libm := Taylor.libm) Pandar40.BLOCKS Pandar40.LASERS Pandar40.RESERVE
      (Pandar40.ready Pandar40.plain_correction 0.5 100) Pandar40.stale_packet
      {| stamp := 0; data := Pandar40.sentinel_buffer |} Pandar40.empty_cloud.
Proof.
  apply (unpack_ignores_stack Pandar40.BLOCKS Pandar40.LASERS Pandar40.RESERVE
           (libm := Taylor.libm)).
  cbn [data].
  replace (Z.of_nat (length Pandar40.sentinel_buffer)) with 1240
    by (vm_compute; reflexivity).
  exact pandar40_sentinel_buffer_sized.
Defined.

(** ** Reads beyond the lookup tables *)

Section Faults.

Context {libm : Libm}.

Lemma azimuth_trig_fault_iff (this : RawData) (azimuth : Z)
    (c : PandarLaserCorrection) (index : Z) :
  azimuth_trig this azimuth c = OutOfBounds index
  <-> (azimuthCorrection c =? 0)%float = true
      /\ ~ 0 <= azimuth < ROTATION_MAX_UNITS /\ index = azimuth.
Proof.
  unfold azimuth_trig. destruct (azimuthCorrection c =? 0)%float.
  - destruct (Z_le_dec 0 azimuth) as [Hlo|Hlo];
      [destruct (Z_lt_dec azimuth ROTATION_MAX_UNITS) as [Hhi|Hhi]|].
    + rewrite !table_read_in_bounds by lia. cbn [bind].
      split; [discriminate|]. intros (_ & Hout & _). lia.
    + rewrite table_read_out_of_bounds by lia. cbn [bind].
      split; [intros [= <-]; repeat split; lia|now intros (_ & _ & ->)].
    + rewrite table_read_out_of_bounds by lia. cbn [bind].
      split; [intros [= <-]; repeat split; lia|now intros (_ & _ & ->)].
  - split; [discriminate|]. intros (Hz & _). discriminate.
Qed.

Lemma computeXYZIR_fault (this : RawData) (point : PPoint)
    (azimuth : Z) (m : raw_measure_t) (c : PandarLaserCorrection) (index : Z) :
  computeXYZIR this point azimuth m c = OutOfBounds index
  <-> reads_beyond_tables this azimuth m c /\ index = azimuth.
Proof.
  rewrite computeXYZIR_steps. unfold reads_beyond_tables.
  destruct (outside_window (config_ this) (distance_of m)).
  - split; [discriminate|]. intros ((Hw & _) & _). discriminate.
  - destruct (azimuth_trig this azimuth c) as [trig|idx] eqn:Htrig.
    + cbn [bind]. split.
      * destruct (is_origin _); discriminate.
      * intros ((_ & Hz & Hout) & ->).
        assert (Hf : azimuth_trig this azimuth c = OutOfBounds azimuth)
          by (apply azimuth_trig_fault_iff; auto).
        congruence.
    + cbn [bind]. apply azimuth_trig_fault_iff in Htrig as (Hz & Hout & ->).
      split.
      * intros [= <-]. auto.
      * now intros (_ & ->).
Qed.

(** X5: [computeXYZIR] reads a lookup table beyond its extent exactly when
    the distance passes the range window, the channel has a zero
    [azimuthCorrection] and the azimuth is outside [0, 36000); the offending
    index is then the azimuth.  In every other case it returns a point: a
    return outside the window and a channel with a non-zero
    [azimuthCorrection] never touch the tables. *)
Theorem computeXYZIR_fault_iff (this : RawData) (point : PPoint)
    (azimuth : Z) (m : raw_measure_t) (c : PandarLaserCorrection) :
  (forall index,
     computeXYZIR this point azimuth m c = OutOfBounds index
     <-> reads_beyond_tables this azimuth m c /\ index = azimuth)
  /\ ((exists p, computeXYZIR this point azimuth m c = Done p)
      <-> ~ reads_beyond_tables this azimuth m c).
Proof.
  split; [intros index; apply computeXYZIR_fault|].
  split.
  - intros [p Hp] Hbad.
    assert (Hf := proj2 (computeXYZIR_fault this point azimuth m c azimuth)
                    (conj Hbad eq_refl)).
    congruence.
  - intros Hok.
    destruct (computeXYZIR this point azimuth m c) as [p|idx] eqn:Hp;
      [now exists p|].
    apply computeXYZIR_fault in Hp as [Hbad _]. contradiction.
Qed.

End Faults.

Lemma collect_fault_inv {A B : Type} (f : A -> outcome B) (l : list A)
    (index : Z) :
  collect f l = OutOfBounds index ->
  exists a, In a l /\ f a = OutOfBounds index.
Proof.
  induction l as [|a l IH]; cbn [collect]; [discriminate|].
  destruct (f a) as [b|idx] eqn:Hfa; cbn [bind].
  - destruct (collect f l) as [bs|idx]; cbn [bind]; [discriminate|].
    intros [= ->]. destruct (IH eq_refl) as (a' & Hin & Ha').
    exists a'. split; [now right|assumption].
  - intros [= ->]. exists a. split; [now left|assumption].
Qed.

Lemma collect_fault_intro {A B : Type} (f : A -> outcome B) (l : list A)
    (a : A) (index : Z) :
  In a l -> f a = OutOfBounds index ->
  exists index', collect f l = OutOfBounds index'.
Proof.
  induction l as [|a' l IH]; intros Hin Hfa; [destruct Hin|].
  cbn [collect]. destruct (f a') as [b|idx] eqn:Hfa'; cbn [bind].
  - destruct Hin as [->|Hin]; [congruence|].
    destruct (IH Hin Hfa) as [idx ->]. now exists idx.
  - now exists idx.
Qed.

Lemma firing_order_complete (BLOCKS_PER_PACKET LASER_COUNT i j : nat) :
  (i < BLOCKS_PER_PACKET)%nat -> (j < LASER_COUNT)%nat ->
  In (i, j) (firing_order BLOCKS_PER_PACKET LASER_COUNT).
Proof.
  intros Hi Hj. unfold firing_order. apply in_flat_map.
  exists i. split; [apply in_seq; lia|].
  apply in_map. apply in_seq. lia.
Qed.

Section ConverterFaults.

Variables BLOCKS_PER_PACKET LASER_COUNT : nat.
Context {libm : Libm}.

Lemma toPointClouds_convert (this : RawData) (packet : raw_packet_t)
    (pc : PPointCloud) :
  toPointClouds BLOCKS_PER_PACKET LASER_COUNT this packet pc
  = convert BLOCKS_PER_PACKET LASER_COUNT this packet pc.
Proof. unfold toPointClouds, convert, firing_order. apply block_loop_convert. Qed.

Lemma corrected_point_fault (this : RawData) (packet : raw_packet_t)
    (i j : nat) :
  (exists index, corrected_point this packet (i, j) = OutOfBounds index)
  <-> reads_beyond_tables this (azimuth (blocks packet i))
        (measures (blocks packet i) j) (laser_corrections (calibration_ this) j).
Proof.
  unfold corrected_point.
  destruct (computeXYZIR _ _ _ _ _) as [p|idx] eqn:Hp; cbn [bind].
  - split; [intros [idx Hidx]; discriminate|].
    intros Hbad.
    assert (Hf := proj2 (computeXYZIR_fault this uninitialized_point _ _ _ _)
                    (conj Hbad eq_refl)).
    congruence.
  - apply computeXYZIR_fault in Hp as [Hbad _].
    split; [auto|intros _; now exists idx].
Qed.

(** X6: [toPointClouds] stops on a read beyond the lookup tables exactly
    when some channel of some block of the packet holds such a return
    (inside the window, zero [azimuthCorrection], block azimuth outside
    [0, 36000)); the index it reports is the azimuth of a block of the
    packet. *)
Theorem toPointClouds_fault_iff (this : RawData) (packet : raw_packet_t)
    (pc : PPointCloud) :
  ((exists index,
      toPointClouds BLOCKS_PER_PACKET LASER_COUNT this packet pc
      = OutOfBounds index)
   <-> exists i j, (i < BLOCKS_PER_PACKET)%nat /\ (j < LASER_COUNT)%nat
         /\ reads_beyond_tables this (azimuth (blocks packet i))
              (measures (blocks packet i) j)
              (laser_corrections (calibration_ this) j))
  /\ (forall index,
        toPointClouds BLOCKS_PER_PACKET LASER_COUNT this packet pc
        = OutOfBounds index ->
        exists i, (i < BLOCKS_PER_PACKET)%nat
          /\ index = azimuth (blocks packet i)).
Proof.
  rewrite toPointClouds_convert. unfold convert.
  assert (Hinv : forall index,
    bind (collect (corrected_point this packet)
            (firing_order BLOCKS_PER_PACKET LASER_COUNT))
         (fun pts => Done (append_kept pc pts)) = OutOfBounds index ->
    exists i j, (i < BLOCKS_PER_PACKET)%nat /\ (j < LASER_COUNT)%nat
      /\ corrected_point this packet (i, j) = OutOfBounds index).
  { intros index Hidx.
    destruct (collect _ _) as [pts|idx'] eqn:Hc; [discriminate|].
    cbn [bind] in Hidx. injection Hidx as ->.
    apply collect_fault_inv in Hc as ([i j] & Hin & Hf).
    apply firing_order_blocks in Hin as [Hi Hj]. now exists i, j. }
  split; [split|].
  - intros [idx Hidx]. destruct (Hinv idx Hidx) as (i & j & Hi & Hj & Hf).
    exists i, j. split; [exact Hi|]. split; [exact Hj|].
    apply corrected_point_fault. now exists idx.
  - intros (i & j & Hi & Hj & Hbad).
    apply corrected_point_fault in Hbad as [idx Hf].
    destruct (collect_fault_intro (corrected_point this packet)
                (firing_order BLOCKS_PER_PACKET LASER_COUNT) (i, j) idx)
      as [idx' Hidx']; [now apply firing_order_complete|exact Hf|].
    exists idx'. now rewrite Hidx'.
  - intros index Hidx. destruct (Hinv index Hidx) as (i & j & Hi & _ & Hf).
    exists i. split; [exact Hi|].
    unfold corrected_point in Hf.
    destruct (computeXYZIR _ _ _ _ _) as [q|idx] eqn:Hq; cbn [bind] in Hf;
      [discriminate|].
    injection Hf as ->. now apply computeXYZIR_fault in Hq as [_ ->].
Qed.

End ConverterFaults.

(** ** The points that are published *)

Lemma collect_length {A B : Type} (f : A -> outcome B) (l : list A)
    (bs : list B) :
  collect f l = Done bs -> length bs = length l.
Proof.
  revert bs. induction l as [|a l IH]; intros bs; cbn [collect].
  - now intros [= <-].
  - destruct (f a) as [b|idx]; cbn [bind]; [|discriminate].
    destruct (collect f l) as [bs'|idx]; cbn [bind]; [|discriminate].
    intros [= <-]. cbn [length]. now rewrite (IH bs' eq_refl).
Qed.

Lemma collect_In {A B : Type} (f : A -> outcome B) (l : list A)
    (bs : list B) (b : B) :
  collect f l = Done bs -> In b bs -> exists a, In a l /\ f a = Done b.
Proof.
  revert bs. induction l as [|a l IH]; intros bs; cbn [collect].
  - intros [= <-] [].
  - destruct (f a) as [b'|idx] eqn:Hfa; cbn [bind]; [|discriminate].
    destruct (collect f l) as [bs'|idx]; cbn [bind]; [|discriminate].
    intros [= <-] [<-|Hin].
    + exists a. split; [now left|assumption].
    + destruct (IH bs' eq_refl Hin) as (a' & Hin' & Ha').
      exists a'. split; [now right|assumption].
Qed.

Lemma firing_order_length (BLOCKS_PER_PACKET LASER_COUNT : nat) :
  length (firing_order BLOCKS_PER_PACKET LASER_COUNT)
  = (BLOCKS_PER_PACKET * LASER_COUNT)%nat.
Proof.
  unfold firing_order.
  assert (Hgen : forall l : list nat,
            length (flat_map (fun i => map (pair i) (seq 0 LASER_COUNT)) l)
            = (length l * LASER_COUNT)%nat).
  { induction l as [|i l IH]; [reflexivity|].
    cbn [flat_map length]. rewrite length_app, length_map, length_seq, IH.
    reflexivity. }
  now rewrite Hgen, length_seq.
Qed.

Lemma width_counts (kept : list PPoint) (w : Z) :
  CInt.to_uint32 (fold_left (fun w _ => CInt.to_uint32 (w + 1)) kept w)
  = CInt.to_uint32 (w + Z.of_nat (length kept)).
Proof.
  revert w. induction kept as [|p kept IH]; intros w.
  - cbn [fold_left length]. f_equal. lia.
  - cbn [fold_left length]. rewrite IH. unfold CInt.to_uint32.
    rewrite Zplus_mod_idemp_l. f_equal. lia.
Qed.

Section Published.

Context {libm : Libm}.

(** A corrected point without a NaN coordinate is not the origin. *)
Lemma computeXYZIR_kept (this : RawData) (point : PPoint) (azimuth : Z)
    (m : raw_measure_t) (c : PandarLaserCorrection) (p : PPoint) :
  computeXYZIR this point azimuth m c = Done p ->
  has_nan_coordinate p = false ->
  is_origin (coordinates p) = false.
Proof.
  rewrite computeXYZIR_steps.
  destruct (outside_window _ _); [intros [= <-]; discriminate|].
  destruct (azimuth_trig this azimuth c) as [[cos_az sin_az]|idx];
    [|discriminate].
  cbn [bind fst snd].
  destruct (cartesian c (distance_of m) cos_az sin_az) as [[X Y] Z0] eqn:Hxyz.
  cbn zeta. destruct (is_origin (X, Y, Z0)) eqn:Horigin;
    intros [= <-]; [discriminate|].
  intros _. exact Horigin.
Qed.

Variables BLOCKS_PER_PACKET LASER_COUNT : nat.

(** X7: when [toPointClouds] returns, the cloud it was given is a prefix
    of the result: points are only appended, at most
    [BLOCKS_PER_PACKET * LASER_COUNT] of them.  No appended point has a NaN
    coordinate or lies at the origin, its ring is a channel index, and the
    width has grown by the number of appended points (modulo 2^32). *)
Theorem toPointClouds_appends_publishable (this : RawData)
    (packet : raw_packet_t) (pc pc' : PPointCloud) :
  toPointClouds BLOCKS_PER_PACKET LASER_COUNT this packet pc = Done pc' ->
  exists new,
    points pc' = points pc ++ new
    /\ (length new <= BLOCKS_PER_PACKET * LASER_COUNT)%nat
    /\ Forall (publishable LASER_COUNT) new
    /\ CInt.to_uint32 (width pc')
       = CInt.to_uint32 (width pc + Z.of_nat (length new)).
Proof.
  rewrite toPointClouds_convert. unfold convert.
  destruct (collect _ _) as [pts|idx] eqn:Hc; cbn [bind]; [|discriminate].
  intros [= <-].
  exists (filter (fun p => negb (has_nan_coordinate p)) pts).
  unfold append_kept. cbn [points width].
  split; [reflexivity|]. split; [|split].
  - rewrite <- firing_order_length, <- (collect_length _ _ _ Hc).
    apply filter_length_le.
  - apply Forall_forall. intros p Hp.
    apply filter_In in Hp as [Hin Hnan]. apply negb_true_iff in Hnan.
    destruct (collect_In _ _ _ _ Hc Hin) as ([i j] & Hij & Hp).
    apply firing_order_blocks in Hij as [Hi Hj].
    unfold corrected_point in Hp.
    destruct (computeXYZIR _ _ _ _ _) as [q|idx] eqn:Hq; cbn [bind] in Hp;
      [|discriminate].
    injection Hp as <-. rewrite has_nan_coordinate_set_ring in Hnan.
    repeat split.
    + exact Hnan.
    + exact (computeXYZIR_kept _ _ _ _ _ _ Hq Hnan).
    + cbn [ring set_ring]. lia.
    + cbn [ring set_ring]. lia.
  - apply width_counts.
Qed.

End Published.

Lemma toPointClouds_appends_publishable_witness :
  exists new,
    points {| points := [ {| x := 0; y := 50; z := 0;
                             intensity := 0x12; ring := 0 |} ];
              width := 1 |}
    = points Pandar40.empty_cloud ++ new
    /\ (length new <= 1 * 2)%nat
    /\ Forall (publishable 2) new
    /\ CInt.to_uint32 (width {| points := [ {| x := 0; y := 50; z := 0;
                                              intensity := 0x12; ring := 0 |} ];
                               width := 1 |})
       = CInt.to_uint32 (width Pandar40.empty_cloud + Z.of_nat (length new)).
Proof.
  apply (toPointClouds_appends_publishable (libm := Taylor.libm) 1 2
           (Pandar40.ready Pandar40.plain_correction 0.5 100)
           Pandar40.stale_packet).
  exact (example_scenario (libm := Taylor.libm) taylor_exact_at_zero).
Defined.

Section UnpackTotal.

Variables BLOCKS_PER_PACKET LASER_COUNT RESERVE_SIZE : nat.
Context {libm : Libm}.

(** X8: [unpack] on a correctly sized packet whose block azimuths on the
    wire are all below 36000 converts the packet to its end: no lookup is
    out of bounds, whatever the calibration, the range window and the
    contents of the uninitialised local packet. *)
Theorem unpack_converts_valid_azimuths (this : RawData) (stack : raw_packet_t)
    (pkt : PandarPacket) (pc : PPointCloud) :
  correctly_sized BLOCKS_PER_PACKET LASER_COUNT RESERVE_SIZE (data pkt)
    (Z.of_nat (length (data pkt))) ->
  (forall i, (i < BLOCKS_PER_PACKET)%nat ->
     le_uint (data pkt) (block_offset LASER_COUNT i + 2) 2 < ROTATION_MAX_UNITS) ->
  exists pc',
    unpack BLOCKS_PER_PACKET LASER_COUNT RESERVE_SIZE this stack pkt pc = Done pc'.
Proof.
  intros (_ & Hlen & Hmax) Haz. unfold unpack.
  rewrite to_int_id
    by (pose proof (Nat2Z.is_nonneg (length (data pkt)));
        unfold CInt.INT_MIN, CInt.INT_MAX in *; lia).
  destruct (parseRawData_decodes BLOCKS_PER_PACKET LASER_COUNT RESERVE_SIZE
              stack (data pkt) _ Hlen Hmax) as (p & -> & Hb & _).
  rewrite toPointClouds_convert. unfold convert.
  destruct (collect_total (corrected_point this p)
              (firing_order BLOCKS_PER_PACKET LASER_COUNT)) as [pts ->].
  - intros [i j] Hin. apply firing_order_blocks in Hin as [Hi Hj].
    apply corrected_point_total.
    destruct (Hb i Hi) as (_ & -> & _).
    pose proof (le_uint_bound (data pkt) 2 (block_offset LASER_COUNT i + 2)).
    specialize (Haz i Hi). lia.
  - cbn [bind]. eexists. reflexivity.
Qed.

End UnpackTotal.

Lemma unpack_converts_valid_azimuths_witness :
  exists pc',
    unpack (libm := Taylor.libm) Pandar40.BLOCKS Pandar40.LASERS Pandar40.RESERVE
      (Pandar40.ready Pandar40.plain_correction 0.5 100) Pandar40.blank_packet
      {| stamp := 0; data := Pandar40.sentinel_buffer |} Pandar40.empty_cloud
    = Done pc'.
Proof.
  apply (unpack_converts_valid_azimuths Pandar40.BLOCKS Pandar40.LASERS
           Pandar40.RESERVE (libm := Taylor.libm)).
  - cbn [data].
    replace (Z.of_nat (length Pandar40.sentinel_buffer)) with 1240
      by (vm_compute; reflexivity).
    exact pandar40_sentinel_buffer_sized.
  - intros i Hi. cbn [data].
    do 6 (destruct i as [|i]; [vm_compute; reflexivity|]).
    unfold Pandar40.BLOCKS in Hi. lia.
Defined.

(** ** Set-up *)

Section SetupStatus.

Context {libm : Libm}.

(** X9: [setup] returns 0 exactly when the calibration read from the file
    is initialized, and -1 otherwise.  The file is the value of the
    "calibration" parameter or, when the parameter is missing,
    "/params/Lidar-Correction-18.csv" below the package path.  In both cases
    the file name and the calibration read are stored and the range window
    is left alone; on failure the lookup tables are as they were. *)
Theorem setup_status (this : RawData) (param : option string)
    (pkgPath : string) (read : string -> Calibration) :
  let file := calibration_path param pkgPath in
  let ret := fst (setup this param pkgPath read) in
  let this' := snd (setup this param pkgPath read) in
  ret = (if initialized (read file) then 0 else -1)
  /\ calibrationFile (config_ this') = file
  /\ calibration_ this' = read file
  /\ min_range (config_ this') = min_range (config_ this)
  /\ max_range (config_ this') = max_range (config_ this)
  /\ (initialized (read file) = false ->
        cos_lookup_table_ this' = cos_lookup_table_ this
        /\ sin_lookup_table_ this' = sin_lookup_table_ this).
Proof.
  cbn zeta. unfold setup, calibration_path.
  cbn [config_ calibration_ set_config set_calibration calibrationFile
       set_calibrationFile].
  set (file := match param with Some f => f | None => _ end).
  destruct (initialized (read file)) eqn:Hinit; cbn [negb fst snd].
  - match goal with
    | |- context [fill_tables ?t] =>
        destruct (fill_tables_preserves t) as [-> ->]
    end.
    cbn [config_ calibration_ calibrationFile min_range max_range
         set_calibrationFile].
    repeat split; try reflexivity; discriminate.
  - cbn [config_ calibration_ calibrationFile min_range max_range
         set_calibrationFile cos_lookup_table_ sin_lookup_table_].
    repeat split; reflexivity.
Qed.

(** X10: [setupOffline] stores [max_range_], [min_range_] and the file
    name before it reads the calibration, so they are set even when it
    returns -1; it returns 0 exactly when the calibration read is
    initialized, leaves the angle window alone, and on failure leaves the
    lookup tables as they were. *)
Theorem setupOffline_status (this : RawData) (calibration_file : string)
    (max_range_ min_range_ : float) (read : string -> Calibration) :
  let ret :=
    fst (setupOffline this calibration_file max_range_ min_range_ read) in
  let this' :=
    snd (setupOffline this calibration_file max_range_ min_range_ read) in
  ret = (if initialized (read calibration_file) then 0 else -1)
  /\ calibrationFile (config_ this') = calibration_file
  /\ calibration_ this' = read calibration_file
  /\ min_range (config_ this') = min_range_
  /\ max_range (config_ this') = max_range_
  /\ min_angle (config_ this') = min_angle (config_ this)
  /\ max_angle (config_ this') = max_angle (config_ this)
  /\ (initialized (read calibration_file) = false ->
        cos_lookup_table_ this' = cos_lookup_table_ this
        /\ sin_lookup_table_ this' = sin_lookup_table_ this).
Proof.
  cbn zeta. unfold setupOffline.
  cbn [config_ calibration_ set_config set_calibration calibrationFile
       set_calibrationFile].
  destruct (initialized (read calibration_file)) eqn:Hinit; cbn [negb fst snd].
  - match goal with
    | |- context [fill_tables ?t] =>
        destruct (fill_tables_preserves t) as [-> ->]
    end.
    cbn [config_ calibration_ calibrationFile min_range max_range min_angle
         max_angle set_calibrationFile set_min_range set_max_range].
    repeat split; try reflexivity; discriminate.
  - cbn [config_ calibration_ calibrationFile min_range max_range min_angle
         max_angle set_calibrationFile set_min_range set_max_range
         cos_lookup_table_ sin_lookup_table_].
    repeat split; reflexivity.
Qed.

(** *** The loop counter *)

Lemma fill_tables_uint16_from (fuel k : nat) (this : RawData) :
  (k <= Z.to_nat ROTATION_MAX_UNITS)%nat ->
  (Z.to_nat ROTATION_MAX_UNITS - k < fuel)%nat ->
  fill_tables_uint16 fuel (Z.of_nat k) (for_loop k fill_tables_step this)
  = Some (fill_tables this).
Proof.
  unfold fill_tables.
  assert (HN : Z.of_nat (Z.to_nat ROTATION_MAX_UNITS) = 36000)
    by (apply Z2Nat.id; unfold ROTATION_MAX_UNITS; lia).
  generalize dependent (Z.to_nat ROTATION_MAX_UNITS). intros N HN.
  revert k. induction fuel as [|fuel IH]; intros k Hk Hfuel; [lia|].
  cbn [fill_tables_uint16].
  destruct (Z.ltb_spec (Z.of_nat k) ROTATION_MAX_UNITS) as [Hlt|Hge];
    unfold ROTATION_MAX_UNITS in *.
  - rewrite Nat2Z.id, <- for_loop_S.
    replace (CInt.to_uint16 (Z.of_nat k + 1)) with (Z.of_nat (S k))
      by (unfold CInt.to_uint16; rewrite Z.mod_small; lia).
    apply IH; lia.
  - replace k with N by lia. reflexivity.
Qed.

(** X11: the table loop of [setup] and [setupOffline] ends: its
    [uint16_t] counter reaches [ROTATION_MAX_UNITS] = 36000 without wrapping
    at 2^16, after one pass per table cell, and the object it leaves is the
    one [fill_tables] computes. *)
Theorem fill_tables_counter_ends (this : RawData) (fuel : nat) :
  (Z.to_nat ROTATION_MAX_UNITS < fuel)%nat ->
  fill_tables_uint16 fuel 0 this = Some (fill_tables this).
Proof.
  intros Hfuel.
  apply (fill_tables_uint16_from fuel 0 this); lia.
Qed.

End SetupStatus.

Lemma fill_tables_counter_ends_witness :
  fill_tables_uint16 (libm := Taylor.libm) (S (Z.to_nat ROTATION_MAX_UNITS)) 0
    Pandar40.fresh
  = Some (fill_tables (libm := Taylor.libm) Pandar40.fresh).
Proof.
  apply (fill_tables_counter_ends (libm := Taylor.libm) Pandar40.fresh
           (S (Z.to_nat ROTATION_MAX_UNITS))).
  apply Nat.lt_succ_diag_r.
Defined.

(** ** Floating-point zeros *)

Lemma float_of_zero (x : float) (s : bool) :
  Prim2SF x = S754_zero s -> x = if s then (-0)%float else 0%float.
Proof.
  intros Hx. rewrite <- (SF2Prim_Prim2SF x), Hx. now destruct s.
Qed.

Lemma eqb_zero_cases (w : float) :
  (w =? 0)%float = true -> w = 0%float \/ w = (-0)%float.
Proof.
  rewrite eqb_spec. change (Prim2SF 0) with (S754_zero false).
  destruct (Prim2SF w) as [s|s| |s m e] eqn:Hw.
  - intros _. apply float_of_zero in Hw. destruct s; auto.
  - destruct s; discriminate.
  - discriminate.
  - destruct s; discriminate.
Qed.

(** Adding or subtracting a zero leaves every number that is not itself a
    zero as it is (NaN and the infinities included). *)
Lemma add_zero (x z : float) (s : bool) :
  Prim2SF z = S754_zero s ->
  (forall s', Prim2SF x <> S754_zero s') ->
  (x + z)%float = x /\ (x - z)%float = x.
Proof.
  intros Hz Hx. split; apply Prim2SF_inj.
  - rewrite add_spec, Hz. destruct (Prim2SF x) as [s'| | |s' m e];
      try reflexivity. now destruct (Hx s').
  - rewrite sub_spec, Hz. destruct (Prim2SF x) as [s'| | |s' m e];
      try reflexivity. now destruct (Hx s').
Qed.

(** X12: a [view_width] of zero (of either sign) does not select an empty
    angle window: for every finite [view_direction] the two converted angles
    coincide and [setParameters] stores the full revolution,
    [min_angle] = 0 and [max_angle] = 36000. *)
Theorem setParameters_zero_width (this : RawData)
    (min_range' max_range' view_direction view_width : float) :
  CFloat.finite view_direction = true ->
  (view_width =? 0)%float = true ->
  min_angle (config_ (setParameters this min_range' max_range'
                        view_direction view_width)) = 0
  /\ max_angle (config_ (setParameters this min_range' max_range'
                           view_direction view_width)) = 36000.
Proof.
  intros _ Hw.
  assert (Hsame :
    (view_direction + view_width / 2)%float
    = (view_direction - view_width / 2)%float
    \/ (exists s, Prim2SF view_direction = S754_zero s)).
  { destruct (Prim2SF view_direction) as [s| | |s m e] eqn:Hd;
      [right; now exists s|left..];
      (destruct (add_zero view_direction (view_width / 2)
                  (match Prim2SF (view_width / 2) with
                   | S754_zero b => b | _ => false end)) as [-> ->];
       [destruct (eqb_zero_cases _ Hw) as [->| ->]; reflexivity
       |intros s'; congruence|reflexivity]). }
  unfold setParameters.
  cbn [config_ set_config min_angle max_angle tmp_min_angle tmp_max_angle
       set_min_range set_max_range set_tmp_min_angle set_tmp_max_angle
       set_min_angle set_max_angle].
  destruct Hsame as [->|[s Hd]].
  - rewrite Z.eqb_refl. cbn [min_angle max_angle set_min_angle set_max_angle].
    split; reflexivity.
  - apply float_of_zero in Hd.
    destruct (eqb_zero_cases _ Hw) as [->| ->]; destruct s; subst view_direction;
      vm_compute; split; reflexivity.
Qed.

Lemma setParameters_zero_width_witness :
  min_angle (config_ (setParameters Pandar40.fresh
                        0.5 100 1.5 0)) = 0
  /\ max_angle (config_ (setParameters Pandar40.fresh
                           0.5 100 1.5 0)) = 36000.
Proof.
  apply (setParameters_zero_width Pandar40.fresh
           0.5 100 1.5 0); reflexivity.
Defined.

(** ** The point that is passed in *)

Section PointOverwritten.

Context {libm : Libm}.

(** X13: [computeXYZIR] never reads the coordinates or the intensity of
    the point it is given: the result is the same for any two points with
    the same ring, and the ring is returned as it was.  The uninitialised
    point of [toPointClouds] therefore cannot reach the cloud. *)
Theorem computeXYZIR_overwrites_point (this : RawData) (p1 p2 : PPoint)
    (azimuth : Z) (m : raw_measure_t) (c : PandarLaserCorrection) :
  computeXYZIR this p1 azimuth m c
  = computeXYZIR this (set_ring p2 (ring p1)) azimuth m c
  /\ (forall p, computeXYZIR this p1 azimuth m c = Done p -> ring p = ring p1).
Proof.
  rewrite !computeXYZIR_steps. cbn [ring set_ring].
  split; [reflexivity|].
  intros p. destruct (outside_window _ _); [now intros [= <-]|].
  destruct (azimuth_trig this azimuth c) as [trig|idx]; [|discriminate].
  cbn [bind]. cbn zeta. destruct (is_origin _); now intros [= <-].
Qed.

End PointOverwritten.

(** ** The order of the set-up calls *)

Section SetupOrder.

Context {libm : Libm}.

Lemma fill_tables_entries (this : RawData) (i : nat) :
  cos_lookup_table_ (fill_tables this) i
  = (if Z.of_nat i <? ROTATION_MAX_UNITS
     then cosf (rotation_of (Z.of_nat i)) else cos_lookup_table_ this i)
  /\ sin_lookup_table_ (fill_tables this) i
     = (if Z.of_nat i <? ROTATION_MAX_UNITS
        then sinf (rotation_of (Z.of_nat i)) else sin_lookup_table_ this i).
Proof.
  destruct (fill_tables_loop (Z.to_nat ROTATION_MAX_UNITS) this)
    as (_ & _ & Hlt & Hge).
  unfold fill_tables.
  assert (HM : 0 <= ROTATION_MAX_UNITS) by (unfold ROTATION_MAX_UNITS; lia).
  destruct (Z.ltb_spec (Z.of_nat i) ROTATION_MAX_UNITS) as [Hi|Hi].
  - apply Hlt. apply Nat2Z.inj_lt. now rewrite Z2Nat.id.
  - apply Hge. apply Nat2Z.inj_le. now rewrite Z2Nat.id.
Qed.

Lemma setParameters_config (t t' : RawData)
    (min_range' max_range' view_direction view_width : float) :
  config_ t = config_ t' ->
  config_ (setParameters t min_range' max_range' view_direction view_width)
  = config_ (setParameters t' min_range' max_range' view_direction view_width).
Proof.
  intros Hcfg. unfold setParameters. cbn [config_ set_config]. now rewrite Hcfg.
Qed.

Lemma setParameters_calibrationFile (t : RawData) (file : string)
    (min_range' max_range' view_direction view_width : float) :
  config_ (setParameters (set_config t (set_calibrationFile (config_ t) file))
             min_range' max_range' view_direction view_width)
  = set_calibrationFile
      (config_ (setParameters t min_range' max_range' view_direction view_width))
      file.
Proof.
  unfold setParameters.
  cbn [config_ set_config calibrationFile max_range min_range min_angle
       max_angle tmp_min_angle tmp_max_angle set_calibrationFile set_max_range
       set_min_range set_min_angle set_max_angle set_tmp_min_angle
       set_tmp_max_angle].
  match goal with
  | |- context [if ?b then _ else _] => destruct b
  end; reflexivity.
Qed.

Lemma setParameters_keeps (t : RawData)
    (min_range' max_range' view_direction view_width : float) :
  calibration_ (setParameters t min_range' max_range' view_direction view_width)
  = calibration_ t
  /\ cos_lookup_table_
       (setParameters t min_range' max_range' view_direction view_width)
     = cos_lookup_table_ t
  /\ sin_lookup_table_
       (setParameters t min_range' max_range' view_direction view_width)
     = sin_lookup_table_ t.
Proof. unfold setParameters. repeat split. Qed.

(** X14: [setup] and [setParameters] commute: calling [setParameters]
    after [setup], or [setup] after [setParameters], gives the same status
    code, the same configuration, the same calibration and the same lookup
    tables, whether or not the calibration loads. *)
Theorem setup_setParameters_commute (this : RawData) (param : option string)
    (pkgPath : string) (read : string -> Calibration)
    (min_range' max_range' view_direction view_width : float) :
  let first_setup :=
    setup this param pkgPath read in
  let then_setup :=
    setup (setParameters this min_range' max_range' view_direction view_width)
      param pkgPath read in
  let a :=
    setParameters (snd first_setup) min_range' max_range' view_direction
      view_width in
  let b := snd then_setup in
  fst first_setup = fst then_setup
  /\ config_ a = config_ b
  /\ calibration_ a = calibration_ b
  /\ (forall i, cos_lookup_table_ a i = cos_lookup_table_ b i
                /\ sin_lookup_table_ a i = sin_lookup_table_ b i).
Proof.
  cbn zeta.
  destruct (setParameters_keeps this min_range' max_range' view_direction
              view_width) as (Hcal0 & Hcos0 & Hsin0).
  unfold setup.
  set (file := match param with Some f => f | None => _ end).
  cbn [config_ calibration_ set_config set_calibration calibrationFile
       set_calibrationFile].
  destruct (initialized (read file)); cbn [negb fst snd].
  - split; [reflexivity|].
    match goal with
    | |- context [setParameters (fill_tables ?u)] => set (t1 := u)
    end.
    match goal with
    | |- context [config_ (fill_tables ?u)] => set (t2 := u)
    end.
    destruct (setParameters_keeps (fill_tables t1) min_range' max_range'
                view_direction view_width) as (-> & -> & ->).
    destruct (fill_tables_preserves t1) as [Hc1 Hk1].
    destruct (fill_tables_preserves t2) as [Hc2 Hk2].
    rewrite (setParameters_config (fill_tables t1) t1) by exact Hc1.
    rewrite Hc2, Hk1, Hk2.
    split; [apply setParameters_calibrationFile|].
    split; [reflexivity|].
    intros i.
    destruct (fill_tables_entries t1 i) as [-> ->].
    destruct (fill_tables_entries t2 i) as [-> ->].
    subst t1 t2.
    cbn [cos_lookup_table_ sin_lookup_table_ set_calibration set_config].
    rewrite Hcos0, Hsin0. split; reflexivity.
  - split; [reflexivity|].
    match goal with
    | |- context [setParameters ?u] => set (t1 := u)
    end.
    destruct (setParameters_keeps t1 min_range' max_range'
                view_direction view_width) as (-> & -> & ->).
    subst t1.
    cbn [config_ calibration_ cos_lookup_table_ sin_lookup_table_
         set_calibration set_config].
    rewrite Hcos0, Hsin0.
    split; [apply setParameters_calibrationFile|].
    split; [reflexivity|]. intros i. split; reflexivity.
Qed.

End SetupOrder.

(** ** The order of floating-point numbers *)

Ltac compare_cases :=
  repeat match goal with
         | H : context [Z.compare ?a ?b] |- _ =>
             destruct (Z.compare_spec a b)
         | |- context [Z.compare ?a ?b] =>
             destruct (Z.compare_spec a b)
         | H : context [Pos.compare_cont Eq ?a ?b] |- _ =>
             change (Pos.compare_cont Eq a b) with (Pos.compare a b) in *
         | |- context [Pos.compare_cont Eq ?a ?b] =>
             change (Pos.compare_cont Eq a b) with (Pos.compare a b) in *
         | H : context [Pos.compare ?a ?b] |- _ =>
             destruct (Pos.compare_spec a b)
         | |- context [Pos.compare ?a ?b] =>
             destruct (Pos.compare_spec a b)
         end.

(** [lo < hi], [d] a number and not below [hi]: then [lo < d]. *)
Lemma SFltb_below (lo hi d : spec_float) :
  SFltb lo hi = true -> SFltb d hi = false -> SFeqb d d = true ->
  SFltb lo d = true.
Proof.
  unfold SFltb, SFeqb.
  destruct lo as [[]|[]| |[] ml el], hi as [[]|[]| |[] mh eh],
    d as [[]|[]| |[] md ed];
    cbn [SFcompare CompOpp]; try discriminate; try reflexivity;
    intros Hlo Hd _; compare_cases; cbn [CompOpp] in *;
    try discriminate; try reflexivity; try lia.
Qed.

Lemma ltb_below (lo hi d : float) :
  (lo <? hi)%float = true -> (d <? hi)%float = false ->
  is_nan d = false ->
  (lo <? d)%float = true.
Proof.
  unfold is_nan. rewrite !ltb_spec, eqb_spec, negb_false_iff.
  apply SFltb_below.
Qed.

(** ** The reach of the sensor *)

(** Checked by evaluation on each of the 100001 ranges. *)
Lemma distance_in_reach_all : forallb distance_in_reach range_units = true.
Proof. vm_compute. reflexivity. Qed.

Lemma distance_in_reach_range (m : raw_measure_t) :
  0 <= range m <= 100000 ->
  is_nan (distance_of m) = false
  /\ (0 <=? distance_of m)%float = true
  /\ (distance_of m <=? 200)%float = true.
Proof.
  intros Hr. pose proof distance_in_reach_all as Hall.
  rewrite forallb_forall in Hall.
  assert (Hin : In (range m) range_units).
  { unfold range_units. apply units_from_spec.
    rewrite Z2Nat.id by lia. lia. }
  specialize (Hall _ Hin). unfold distance_in_reach in Hall. cbn zeta in Hall.
  change (distance_of {| range := range m; reflectivity := 0 |})
    with (distance_of m) in Hall.
  apply andb_true_iff in Hall as [Hall Hhi].
  apply andb_true_iff in Hall as [Hnan Hlo].
  apply negb_true_iff in Hnan. auto.
Qed.

Section Reach.

Variables BLOCKS_PER_PACKET LASER_COUNT RESERVE_SIZE : nat.

(** X15: every measurement of a correctly sized packet, as the parser
    stores it, has a distance [range * 0.002] that is a number (not NaN)
    between 0 and 200 m. *)
Theorem parsed_distance_in_reach
    (packet : raw_packet_t) (buf : buffer) (len : Z) (i j : nat) :
  correctly_sized BLOCKS_PER_PACKET LASER_COUNT RESERVE_SIZE buf len ->
  (i < BLOCKS_PER_PACKET)%nat -> (j < LASER_COUNT)%nat ->
  let m :=
    measures (blocks (snd (parseRawData BLOCKS_PER_PACKET LASER_COUNT
                             RESERVE_SIZE packet buf len)) i) j in
  is_nan (distance_of m) = false
  /\ (0 <=? distance_of m)%float = true
  /\ (distance_of m <=? 200)%float = true.
Proof.
  intros (Hbuf & Hlen & Hmax) Hi Hj m.
  apply distance_in_reach_range. subst m.
  destruct (parseRawData_decodes BLOCKS_PER_PACKET LASER_COUNT RESERVE_SIZE
              packet buf len Hlen Hmax) as (p & -> & Hblocks & _).
  cbn [snd]. destruct (Hblocks i Hi) as (_ & _ & Hms). rewrite (Hms j Hj).
  pose proof (le_uint_bound buf 3 (measure_offset LASER_COUNT i j)).
  pose proof (le_uint_bound buf 2 (measure_offset LASER_COUNT i j + 3)).
  change (256 ^ Z.of_nat 2) with 65536 in *.
  change (256 ^ Z.of_nat 3) with 16777216 in *.
  apply filter_measure_range;
    unfold wire_measure; cbn [range reflectivity]; lia.
Qed.

End Reach.

Lemma parsed_distance_in_reach_witness :
  is_nan (distance_of (measures (blocks (snd
    (parseRawData Pandar40.BLOCKS Pandar40.LASERS Pandar40.RESERVE
       Pandar40.blank_packet Pandar40.sentinel_buffer 1240)) 2) 7)) = false
  /\ (0 <=? distance_of (measures (blocks (snd
        (parseRawData Pandar40.BLOCKS Pandar40.LASERS Pandar40.RESERVE
           Pandar40.blank_packet Pandar40.sentinel_buffer 1240)) 2) 7))%float
     = true
  /\ (distance_of (measures (blocks (snd
        (parseRawData Pandar40.BLOCKS Pandar40.LASERS Pandar40.RESERVE
           Pandar40.blank_packet Pandar40.sentinel_buffer 1240)) 2) 7)
      <=? 200)%float = true.
Proof.
  apply (parsed_distance_in_reach Pandar40.BLOCKS Pandar40.LASERS
           Pandar40.RESERVE Pandar40.blank_packet Pandar40.sentinel_buffer
           1240 2 7 pandar40_sentinel_buffer_sized).
  - unfold Pandar40.BLOCKS. lia.
  - unfold Pandar40.LASERS. lia.
Defined.

(** ** Packets without a return inside the window *)

Lemma for_loopM_unchanged {S : Type} (n : nat) (body : nat -> S -> outcome S)
    (s : S) :
  (forall i, (i < n)%nat -> body i s = Done s) ->
  for_loopM n body s = Done s.
Proof.
  induction n as [|n IH]; intros Hbody; [reflexivity|].
  rewrite for_loopM_S, IH by (intros; apply Hbody; lia).
  cbn [bind]. apply Hbody. lia.
Qed.

Section Rejected.

Variables BLOCKS_PER_PACKET LASER_COUNT RESERVE_SIZE : nat.
Context {libm : Libm}.

(** X16: a packet none of whose returns passes the range window leaves
    the cloud as it is, and no lookup table is read: the conversion cannot
    stop on a wild azimuth. *)
Theorem toPointClouds_all_outside (this : RawData) (packet : raw_packet_t)
    (pc : PPointCloud) :
  (forall i j, (i < BLOCKS_PER_PACKET)%nat -> (j < LASER_COUNT)%nat ->
     outside_window (config_ this)
       (distance_of (measures (blocks packet i) j)) = true) ->
  toPointClouds BLOCKS_PER_PACKET LASER_COUNT this packet pc = Done pc.
Proof.
  intros Hout. unfold toPointClouds.
  apply for_loopM_unchanged. intros i Hi.
  apply for_loopM_unchanged. intros j Hj.
  eapply toPointClouds_step_skips.
  - apply computeXYZIR_outside. now apply Hout.
  - reflexivity.
Qed.

Lemma inverted_window_rejects (cfg : Config) (m : raw_measure_t) :
  (max_range cfg <? min_range cfg)%float = true ->
  0 <= range m <= 100000 ->
  outside_window cfg (distance_of m) = true.
Proof.
  intros Hinv Hr. unfold outside_window.
  destruct (distance_of m <? min_range cfg)%float eqn:Hlo; [reflexivity|].
  cbn [orb]. apply (ltb_below _ _ _ Hinv Hlo).
  now apply distance_in_reach_range.
Qed.

(** X17: with an inverted range window ([max_range] < [min_range]) every
    return of a correctly sized packet is rejected: [unpack] returns the
    cloud unchanged, whatever the azimuths. *)
Theorem unpack_inverted_window (this : RawData) (stack : raw_packet_t)
    (pkt : PandarPacket) (pc : PPointCloud) :
  correctly_sized BLOCKS_PER_PACKET LASER_COUNT RESERVE_SIZE (data pkt)
    (Z.of_nat (length (data pkt))) ->
  (max_range (config_ this) <? min_range (config_ this))%float = true ->
  unpack BLOCKS_PER_PACKET LASER_COUNT RESERVE_SIZE this stack pkt pc = Done pc.
Proof.
  intros (_ & Hlen & Hmax) Hinv. unfold unpack.
  rewrite to_int_id
    by (pose proof (Nat2Z.is_nonneg (length (data pkt)));
        unfold CInt.INT_MIN, CInt.INT_MAX in *; lia).
  destruct (parseRawData_decodes BLOCKS_PER_PACKET LASER_COUNT RESERVE_SIZE
              stack (data pkt) _ Hlen Hmax) as (p & -> & Hblocks & _).
  unfold toPointClouds.
  apply for_loopM_unchanged. intros i Hi.
  apply for_loopM_unchanged. intros j Hj.
  assert (Hr : 0 <= range (measures (blocks p i) j) <= 100000).
  { destruct (Hblocks i Hi) as (_ & _ & Hms). rewrite (Hms j Hj).
    pose proof (le_uint_bound (data pkt) 3 (measure_offset LASER_COUNT i j)).
    pose proof (le_uint_bound (data pkt) 2 (measure_offset LASER_COUNT i j + 3)).
    change (256 ^ Z.of_nat 2) with 65536 in *.
    change (256 ^ Z.of_nat 3) with 16777216 in *.
    apply filter_measure_range;
      unfold wire_measure; cbn [range reflectivity]; lia. }
  eapply toPointClouds_step_skips.
  - apply computeXYZIR_outside. now apply inverted_window_rejects.
  - reflexivity.
Qed.

End Rejected.

Lemma toPointClouds_all_outside_witness :
  toPointClouds (libm := Taylor.libm) Pandar40.BLOCKS Pandar40.LASERS
    (Pandar40.ready Pandar40.plain_correction 0.5 100) Pandar40.blank_packet
    Pandar40.empty_cloud
  = Done Pandar40.empty_cloud.
Proof.
  apply (toPointClouds_all_outside Pandar40.BLOCKS Pandar40.LASERS
           (libm := Taylor.libm)).
  intros i j _ _. rewrite outside_window_ready. vm_compute. reflexivity.
Defined.

Lemma unpack_inverted_window_witness :
  unpack (libm := Taylor.libm) Pandar40.BLOCKS Pandar40.LASERS Pandar40.RESERVE
    (Pandar40.ready Pandar40.plain_correction 100 0.5) Pandar40.blank_packet
    {| stamp := 0; data := Pandar40.wild_azimuth_buffer |} Pandar40.empty_cloud
  = Done Pandar40.empty_cloud.
Proof.
  apply (unpack_inverted_window Pandar40.BLOCKS Pandar40.LASERS
           Pandar40.RESERVE (libm := Taylor.libm)).
  - cbn [data].
    replace (Z.of_nat (length Pandar40.wild_azimuth_buffer)) with 1240
      by (vm_compute; reflexivity).
    exact pandar40_wild_azimuth_buffer_sized.
  - destruct (ready_tabulated Pandar40.plain_correction 100 0.5)
      as (-> & -> & _).
    reflexivity.
Defined.

(** ** The bytes that reach the cloud *)

Section PointBytes.

Variables BLOCKS_PER_PACKET LASER_COUNT RESERVE_SIZE : nat.
Context {libm : Libm}.

(** X18: the cloud that [unpack] returns depends only on the azimuth and
    measurement bytes of the blocks: two correctly sized packets that agree
    on these bytes are converted to the same cloud, whatever their
    start-of-block markers, reserved bytes, revolution counters, timestamps,
    factory bytes and arrival stamps.  In particular the marker is never
    validated. *)
Theorem unpack_reads_point_bytes (this : RawData) (stack : raw_packet_t)
    (pkt1 pkt2 : PandarPacket) (pc : PPointCloud) :
  correctly_sized BLOCKS_PER_PACKET LASER_COUNT RESERVE_SIZE (data pkt1)
    (Z.of_nat (length (data pkt1))) ->
  correctly_sized BLOCKS_PER_PACKET LASER_COUNT RESERVE_SIZE (data pkt2)
    (Z.of_nat (length (data pkt2))) ->
  (forall off, point_offset BLOCKS_PER_PACKET LASER_COUNT off ->
     byte_at (data pkt1) off = byte_at (data pkt2) off) ->
  unpack BLOCKS_PER_PACKET LASER_COUNT RESERVE_SIZE this stack pkt1 pc
  = unpack BLOCKS_PER_PACKET LASER_COUNT RESERVE_SIZE this stack pkt2 pc.
Proof.
  intros (_ & Hlen1 & Hmax1) (_ & Hlen2 & Hmax2) Hsame. unfold unpack.
  rewrite !to_int_id
    by (pose proof (Nat2Z.is_nonneg (length (data pkt1)));
        pose proof (Nat2Z.is_nonneg (length (data pkt2)));
        unfold CInt.INT_MIN, CInt.INT_MAX in *; lia).
  destruct (parseRawData_decodes BLOCKS_PER_PACKET LASER_COUNT RESERVE_SIZE
              stack (data pkt1) _ Hlen1 Hmax1) as (p1 & -> & Hb1 & _).
  destruct (parseRawData_decodes BLOCKS_PER_PACKET LASER_COUNT RESERVE_SIZE
              stack (data pkt2) _ Hlen2 Hmax2) as (p2 & -> & Hb2 & _).
  apply toPointClouds_reads. intros i Hi.
  destruct (Hb1 i Hi) as (_ & -> & Hm1). destruct (Hb2 i Hi) as (_ & -> & Hm2).
  assert (Hin : forall off,
            block_offset LASER_COUNT i + 2 <= off
            < block_offset LASER_COUNT i + BLOCK_SIZE LASER_COUNT ->
            byte_at (data pkt1) off = byte_at (data pkt2) off)
    by (intros off Hoff; apply Hsame; now exists i).
  unfold BLOCK_SIZE, RAW_MEASURE_SIZE, SOB_ANGLE_SIZE in Hin.
  split.
  - apply le_uint_ext. intros k Hk. apply Hin. lia.
  - intros j Hj. rewrite Hm1, Hm2 by assumption. f_equal.
    unfold wire_measure, measure_offset. f_equal.
    + apply le_uint_ext. intros k Hk. apply Hin. lia.
    + apply le_uint_ext. intros k Hk. apply Hin. lia.
Qed.

End PointBytes.

Lemma point_bytes_agree_all :
  forallb Pandar40.point_bytes_agree (units_from 1224 0) = true.
Proof. vm_compute. reflexivity. Qed.

Lemma pandar40_unmarked_buffer_sized :
  correctly_sized Pandar40.BLOCKS Pandar40.LASERS Pandar40.RESERVE
    Pandar40.unmarked_buffer 1240.
Proof.
  repeat split; try (vm_compute; reflexivity).
  unfold CInt.INT_MAX. lia.
Qed.

Lemma unpack_reads_point_bytes_witness :
  unpack (libm := Taylor.libm) Pandar40.BLOCKS Pandar40.LASERS Pandar40.RESERVE
    (Pandar40.ready Pandar40.plain_correction 0.5 100) Pandar40.blank_packet
    {| stamp := 0; data := Pandar40.sentinel_buffer |} Pandar40.empty_cloud
  = unpack (libm := Taylor.libm) Pandar40.BLOCKS Pandar40.LASERS Pandar40.RESERVE
      (Pandar40.ready Pandar40.plain_correction 0.5 100) Pandar40.blank_packet
      {| stamp := 7; data := Pandar40.unmarked_buffer |} Pandar40.empty_cloud.
Proof.
  apply (unpack_reads_point_bytes Pandar40.BLOCKS Pandar40.LASERS
           Pandar40.RESERVE (libm := Taylor.libm)).
  - cbn [data].
    replace (Z.of_nat (length Pandar40.sentinel_buffer)) with 1240
      by (vm_compute; reflexivity).
    exact pandar40_sentinel_buffer_sized.
  - cbn [data].
    replace (Z.of_nat (length Pandar40.unmarked_buffer)) with 1240
      by (vm_compute; reflexivity).
    exact pandar40_unmarked_buffer_sized.
  - intros off (i & Hi & Hoff). cbn [data].
    pose proof point_bytes_agree_all as Hall.
    rewrite forallb_forall in Hall.
    assert (HBS : BLOCK_SIZE Pandar40.LASERS = 204) by reflexivity.
    unfold block_offset in Hoff. rewrite HBS in Hoff.
    unfold Pandar40.BLOCKS in Hi.
    assert (Hin : In off (units_from 1224 0)) by (apply units_from_spec; lia).
    specialize (Hall off Hin). unfold Pandar40.point_bytes_agree in Hall.
    apply orb_true_iff in Hall as [Hmod|Heq]; [|now apply Z.eqb_eq].
    apply Z.ltb_lt in Hmod.
    assert (Hq : off mod 204 = off - 204 * Z.of_nat i).
    { symmetry. apply (Z.mod_unique off 204 (Z.of_nat i)); lia. }
    lia.
Defined.

(** ** Packets converted one after the other *)

Section Accumulate.

Variables BLOCKS_PER_PACKET LASER_COUNT : nat.
Context {libm : Libm}.

(** X19: packets converted one after the other accumulate: the cloud after
    the second packet is the first cloud with the kept points of the first
    packet and then those of the second appended, and what a packet
    contributes does not depend on the cloud it is appended to. *)
Theorem toPointClouds_accumulates (this : RawData)
    (packet1 packet2 : raw_packet_t) (pc pc1 pc2 : PPointCloud) :
  toPointClouds BLOCKS_PER_PACKET LASER_COUNT this packet1 pc = Done pc1 ->
  toPointClouds BLOCKS_PER_PACKET LASER_COUNT this packet2 pc1 = Done pc2 ->
  exists pts1 pts2,
    pc1 = append_kept pc pts1
    /\ pc2 = append_kept pc (pts1 ++ pts2)
    /\ (forall pc0,
          toPointClouds BLOCKS_PER_PACKET LASER_COUNT this packet1 pc0
          = Done (append_kept pc0 pts1)
          /\ toPointClouds BLOCKS_PER_PACKET LASER_COUNT this packet2 pc0
             = Done (append_kept pc0 pts2)).
Proof.
  rewrite !toPointClouds_convert. unfold convert.
  destruct (collect (corrected_point this packet1) _) as [pts1|idx] eqn:H1;
    cbn [bind]; [|discriminate].
  intros [= <-].
  destruct (collect (corrected_point this packet2) _) as [pts2|idx] eqn:H2;
    cbn [bind]; [|discriminate].
  intros [= <-].
  exists pts1, pts2.
  split; [reflexivity|]. split; [apply append_kept_app|].
  intros pc0. rewrite !toPointClouds_convert. unfold convert.
  rewrite H1, H2. split; reflexivity.
Qed.

End Accumulate.

Lemma example_scenario_again {libm : Libm} :
  exact_at_zero libm ->
  toPointClouds 1 2 (Pandar40.ready_with Pandar40.plain_correction 0.5 100)
    Pandar40.stale_packet
    {| points := [ {| x := 0; y := 50; z := 0;
                      intensity := 0x12; ring := 0 |} ];
       width := 1 |}
  = Done {| points := [ {| x := 0; y := 50; z := 0;
                           intensity := 0x12; ring := 0 |};
                        {| x := 0; y := 50; z := 0;
                           intensity := 0x12; ring := 0 |} ];
            width := 2 |}.
Proof.
  intros Hexact.
  rewrite (toPointClouds_same_inputs _ _ _ _ _ _
             (same_inputs_trans _ _ _
                (ready_with_tabulated Pandar40.plain_correction 0.5 100)
                (tabulated_north_same_inputs _ _ Hexact))).
  vm_compute. reflexivity.
Qed.

Lemma toPointClouds_accumulates_witness :
  exists pts1 pts2,
    {| points := [ {| x := 0; y := 50; z := 0;
                      intensity := 0x12; ring := 0 |} ];
       width := 1 |}
    = append_kept Pandar40.empty_cloud pts1
    /\ {| points := [ {| x := 0; y := 50; z := 0;
                         intensity := 0x12; ring := 0 |};
                      {| x := 0; y := 50; z := 0;
                         intensity := 0x12; ring := 0 |} ];
          width := 2 |}
       = append_kept Pandar40.empty_cloud (pts1 ++ pts2)
    /\ (forall pc0,
          toPointClouds (libm := Taylor.libm) 1 2
            (Pandar40.ready Pandar40.plain_correction 0.5 100)
            Pandar40.stale_packet pc0
          = Done (append_kept pc0 pts1)
          /\ toPointClouds (libm := Taylor.libm) 1 2
               (Pandar40.ready Pandar40.plain_correction 0.5 100)
               Pandar40.stale_packet pc0
             = Done (append_kept pc0 pts2)).
Proof.
  apply (toPointClouds_accumulates (libm := Taylor.libm) 1 2
           (Pandar40.ready Pandar40.plain_correction 0.5 100)
           Pandar40.stale_packet Pandar40.stale_packet Pandar40.empty_cloud).
  - exact (example_scenario (libm := Taylor.libm) taylor_exact_at_zero).
  - exact (example_scenario_again (libm := Taylor.libm) taylor_exact_at_zero).
Defined.
